(** * Onyx SSI SDK: selective disclosure and StatusList2021 revocation

    A shallow embedding of
    - [src/services/common/sdjwt/selective-disclosure.ts]
      (disclosure codec, [createDisclosures], [discloseClaims]),
    - the revocation module ([RevocationList], bit addressing,
      [parse]/[stringify]),
    - the issuer's [revokeCredentialSL21] flow,
    together with the properties the specification states about them.

    JavaScript values are modelled as follows.  An index (an integer-valued
    Number) is a [Z] and a BigInt is a [Z]; a Number inside a JSON value is
    an IEEE 754 double ([Number.t]); a [BigUint64Array] is a [list Z] whose
    stores wrap modulo [2^64];
    [undefined] read from an array is [None]; a thrown exception, or the
    rejection of the promise of an [async] function, is the [Throw] case of
    [Result].  Strings are Rocq [string]s, read as the UTF-8 bytes of a
    well-formed JavaScript string; byte buffers are [list ascii].

    The library functions the code calls are modelled where that is
    feasible (base64, [JSON.stringify] and [JSON.parse] on the texts the
    SDK writes, [split], [join], [sort], [parseInt]) and are parameters
    otherwise: the digest of [crypto.createHash], the bytes of
    [crypto.randomBytes], [pako]'s [gzip] and [ungzip], the HTTP requests
    of [axios] and the clock. *)

From Stdlib Require Import ZArith NArith Lia List Bool Ascii String.
From Stdlib Require Import Decimal DecimalString DecimalZ.
From stdpp Require Import base option list strings gmap sorting.

Import ListNotations.

Local Open Scope Z_scope.

(** ** Exceptions *)

Inductive JsError : Type :=
| TypeError                       (* e.g. mixing BigInt with undefined *)
| RangeError                      (* e.g. BigInt(NaN) *)
| SyntaxError                     (* JSON.parse *)
| Error (message : string)        (* new Error(message) *)
| Unmodelled.
  (* Not a JavaScript exception: the input leaves the fragment of the
     language the embedding covers, and nothing is said about the program
     there. *)

Inductive Result (A : Type) : Type :=
| Ok (a : A)
| Throw (e : JsError).

Arguments Ok {A} a.
Arguments Throw {A} e.

#[global] Instance Result_ret : MRet Result := fun A a => Ok a.

#[global] Instance Result_bind : MBind Result := fun A B k r =>
  match r with
  | Ok a => k a
  | Throw e => Throw e
  end.

(** ** Bytes *)

(** The value [0 .. 255] of a byte, and the byte of a value (its low eight
    bits, as a store into a [Uint8Array] keeps them). *)
Definition byte_val (a : ascii) : Z := Z.of_N (N_of_ascii a).
Definition byte_of (z : Z) : ascii := ascii_of_N (Z.to_N (z mod 256)).

(** ** Base64 (RFC 4648)

    [jose.base64url.encode] is the URL-safe alphabet without padding;
    [btoa] is the standard alphabet with padding. *)

Module Base64.

Definition std : string :=
  "ABCDEFGHIJKLMNOPQRSTUVWXYZabcdefghijklmnopqrstuvwxyz0123456789+/".
Definition url : string :=
  "ABCDEFGHIJKLMNOPQRSTUVWXYZabcdefghijklmnopqrstuvwxyz0123456789-_".

Definition pad_char : ascii := "="%char.

(** The character of a six-bit value. *)
Definition char_of (alphabet : string) (n : Z) : ascii :=
  match String.get (Z.to_nat n) alphabet with
  | Some c => c
  | None => pad_char
  end.

(** Three bytes give four characters; a final group of one or two bytes
    gives two or three characters and, if [pad], [=] up to four. *)
Fixpoint encode (alphabet : string) (pad : bool) (bs : list ascii) : string :=
  match bs with
  | [] => EmptyString
  | [x] =>
      let a := byte_val x in
      String (char_of alphabet (a / 4))
        (String (char_of alphabet (a mod 4 * 16))
           (if pad then String pad_char (String pad_char EmptyString)
            else EmptyString))
  | [x; y] =>
      let a := byte_val x in
      let b := byte_val y in
      String (char_of alphabet (a / 4))
        (String (char_of alphabet (a mod 4 * 16 + b / 16))
           (String (char_of alphabet (b mod 16 * 4))
              (if pad then String pad_char EmptyString else EmptyString)))
  | x :: y :: z :: rest =>
      let a := byte_val x in
      let b := byte_val y in
      let c := byte_val z in
      String (char_of alphabet (a / 4))
        (String (char_of alphabet (a mod 4 * 16 + b / 16))
           (String (char_of alphabet (b mod 16 * 4 + c / 64))
              (String (char_of alphabet (c mod 64))
                 (encode alphabet pad rest))))
  end.

(** The six-bit value of a character of either alphabet. *)
Definition value_of (c : ascii) : option Z :=
  let n := byte_val c in
  if (65 <=? n) && (n <=? 90) then Some (n - 65)
  else if (97 <=? n) && (n <=? 122) then Some (n - 71)
  else if (48 <=? n) && (n <=? 57) then Some (n + 4)
  else if (n =? 43) || (n =? 45) then Some 62
  else if (n =? 47) || (n =? 95) then Some 63
  else None.

(** Node's [Buffer.from(s, 'base64')] never throws: it accepts both
    alphabets, skips any other character and stops at the first [=]. *)
Fixpoint sextets (s : string) : list Z :=
  match s with
  | EmptyString => []
  | String c r =>
      if Ascii.eqb c pad_char then []
      else match value_of c with
           | Some v => v :: sextets r
           | None => sextets r
           end
  end.

Fixpoint bytes_of (l : list Z) : list ascii :=
  match l with
  | s1 :: s2 :: s3 :: s4 :: rest =>
      byte_of (s1 * 4 + s2 / 16)
        :: byte_of (s2 mod 16 * 16 + s3 / 4)
        :: byte_of (s3 mod 4 * 64 + s4)
        :: bytes_of rest
  | [s1; s2; s3] =>
      [byte_of (s1 * 4 + s2 / 16); byte_of (s2 mod 16 * 16 + s3 / 4)]
  | [s1; s2] => [byte_of (s1 * 4 + s2 / 16)]
  | _ => []
  end.

Definition decode (s : string) : list ascii := bytes_of (sextets s).

End Base64.

(** [jose.base64url.encode(bytes)] and [jose.base64url.decode(s)]. *)
Definition base64url_encode (bs : list ascii) : string :=
  Base64.encode Base64.url false bs.
Definition base64url_decode (s : string) : list ascii := Base64.decode s.

(** [btoa(String.fromCharCode.apply(null, bytes))] and
    [Buffer.from(s, "base64")]. *)
Definition btoa (bs : list ascii) : string := Base64.encode Base64.std true bs.
Definition Buffer_from_base64 (s : string) : list ascii := Base64.decode s.

(** A JavaScript string as bytes ([TextEncoder], UTF-8) and bytes as a
    string ([Buffer.toString()], UTF-8): with strings read as their UTF-8
    bytes both are the identity on the byte sequence.  On bytes that are
    not UTF-8, which encoding a string never gives, [Buffer.toString()]
    puts U+FFFD where [utf8_decode] keeps the bytes. *)
Definition utf8_encode (s : string) : list ascii := list_ascii_of_string s.
Definition utf8_decode (bs : list ascii) : string := string_of_list_ascii bs.

(** ** RevocationList *)

Module RevocationList.

Definition SIZE : Z := 2000.
Definition SIZE_PER_INDEX : Z := 64.

(** The object has the single field [bitArray : BigUint64Array]. *)
Record t : Type := mk { bitArray : list Z }.

(** [new RevocationList()]: [new BigUint64Array(SIZE)], all zero. *)
Definition new : t := mk (repeat 0 (Z.to_nat SIZE)).

(** Every element of a [BigUint64Array] is an unsigned 64-bit integer. *)
Definition word_ok (w : Z) : Prop := 0 <= w < 2 ^ 64.

(** The list the constructor builds: [SIZE] unsigned words. *)
Definition wf (L : t) : Prop :=
  length (bitArray L) = Z.to_nat SIZE /\ Forall word_ok (bitArray L).

(** [a[i]] on a typed array: [undefined] outside [0 .. length-1]. *)
Definition typed_get (a : list Z) (i : Z) : option Z :=
  if 0 <=? i then a !! Z.to_nat i else None.

(** [a[i] = v] on a [BigUint64Array]: the store keeps [v mod 2^64] and is
    ignored outside [0 .. length-1]. *)
Definition typed_set (a : list Z) (i : Z) (v : Z) : list Z :=
  if 0 <=? i then <[Z.to_nat i := v mod 2 ^ 64]> a else a.

Record BitArrayValues : Type :=
  { arrayValue : option Z; mask : Z; arrayIndex : Z }.

(** [Math.floor(index / 64)] is [Z.div] (floor), [index % 64] is [Z.rem]
    (sign of the dividend), and [BigInt(1) << BigInt(b)] is [Z.shiftl],
    which like the BigInt operator shifts right for a negative [b]. *)
Definition getBitArrayValues (L : t) (index : Z) : BitArrayValues :=
  let arrayIndex := SIZE - 1 - index / SIZE_PER_INDEX in
  let arrayValue := typed_get (bitArray L) arrayIndex in
  let bitIndex := Z.rem index SIZE_PER_INDEX in
  let mask := Z.shiftl 1 bitIndex in
  {| arrayValue := arrayValue; mask := mask; arrayIndex := arrayIndex |}.

(** [x & y] and [x | y] where [y] is a BigInt and [x] a BigInt or
    [undefined]: mixing the two throws a [TypeError]. *)
Definition bigint_and (x : option Z) (y : Z) : Result Z :=
  match x with
  | Some v => Ok (Z.land v y)
  | None => Throw TypeError
  end.

Definition bigint_or (x : option Z) (y : Z) : Result Z :=
  match x with
  | Some v => Ok (Z.lor v y)
  | None => Throw TypeError
  end.

Definition getCredentialStatus (L : t) (index : Z) : Result bool :=
  let bitArrayValues := getBitArrayValues L index in
  v ← bigint_and (arrayValue bitArrayValues) (mask bitArrayValues);
  Ok (v =? mask bitArrayValues).

Definition out_of_range : JsError :=
  Error "[Revocation error] - index out of range".

(** The method mutates [this.bitArray]; the embedding returns the list
    after the call, or the exception (the list is then as before). *)
Definition revokeCredential (L : t) (index : Z) : Result t :=
  if index >? SIZE * SIZE_PER_INDEX then Throw out_of_range
  else if index <? 0 then Throw out_of_range
  else
    let bitArrayValues := getBitArrayValues L index in
    newArrayValue ←
      bigint_or (arrayValue bitArrayValues) (mask bitArrayValues);
    Ok (mk (typed_set (bitArray L) (arrayIndex bitArrayValues) newArrayValue)).

(** *** Serialization *)

(** [bitArray.buffer] lays each word out in the byte order of the host,
    and [new BigUint64Array(buffer)] reads it back in the same order. *)
Inductive Endianness : Type := LittleEndian | BigEndian.

Definition word_bytes_le (w : Z) : list ascii :=
  [byte_of w; byte_of (w / 2 ^ 8); byte_of (w / 2 ^ 16);
   byte_of (w / 2 ^ 24); byte_of (w / 2 ^ 32); byte_of (w / 2 ^ 40);
   byte_of (w / 2 ^ 48); byte_of (w / 2 ^ 56)].

Definition word_of_bytes_le (bs : list ascii) : Z :=
  foldr (fun b acc => byte_val b + 256 * acc) 0 bs.

Definition word_bytes (host : Endianness) (w : Z) : list ascii :=
  match host with
  | LittleEndian => word_bytes_le w
  | BigEndian => rev (word_bytes_le w)
  end.

Definition word_of_bytes (host : Endianness) (bs : list ascii) : Z :=
  match host with
  | LittleEndian => word_of_bytes_le bs
  | BigEndian => word_of_bytes_le (rev bs)
  end.

Definition buffer (host : Endianness) (a : list Z) : list ascii :=
  flat_map (word_bytes host) a.

(** [new BigUint64Array(buffer)]: a [RangeError] ([None]) unless the
    byte length is a multiple of 8. *)
Fixpoint words (host : Endianness) (bs : list ascii) : option (list Z) :=
  match bs with
  | [] => Some []
  | b0 :: b1 :: b2 :: b3 :: b4 :: b5 :: b6 :: b7 :: rest =>
      match words host rest with
      | Some ws =>
          Some (word_of_bytes host [b0; b1; b2; b3; b4; b5; b6; b7] :: ws)
      | None => None
      end
  | _ => None
  end.

Section Serialization.

Variable host : Endianness.

(** [pako.gzip] and [pako.ungzip]; the latter throws on input that is
    not a gzip stream. *)
Variable gzip : list ascii -> list ascii.
Variable ungzip : list ascii -> Result (list ascii).

(** Both methods are [async]: [Throw] is a rejected promise. *)
Definition parse (input : string) : Result t :=
  let original_str := Buffer_from_base64 input in
  originalText ← ungzip original_str;
  match words host originalText with
  | Some ws => Ok (mk ws)
  | None => Throw RangeError
  end.

Definition stringify (input : t) : string :=
  let new_str := gzip (buffer host (bitArray input)) in
  let b64encoded_string := btoa new_str in
  b64encoded_string.

End Serialization.

End RevocationList.


(** ** Numbers

    A Number is an IEEE 754 binary64 value: [Finite s m e] is
    [(-1)^s * m * 2^e].  The doubles are the values with [m < 2^53] and
    [-1074 <= e <= 971] whose mantissa has 53 bits unless [e = -1074]
    ([canonical]); the functions below are defined on every mantissa and
    exponent. *)

Module Number.

Inductive t : Type :=
| NaN
| Infinity (negative : bool)
| Zero (negative : bool)
| Finite (negative : bool) (m : positive) (e : Z).

#[global] Instance eq_dec : EqDecision t.
Proof. solve_decision. Defined.

Definition canonical (m : positive) (e : Z) : bool :=
  (Z.pos m <? 2 ^ 53) && (-1074 <=? e) && (e <=? 971)
  && ((2 ^ 52 <=? Z.pos m) || (e =? -1074)).

Definition is_double (x : t) : bool :=
  match x with
  | Finite _ m e => canonical m e
  | NaN | Infinity _ | Zero _ => true
  end.

Definition is_finite (x : t) : bool :=
  match x with
  | Zero _ | Finite _ _ _ => true
  | NaN | Infinity _ => false
  end.

(** [x === y] on Numbers: [NaN] equals nothing, the two zeros are
    equal. *)
Definition equal (x y : t) : bool :=
  match x, y with
  | NaN, _ | _, NaN => false
  | Zero _, Zero _ => true
  | _, _ => bool_decide (x = y)
  end.

(** [2^t <= p/q], for positive [p] and [q] and any integer [t]. *)
Definition ge_pow2 (p q t : Z) : bool :=
  q * 2 ^ Z.max t 0 <=? p * 2 ^ Z.max (- t) 0.

(** The [e] with [2^(e+52) <= p/q < 2^(e+53)]. *)
Definition exponent (p q : Z) : Z :=
  let d := Z.log2 p - Z.log2 q in
  if ge_pow2 p q d then d - 52 else d - 53.

(** The Number value of the positive rational [p/q]: the nearest double,
    the one with an even mantissa when two are equally near, [Infinity]
    from [2^1024 - 2^970] on. *)
Definition round (negative : bool) (p q : Z) : t :=
  let e := Z.max (exponent p q) (-1074) in
  let num := p * 2 ^ Z.max (- e) 0 in
  let den := q * 2 ^ Z.max e 0 in
  let m := num / den in
  let r := num mod den in
  let m' :=
    match 2 * r ?= den with
    | Lt => m
    | Gt => m + 1
    | Eq => if Z.even m then m else m + 1
    end in
  if m' =? 0 then Zero negative
  else
    let '(m'', e'') := if m' =? 2 ^ 53 then (2 ^ 52, e + 1) else (m', e) in
    if 971 <? e'' then Infinity negative
    else Finite negative (Z.to_pos m'') e''.

(** The Number value of the decimal [s * 10^d], [0 <= s]: what a numeric
    literal with digits [s] and decimal exponent [d] denotes. *)
Definition of_decimal (negative : bool) (s d : Z) : t :=
  if s =? 0 then Zero negative
  else round negative (s * 10 ^ Z.max d 0) (10 ^ Z.max (- d) 0).

(** [m * 2^e] written out in full as a decimal. *)
Definition exact_decimal (m : positive) (e : Z) : Z * Z :=
  if 0 <=? e then (Z.pos m * 2 ^ e, 0) else (Z.pos m * 5 ^ (- e), e).

Fixpoint count_digits (fuel : nat) (z : Z) : Z :=
  match fuel with
  | O => 1
  | S fuel' => if z <? 10 then 1 else 1 + count_digits fuel' (z / 10)
  end.

Fixpoint leading_zeros (fuel : nat) (p q : Z) : Z :=
  match fuel with
  | O => 0
  | S fuel' => if q <=? p then 0 else 1 + leading_zeros fuel' (p * 10) q
  end.

(** The [n] with [10^(n-1) <= p/q < 10^n]. *)
Definition magnitude (p q : Z) : Z :=
  if q <=? p then count_digits (Z.to_nat (Z.log2 p) + 1) (p / q)
  else - leading_zeros (Z.to_nat (Z.log2 q) + 1) (p * 10) q.

(** The decimal of [k] digits for [m * 2^e], if there is one whose
    Number value is [m * 2^e]: of the two [k]-digit decimals around the
    value, the nearer one that qualifies, the even one when both are
    equally near.  The result is [(s, d)] for [s * 10^d]. *)
Definition candidate (m : positive) (e : Z) (n k : Z) : option (Z * Z) :=
  let p := Z.pos m * 2 ^ Z.max e 0 in
  let q := 2 ^ Z.max (- e) 0 in
  let tn := p * 10 ^ Z.max (k - n) 0 in
  let td := q * 10 ^ Z.max (n - k) 0 in
  let lo := tn / td in
  let r := tn mod td in
  let norm s := if s =? 10 ^ k then (1, n) else (s, n - k) in
  let ok s :=
    bool_decide (of_decimal false (norm s).1 (norm s).2 = Finite false m e) in
  let lo_ok := (10 ^ (k - 1) <=? lo) && ok lo in
  let hi_ok := ok (lo + 1) in
  let prefer_lo :=
    match 2 * r ?= td with
    | Lt => true
    | Gt => false
    | Eq => Z.even lo
    end in
  if lo_ok && hi_ok then Some (norm (if prefer_lo then lo else lo + 1))
  else if lo_ok then Some (norm lo)
  else if hi_ok then Some (norm (lo + 1))
  else None.

(** The digits of [Number::toString]: the decimal with the fewest
    digits whose Number value is the given one.  Seventeen digits are
    enough for a double; the full expansion stands at the end so that the
    function is defined on every mantissa and exponent. *)
Fixpoint shortest (fuel : nat) (m : positive) (e : Z) (n k : Z) : Z * Z :=
  match fuel with
  | O => exact_decimal m e
  | S fuel' =>
      match candidate m e n k with
      | Some sd => sd
      | None => shortest fuel' m e n (k + 1)
      end
  end.

Definition to_decimal (m : positive) (e : Z) : Z * Z :=
  let p := Z.pos m * 2 ^ Z.max e 0 in
  let q := 2 ^ Z.max (- e) 0 in
  shortest 17 m e (magnitude p q) 1.

End Number.

(** ** JSON

    [JSON.stringify] and [JSON.parse] on primitives and arrays.  An object
    literal and a [\u] escape above U+007F are outside the modelled fragment
    of [JSON.parse], which answers [Unmodelled] when it meets one;
    [SyntaxError] is answered only where the text is not JSON. *)

#[local] Set Warnings "-register-all".

Inductive JsValue : Type :=
| JNull
| JBool (b : bool)
| JNumber (x : Number.t)
| JString (s : string)
| JArray (items : list JsValue)
| JObject (fields : list (string * JsValue)).

(** The [typeof] operator: [null], arrays and objects all answer
    ["object"]. *)
Definition typeof (v : JsValue) : string :=
  match v with
  | JNull => "object"
  | JBool _ => "boolean"
  | JNumber _ => "number"
  | JString _ => "string"
  | JArray _ => "object"
  | JObject _ => "object"
  end.

(** The JSON primitives of the specification. *)
Definition is_primitive (v : JsValue) : bool :=
  match v with
  | JNull | JBool _ | JNumber _ | JString _ => true
  | JArray _ | JObject _ => false
  end.

(** The primitives of JSON: [null], the booleans, the strings and the
    finite doubles. *)
Definition is_json (v : JsValue) : bool :=
  match v with
  | JNull | JBool _ | JString _ => true
  | JNumber x => Number.is_finite x && Number.is_double x
  | JArray _ | JObject _ => false
  end.

(** The JSON primitives that [JSON.stringify] tells apart: all but [-0],
    which it writes as [0]. *)
Definition json_exact (v : JsValue) : bool :=
  match v with
  | JNumber (Number.Zero true) => false
  | _ => is_json v
  end.

(** [v === w] on primitives. *)
Definition strict_equals (v w : JsValue) : bool :=
  match v, w with
  | JNull, JNull => true
  | JBool a, JBool b => Bool.eqb a b
  | JNumber x, JNumber y => Number.equal x y
  | JString s, JString t => String.eqb s t
  | _, _ => false
  end.

Module JSON.

Definition dquote : ascii := "034"%char.
Definition backslash : ascii := "092"%char.

Definition hex_digit (n : Z) : ascii :=
  if n <? 10 then byte_of (48 + n) else byte_of (87 + n).

(** [QuoteJSONString]: the two-character escapes, [\u00xx] for the other
    control characters, every other character as it is. *)
Definition quote_char (c : ascii) : string :=
  let n := byte_val c in
  if n =? 8 then String backslash "b"
  else if n =? 9 then String backslash "t"
  else if n =? 10 then String backslash "n"
  else if n =? 12 then String backslash "f"
  else if n =? 13 then String backslash "r"
  else if n =? 34 then String backslash (String dquote EmptyString)
  else if n =? 92 then String backslash (String backslash EmptyString)
  else if n <? 32 then
    String backslash
      (String "u" (String "0" (String "0"
         (String (hex_digit (n / 16))
            (String (hex_digit (n mod 16)) EmptyString)))))
  else String c EmptyString.

Fixpoint quote_body (s : string) : string :=
  match s with
  | EmptyString => EmptyString
  | String c r => quote_char c +:+ quote_body r
  end.

Definition quote (s : string) : string :=
  String dquote (quote_body s +:+ String dquote EmptyString).

(** The decimal numeral of an integer: its digits, [-] before them when
    it is negative. *)
Definition number_to_string (n : Z) : string :=
  NilZero.string_of_int (Z.to_int n).

Fixpoint zeros (n : nat) : string :=
  match n with
  | O => EmptyString
  | S n' => String "0" (zeros n')
  end.

Fixpoint take (n : nat) (s : string) : string :=
  match n, s with
  | S n', String c r => String c (take n' r)
  | _, _ => EmptyString
  end.

Fixpoint drop (n : nat) (s : string) : string :=
  match n, s with
  | S n', String _ r => drop n' r
  | _, _ => s
  end.

(** [Number::toString] for the decimal [s * 10^d] with digits [s] of
    length [k] and [n = k + d]: plain digits up to [10^21], a fraction down
    to [10^-7], exponent notation elsewhere. *)
Definition format_decimal (s d : Z) : string :=
  let digits := number_to_string s in
  let k := Z.of_nat (String.length digits) in
  let n := k + d in
  if (k <=? n) && (n <=? 21) then digits +:+ zeros (Z.to_nat (n - k))
  else if (0 <? n) && (n <=? 21) then
    take (Z.to_nat n) digits +:+ "." +:+ drop (Z.to_nat n) digits
  else if (-6 <? n) && (n <=? 0) then
    "0." +:+ zeros (Z.to_nat (- n)) +:+ digits
  else
    let exp :=
      "e" +:+ (if 0 <? n - 1 then "+" else "-")
      +:+ number_to_string (Z.abs (n - 1)) in
    if k =? 1 then digits +:+ exp
    else take 1 digits +:+ "." +:+ drop 1 digits +:+ exp.

Definition Number_toString (x : Number.t) : string :=
  match x with
  | Number.NaN => "NaN"
  | Number.Infinity negative =>
      (if negative then "-" else EmptyString) +:+ "Infinity"
  | Number.Zero _ => "0"
  | Number.Finite negative m e =>
      let '(s, d) := Number.to_decimal m e in
      (if negative then "-" else EmptyString) +:+ format_decimal s d
  end.

Definition join (sep : string) (l : list string) : string :=
  String.concat sep l.

Fixpoint stringify (v : JsValue) : string :=
  match v with
  | JNull => "null"
  | JBool true => "true"
  | JBool false => "false"
  | JNumber x => if Number.is_finite x then Number_toString x else "null"
  | JString s => quote s
  | JArray items => "[" +:+ join "," (map stringify items) +:+ "]"
  | JObject fields =>
      "{" +:+
        join ","
          (map (fun kv => quote (fst kv) +:+ ":" +:+ stringify (snd kv))
             fields)
      +:+ "}"
  end.

(** *** Parsing *)

Definition is_ws (c : ascii) : bool :=
  let n := byte_val c in
  (n =? 32) || (n =? 9) || (n =? 10) || (n =? 13).

Fixpoint skip_ws (s : string) : string :=
  match s with
  | String c r => if is_ws c then skip_ws r else s
  | EmptyString => EmptyString
  end.

Definition is_digit (c : ascii) : bool :=
  let n := byte_val c in (48 <=? n) && (n <=? 57).

Fixpoint span_digits (s : string) : string * string :=
  match s with
  | String c r =>
      if is_digit c then
        let '(ds, rest) := span_digits r in (String c ds, rest)
      else (EmptyString, s)
  | EmptyString => (EmptyString, EmptyString)
  end.

Definition hex_value (c : ascii) : option Z :=
  let n := byte_val c in
  if (48 <=? n) && (n <=? 57) then Some (n - 48)
  else if (97 <=? n) && (n <=? 102) then Some (n - 87)
  else if (65 <=? n) && (n <=? 70) then Some (n - 55)
  else None.

Definition cons_char (c : ascii) (r : Result (string * string))
  : Result (string * string) :=
  match r with
  | Ok (str, rest) => Ok (String c str, rest)
  | Throw e => Throw e
  end.

(** The characters of a string literal after its opening quote, up to
    and including the closing quote. *)
Fixpoint parse_string_body (s : string) : Result (string * string) :=
  match s with
  | EmptyString => Throw SyntaxError
  | String c r =>
      if Ascii.eqb c dquote then Ok (EmptyString, r)
      else if Ascii.eqb c backslash then
        match r with
        | String e r1 =>
            if Ascii.eqb e dquote then cons_char dquote (parse_string_body r1)
            else if Ascii.eqb e backslash then
              cons_char backslash (parse_string_body r1)
            else if Ascii.eqb e "/" then cons_char "/" (parse_string_body r1)
            else if Ascii.eqb e "b" then
              cons_char "008" (parse_string_body r1)
            else if Ascii.eqb e "f" then
              cons_char "012" (parse_string_body r1)
            else if Ascii.eqb e "n" then
              cons_char "010" (parse_string_body r1)
            else if Ascii.eqb e "r" then
              cons_char "013" (parse_string_body r1)
            else if Ascii.eqb e "t" then
              cons_char "009" (parse_string_body r1)
            else if Ascii.eqb e "u" then
              match r1 with
              | String h1 (String h2 (String h3 (String h4 r2))) =>
                  match hex_value h1, hex_value h2, hex_value h3, hex_value h4
                  with
                  | Some a, Some b, Some c, Some d =>
                      let code := ((a * 16 + b) * 16 + c) * 16 + d in
                      if code <? 128 then
                        cons_char (byte_of code) (parse_string_body r2)
                      else Throw Unmodelled
                  | _, _, _, _ => Throw SyntaxError
                  end
              | _ => Throw SyntaxError
              end
            else Throw SyntaxError
        | EmptyString => Throw SyntaxError
        end
      else if byte_val c <? 32 then Throw SyntaxError
      else cons_char c (parse_string_body r)
  end.

Fixpoint digits_value (acc : Z) (s : string) : Z :=
  match s with
  | EmptyString => acc
  | String c r => digits_value (10 * acc + (byte_val c - 48)) r
  end.

(** The fraction of a numeral: [.] and at least one digit, or nothing. *)
Definition parse_fraction (s : string) : Result (string * string) :=
  match s with
  | String c r =>
      if Ascii.eqb c "." then
        let '(ds, rest) := span_digits r in
        match ds with
        | EmptyString => Throw SyntaxError
        | String _ _ => Ok (ds, rest)
        end
      else Ok (EmptyString, s)
  | EmptyString => Ok (EmptyString, s)
  end.

(** The exponent of a numeral: [e] or [E], an optional sign and at least
    one digit, or nothing. *)
Definition parse_exponent (s : string) : Result (Z * string) :=
  match s with
  | String c r =>
      if Ascii.eqb c "e" || Ascii.eqb c "E" then
        let '(negative, r1) :=
          match r with
          | String sign r' =>
              if Ascii.eqb sign "-" then (true, r')
              else if Ascii.eqb sign "+" then (false, r')
              else (false, r)
          | EmptyString => (false, r)
          end in
        let '(ds, rest) := span_digits r1 in
        match ds with
        | EmptyString => Throw SyntaxError
        | String _ _ =>
            Ok (if negative then - digits_value 0 ds else digits_value 0 ds,
                rest)
        end
      else Ok (0, s)
  | EmptyString => Ok (0, s)
  end.

(** A numeral: an optional [-], then [0] or a digit string without a
    leading zero, then an optional fraction and an optional exponent.  Its
    value is the Number value of the decimal it writes. *)
Definition parse_number (s : string) : Result (Number.t * string) :=
  let '(negative, s1) :=
    match s with
    | String c r => if Ascii.eqb c "-" then (true, r) else (false, s)
    | EmptyString => (false, s)
    end in
  let '(ds, rest) := span_digits s1 in
  match ds with
  | EmptyString => Throw SyntaxError
  | String c more =>
      if Ascii.eqb c "0" && negb (String.eqb more EmptyString) then
        Throw SyntaxError
      else
        fraction ← parse_fraction rest;
        exp ← parse_exponent fraction.2;
        Ok (Number.of_decimal negative
              (digits_value 0 (ds +:+ fraction.1))
              (exp.1 - Z.of_nat (String.length fraction.1)),
            exp.2)
  end.

Fixpoint strip_prefix (word s : string) : option string :=
  match word with
  | EmptyString => Some s
  | String c w =>
      match s with
      | String d r => if Ascii.eqb c d then strip_prefix w r else None
      | EmptyString => None
      end
  end.

Definition expect (word : string) (v : JsValue) (s : string)
  : Result (JsValue * string) :=
  match strip_prefix word s with
  | Some rest => Ok (v, rest)
  | None => Throw SyntaxError
  end.

(** [fuel] bounds the nesting and the number of elements; [parse] gives
    more than the length of the text. *)
Fixpoint parse_value (fuel : nat) (s : string)
  : Result (JsValue * string) :=
  match fuel with
  | O => Throw Unmodelled
  | S fuel' =>
      match skip_ws s with
      | EmptyString => Throw SyntaxError
      | String c r =>
          if Ascii.eqb c "n" then expect "null" JNull (String c r)
          else if Ascii.eqb c "t" then expect "true" (JBool true) (String c r)
          else if Ascii.eqb c "f" then
            expect "false" (JBool false) (String c r)
          else if Ascii.eqb c dquote then
            match parse_string_body r with
            | Ok (str, rest) => Ok (JString str, rest)
            | Throw e => Throw e
            end
          else if Ascii.eqb c "[" then
            match skip_ws r with
            | String c1 r1 =>
                if Ascii.eqb c1 "]" then Ok (JArray [], r1)
                else
                  match parse_elements fuel' r with
                  | Ok (items, rest) => Ok (JArray items, rest)
                  | Throw e => Throw e
                  end
            | EmptyString => Throw SyntaxError
            end
          else if Ascii.eqb c "{" then Throw Unmodelled
          else
            match parse_number (String c r) with
            | Ok (x, rest) => Ok (JNumber x, rest)
            | Throw e => Throw e
            end
      end
  end
with parse_elements (fuel : nat) (s : string)
  : Result (list JsValue * string) :=
  match fuel with
  | O => Throw Unmodelled
  | S fuel' =>
      match parse_value fuel' s with
      | Ok (v, r) =>
          match skip_ws r with
          | String c r1 =>
              if Ascii.eqb c "," then
                match parse_elements fuel' r1 with
                | Ok (vs, rest) => Ok (v :: vs, rest)
                | Throw e => Throw e
                end
              else if Ascii.eqb c "]" then Ok ([v], r1)
              else Throw SyntaxError
          | EmptyString => Throw SyntaxError
          end
      | Throw e => Throw e
      end
  end.

(** [JSON.parse]: one value, then only white space. *)
Definition parse (s : string) : Result JsValue :=
  match parse_value (S (String.length s)) s with
  | Ok (v, rest) =>
      match skip_ws rest with
      | EmptyString => Ok v
      | String _ _ => Throw SyntaxError
      end
  | Throw e => Throw e
  end.

(** What [parse] reads from the text that [stringify] writes for a
    primitive: [null] for [NaN] and the infinities, the Number value of the
    digits written for a finite Number, the value itself otherwise. *)
Definition reread (v : JsValue) : JsValue :=
  match v with
  | JNumber (Number.Finite negative m e) =>
      JNumber
        (Number.of_decimal negative
           (Number.to_decimal m e).1 (Number.to_decimal m e).2)
  | JNumber (Number.Zero _) => JNumber (Number.Zero false)
  | JNumber (Number.NaN | Number.Infinity _) => JNull
  | JNull | JBool _ | JString _ | JArray _ | JObject _ => v
  end.

End JSON.

(** ** Strings: [split], [join], [replace], [toLowerCase] *)

(** [s.split(sep)] for a one-character separator: never empty. *)
Fixpoint split (sep : ascii) (s : string) : list string :=
  match s with
  | EmptyString => [EmptyString]
  | String c r =>
      if Ascii.eqb c sep then EmptyString :: split sep r
      else
        match split sep r with
        | h :: t => String c h :: t
        | [] => [String c EmptyString]
        end
  end.

(** [l.join(sep)]. *)
Definition join (sep : string) (l : list string) : string :=
  String.concat sep l.

(** [s.replace(c, '')] with a one-character pattern: the first occurrence
    only. *)
Fixpoint remove_first (c : ascii) (s : string) : string :=
  match s with
  | EmptyString => EmptyString
  | String d r => if Ascii.eqb c d then r else String d (remove_first c r)
  end.

(** [s.toLowerCase()] on the bytes of an ASCII string, which the names of
    algorithms are: [A]-[Z] become [a]-[z].  The bytes of other characters
    are left as they are, where the method lowers the cased letters among
    them; the statements about [toLowerCase] are about ASCII strings. *)
Definition lower_char (c : ascii) : ascii :=
  let n := byte_val c in
  if (65 <=? n) && (n <=? 90) then byte_of (n + 32) else c.

Fixpoint toLowerCase (s : string) : string :=
  match s with
  | EmptyString => EmptyString
  | String c r => String (lower_char c) (toLowerCase r)
  end.

(** ** Selective disclosure *)

Module DisclosureArray.
Definition SALT : nat := 0.
Definition NAME : nat := 1.
Definition VALUE : nat := 2.
End DisclosureArray.

Definition SALT_BYTE_SIZE : nat := 128 / 8.

Definition encodeDisclosure (disclosureArray : list JsValue) : string :=
  base64url_encode (utf8_encode (JSON.stringify (JArray disclosureArray))).

Definition is_ascii (s : string) : bool :=
  forallb (fun c => byte_val c <? 128) (list_ascii_of_string s).

(** [v.length]: a number, [undefined] ([None]), or a [TypeError] on
    [null].  The length of a string counts UTF-16 units, which are the
    bytes when the string is ASCII.  [JSON.parse] above yields no object. *)
Definition js_length (v : JsValue) : Result (option Z) :=
  match v with
  | JNull => Throw TypeError
  | JBool _ | JNumber _ => Ok None
  | JString s =>
      if is_ascii s then Ok (Some (Z.of_nat (String.length s)))
      else Throw Unmodelled
  | JArray items => Ok (Some (Z.of_nat (length items)))
  | JObject _ => Throw Unmodelled
  end.

(** The declared result type [string[]] is not checked at run time: any
    parsed value whose [length] is 3 is returned. *)
Definition parseDisclosure (disclosure : string) : Result JsValue :=
  let input := base64url_decode disclosure in
  let inputJSONString := utf8_decode input in
  parsed ← JSON.parse inputJSONString;
  len ← js_length parsed;
  match len with
  | Some 3 => Ok parsed
  | _ => Throw (Error ("can't parse disclosure: " +:+ disclosure))
  end.

(** [v[i]]: an element of an array, a one-character string of an (ASCII)
    string, [undefined] otherwise. *)
Definition js_index (v : JsValue) (i : nat) : option JsValue :=
  match v with
  | JArray items => items !! i
  | JString s =>
      match String.get i s with
      | Some c => Some (JString (String c EmptyString))
      | None => None
      end
  | _ => None
  end.

(** [claims.includes(x)] for an array of strings [claims]. *)
Definition includes (claims : list string) (x : option JsValue) : bool :=
  match x with
  | Some (JString name) => bool_decide (name ∈ claims)
  | _ => false
  end.

(** [disclosures.filter(d => claims.includes(parseDisclosure(d)[NAME]))]:
    the callback runs on the elements in order and the first exception
    ends the call. *)
Fixpoint filter_disclosures (claims : list string) (disclosures : list string)
  : Result (list string) :=
  match disclosures with
  | [] => Ok []
  | disclosure :: rest =>
      parsed ← parseDisclosure disclosure;
      kept ← filter_disclosures claims rest;
      Ok (if includes claims (js_index parsed DisclosureArray.NAME)
          then disclosure :: kept else kept)
  end.

(** The function is [async]: [Throw] is the rejection of its promise. *)
Definition discloseClaims (sdJwt : string) (claims : list string)
  : Result string :=
  let parts := split "~" sdJwt in
  if (length parts <=? 1)%nat then
    Throw (Error "No Disclosures found in SD-JWT")
  else
    let JWS := hd EmptyString parts in
    disclosures ← filter_disclosures claims (tail parts);
    Ok (JWS +:+ ("~" +:+ join "~" disclosures)).

(** The part of a JWT credential payload the code touches is
    [target.vc.credentialSubject], a JavaScript object used as a map from
    property names to values; the other members are carried along.

    [frozen] names the properties of [credentialSubject] that are
    non-writable and non-configurable, which is how [Object.defineProperty]
    creates a property; every other property is an ordinary one (writable,
    configurable and enumerable), as those of an object literal or of a
    decoded JSON text are. *)
Record Vc : Type := mkVc
  { credentialSubject : gmap string JsValue;
    vc_members : gmap string JsValue;
    frozen : gset string }.

Record JwtCredentialPayload : Type := mkPayload
  { vc : Vc;
    jwt_members : gmap string JsValue }.

(** [delete obj[key]] in strict-mode code, which the code of a module
    is: a [TypeError] on a non-configurable property. *)
Definition delete_property (frozen : gset string)
    (obj : gmap string JsValue) (key : string)
  : Result (gmap string JsValue) :=
  if bool_decide (key ∈ frozen) then Throw TypeError
  else Ok (delete key obj).

Fixpoint removeKeysFromObject (frozen : gset string)
    (obj : gmap string JsValue) (keysToRemove : list string)
  : Result (gmap string JsValue) :=
  match keysToRemove with
  | [] => Ok obj
  | key :: rest =>
      obj' ← delete_property frozen obj key;
      removeKeysFromObject frozen obj' rest
  end.

(** [Object.defineProperty(obj, key, {value, enumerable: true})] with a
    fresh [value].  A property that is missing is created non-writable and
    non-configurable; an ordinary one takes the value and stays ordinary; a
    frozen one cannot take another value, which is a [TypeError].  The
    result is the object and its frozen names. *)
Definition defineProperty (frozen : gset string)
    (obj : gmap string JsValue) (key : string) (value : JsValue)
  : Result (gmap string JsValue * gset string) :=
  if bool_decide (key ∈ frozen) then Throw TypeError
  else
    Ok (<[key := value]> obj,
        if bool_decide (is_Some (obj !! key)) then frozen
        else {[key]} ∪ frozen).

(** [a.sort()] on strings orders them by their code units; on ASCII
    strings such as base64url digests that is the byte-wise lexicographic
    order [String.le].  A sorted rearrangement under a total order is
    unique, so any sorting algorithm gives the list merge sort gives. *)
Definition sort (l : list string) : list string := merge_sort String.le l.

Definition ianaToCryptoAlg (hashAlg : string) : string :=
  if String.eqb hashAlg "ES256K" then "sha256"
  else if String.eqb hashAlg "EdDSA" then "sha512"
  else toLowerCase (remove_first "-" hashAlg).

Section Issuance.

(** [crypto.createHash(name)]: the digest function of a supported
    algorithm, [None] where Node throws "Digest method not supported". *)
Variable createHash : string -> option (list ascii -> list ascii).

(** [randomBytes k n]: the [n] bytes that the [k]-th call of
    [crypto.randomBytes] in [createDisclosures] returns. *)
Variable randomBytes : nat -> nat -> list ascii.

Definition hashDisclosure (alg : string) (disclosure : string)
  : Result string :=
  match createHash (ianaToCryptoAlg alg) with
  | None => Throw (Error "Digest method not supported")
  | Some hash =>
      let disclosuredigest := hash (utf8_encode disclosure) in
      Ok (base64url_encode disclosuredigest)
  end.

(** The [for] loop of [createDisclosures] from index [i] on, over the
    entries of [claimValues] in [Object.keys] order; it answers
    [_disclosures] and [sdDigests]. *)
Fixpoint disclosure_loop (hashAlg : string) (i : nat)
    (entries : list (string * JsValue))
  : Result (list string * list string) :=
  match entries with
  | [] => Ok ([], [])
  | (name, value) :: rest =>
      if String.eqb (typeof value) "object" then
        Throw (Error "Not yet implemented")
      else
        let disclosureArray :=
          [JString (base64url_encode (randomBytes i SALT_BYTE_SIZE));
           JString name; value] in
        let disclosure := encodeDisclosure disclosureArray in
        disclosureDigest ← hashDisclosure hashAlg disclosure;
        more ← disclosure_loop hashAlg (S i) rest;
        Ok (disclosure :: more.1, disclosureDigest :: more.2)
  end.

(** [claimValues] is given by its entries in [Object.keys] order.  The
    function mutates [target] and returns it with [_disclosures]; nothing
    of [target] is touched before the loop has ended. *)
Definition createDisclosures (hashAlg : string)
    (claimValues : list (string * JsValue)) (target : JwtCredentialPayload)
  : Result (JwtCredentialPayload * list string) :=
  let names := claimValues.*1 in
  out ← disclosure_loop hashAlg 0 claimValues;
  let _disclosures := out.1 in
  let sdDigests := out.2 in
  subject ← removeKeysFromObject (frozen (vc target))
               (credentialSubject (vc target)) names;
  defined ← defineProperty (frozen (vc target)) subject "_sd"
               (JArray (JString <$> sort sdDigests));
  Ok (mkPayload (mkVc defined.1 (vc_members (vc target)) defined.2)
        (jwt_members target),
      _disclosures).

End Issuance.

(** Modelled from the spec: the last step of issuance, done by the JWT
    service's [signSelectiveDisclosure], which is not among the sources:
    "Return [jws ~ D_1 ~ D_2 ~ … ~ D_n]" (section 4.3, step 7). *)
Definition sd_jwt_wire (jws : string) (disclosures : list string) : string :=
  join "~" (jws :: disclosures).

(** ** The issuer's revoke flow *)

(** [parseInt(s)]: leading (ASCII) white space, a sign, [0x] for radix
    16, then the longest run of digits; [None] is [NaN].  The value is
    exact, as the Number is for every integer below [2^53]. *)
Definition is_space (c : ascii) : bool :=
  let n := byte_val c in ((9 <=? n) && (n <=? 13)) || (n =? 32).

Fixpoint trim_start (s : string) : string :=
  match s with
  | String c r => if is_space c then trim_start r else s
  | EmptyString => EmptyString
  end.

Definition digit_value (radix : Z) (c : ascii) : option Z :=
  match JSON.hex_value c with
  | Some d => if d <? radix then Some d else None
  | None => None
  end.

Fixpoint parse_digits (radix : Z) (acc : option Z) (s : string) : option Z :=
  match s with
  | String c r =>
      match digit_value radix c with
      | Some d => parse_digits radix (Some (default 0 acc * radix + d)) r
      | None => acc
      end
  | EmptyString => acc
  end.

Definition parseInt (s : string) : option Z :=
  let s1 := trim_start s in
  let '(sign, s2) :=
    match s1 with
    | String c r =>
        if Ascii.eqb c "-" then (-1, r)
        else if Ascii.eqb c "+" then (1, r) else (1, s1)
    | EmptyString => (1, s1)
    end in
  let '(radix, s3) :=
    match s2 with
    | String c (String x r) =>
        if Ascii.eqb c "0" && (Ascii.eqb x "x" || Ascii.eqb x "X")
        then (16, r) else (10, s2)
    | _ => (10, s2)
    end in
  match parse_digits radix None s3 with
  | Some n => Some (sign * n)
  | None => None
  end.

(** An unsigned credential, as [createCredential] builds it. *)
Record CredentialPayload : Type := mkCredential
  { context : list string;
    subject : gmap string JsValue;
    issuer : string;
    types : list string;
    issuanceDate : string }.

(** [Partial<CredentialPayload>]: the members that are present. *)
Record PartialCredential : Type := mkPartial
  { context' : option (list string);
    subject' : option (gmap string JsValue);
    issuer' : option string;
    types' : option (list string);
    issuanceDate' : option string }.

(** [Object.assign(credential, additionalProperties)]. *)
Definition assign (credential : CredentialPayload)
    (additionalProperties : option PartialCredential) : CredentialPayload :=
  match additionalProperties with
  | None => credential
  | Some p =>
      mkCredential
        (default (context credential) (context' p))
        (default (subject credential) (subject' p))
        (default (issuer credential) (issuer' p))
        (default (types credential) (types' p))
        (default (issuanceDate credential) (issuanceDate' p))
  end.

Module CredentialStatus.
Record t : Type := mk { id : string; type : string }.
End CredentialStatus.

(** [VerifiableCredential] is a JWT string or a credential object, of
    which the flow reads [credentialStatus] only. *)
Inductive VerifiableCredential : Type :=
| VC_JWT (jwt : string)
| VC_W3C (credentialStatus : option CredentialStatus.t).

(** The [credentialSubject] of the status list credential served at
    [{listUrl}/list.json]. *)
Module StatusList.
Record t : Type :=
  mk { id : string; type : string; purpose : string; encodedList : string }.
End StatusList.

Section RevokeFlow.

Variable host : RevocationList.Endianness.
Variable gzip : list ascii -> list ascii.
Variable ungzip : list ascii -> Result (list ascii).

(** Constants of the SDK's [common] module. *)
Variable DEFAULT_CONTEXT : string.
Variable VERIFIABLE_CREDENTIAL : string.

(** [new Date().toISOString()] at whole seconds. *)
Variable now : string.

(** [axios.request] with method [get]: the [credentialSubject] of the
    response, [None] when the request fails or the response lacks it.
    [axios] with method [POST]: whether the request succeeds. *)
Variable http_get : string -> option StatusList.t.
Variable http_post : string -> CredentialPayload -> bool.

Definition createCredential (issuerDID subjectDID : string)
    (credentialSubject : gmap string JsValue) (credentialType : list string)
    (additionalProperties : option PartialCredential) : CredentialPayload :=
  let credential :=
    mkCredential [DEFAULT_CONTEXT]
      (credentialSubject ∪ {["id" := JString subjectDID]})
      issuerDID
      (VERIFIABLE_CREDENTIAL :: credentialType)
      now in
  assign credential additionalProperties.

(** The body of the [then] callback. *)
Definition republish (listUrl : string) (credId : option Z)
    (issuerDID subjectDID : string) (credentialList : StatusList.t)
  : Result bool :=
  list ← RevocationList.parse host ungzip
           (StatusList.encodedList credentialList);
  (* With [credId] [NaN], [BigInt(NaN)] in [getBitArrayValues] throws. *)
  list' ← match credId with
          | Some index => RevocationList.revokeCredential list index
          | None => Throw RangeError
          end;
  let credentialSubject : gmap string JsValue :=
    <["id" := JString (StatusList.id credentialList)]>
      (<["type" := JString (StatusList.type credentialList)]>
         (<["purpose" := JString (StatusList.purpose credentialList)]>
            {["encodedList" :=
                JString (RevocationList.stringify host gzip list')]})) in
  let newCredentialList :=
    createCredential issuerDID subjectDID credentialSubject
      ["StatusList2021"] None in
  if http_post (listUrl +:+ "/statusList") newCredentialList
  then Ok true else Throw (Error "Request failed").

(** What the promise [_result] settles to: [true] from the [then]
    callback, [false] from the [catch] callback. *)
Definition request_chain (listUrl : string) (credId : option Z)
    (issuerDID subjectDID : string) : bool :=
  match http_get (listUrl +:+ "/list.json") with
  | Some credentialList =>
      match republish listUrl credId issuerDID subjectDID credentialList with
      | Ok b => b
      | Throw _ => false
      end
  | None => false
  end.

(** The call returns a boolean at once; when the status entry has the
    expected type it has also started the promise chain, whose eventual
    value [_result] is the second component. *)
Definition revokeCredentialSL21 (vc : VerifiableCredential)
    (issuerDID subjectDID : string) : bool * option bool :=
  let _result :=
    match vc with
    | VC_JWT _ => None
    | VC_W3C credentialStatus =>
        match credentialStatus with
        | Some status =>
            if String.eqb (CredentialStatus.type status) "StatusList2021Entry"
            then
              let listUrl :=
                hd EmptyString (split "#" (CredentialStatus.id status)) in
              let credId :=
                parseInt
                  (List.last (split "#" (CredentialStatus.id status))
                     EmptyString) in
              Some (request_chain listUrl credId issuerDID subjectDID)
            else None
        | None => None
        end
    end in
  (false, _result).

End RevokeFlow.

(** ** Reading the status of a credential *)

Section StatusQuery.

Variable host : RevocationList.Endianness.
Variable ungzip : list ascii -> Result (list ascii).
Variable http_get : string -> option StatusList.t.

(** The promise the function returns settles to the status bit, or to
    [undefined] ([None]) when anything in the chain throws: the [catch]
    callback logs the error and returns nothing. *)
Definition getRevocationStatus (credId : Z) (credListURL : string)
  : option bool :=
  match http_get (credListURL +:+ "/list.json") with
  | Some credentialList =>
      match
        (list ← RevocationList.parse host ungzip
                  (StatusList.encodedList credentialList);
         RevocationList.getCredentialStatus list credId)
      with
      | Ok result => Some result
      | Throw _ => None
      end
  | None => None
  end.

End StatusQuery.

(** ** Notions used in the statements *)

(** A run of [revokeCredential] calls on one list, stopping at the first
    exception. *)
Fixpoint revoke_all (L : RevocationList.t) (indices : list Z)
  : Result RevocationList.t :=
  match indices with
  | [] => Ok L
  | index :: rest =>
      L' ← RevocationList.revokeCredential L index;
      revoke_all L' rest
  end.

(** The disclosure of a salt (already rendered in base64url), a claim name
    and a value, as the loop of [createDisclosures] forms it. *)
Definition disclosure_of (triple : string * string * JsValue) : string :=
  encodeDisclosure [JString triple.1.1; JString triple.1.2; triple.2].

(** ** Data for the worked examples

    A stand-in for the digest (it returns the bytes in reverse order under
    the two names the SDK uses), a fixed "random" source, and the subject of
    the SDK's tests. *)

Definition example_createHash (name : string)
  : option (list ascii -> list ascii) :=
  if String.eqb name "sha256" || String.eqb name "sha512"
  then Some (@rev ascii) else None.

Definition example_randomBytes (k n : nat) : list ascii :=
  repeat (byte_of (Z.of_nat k)) n.

Definition example_claimValues : list (string * JsValue) :=
  [("fname", JString "John"); ("sname", JString "Doe")].

Definition example_target : JwtCredentialPayload :=
  mkPayload
    (mkVc
       (<["fname" := JString "John"]>
          (<["sname" := JString "Doe"]>
             (<["nationalId" := JString "ajj3i23293f290"]> ∅)))
       ∅ ∅)
    ∅.

(** The same subject with a member named ["_sd"]. *)
Definition example_target_sd : JwtCredentialPayload :=
  mkPayload
    (mkVc
       (<["fname" := JString "John"]> (<["_sd" := JString "kept"]> ∅))
       ∅ ∅)
    ∅.

(** A framing that stands in for gzip in the examples: a two-byte magic
    number before the data. *)
Definition example_gzip (bs : list ascii) : list ascii :=
  "031"%char :: "139"%char :: bs.

Definition example_ungzip (bs : list ascii) : Result (list ascii) :=
  match bs with
  | a :: b :: rest =>
      if Ascii.eqb a "031" && Ascii.eqb b "139" then Ok rest
      else Throw (Error "incorrect header check")
  | _ => Throw (Error "unexpected end of file")
  end.

(** A status list server that serves the empty list. *)
Definition example_http_get (url : string) : option StatusList.t :=
  if String.eqb url "https://issuer.example/status/list.json" then
    Some (StatusList.mk "https://issuer.example/status" "StatusList2021"
            "revocation"
            (RevocationList.stringify RevocationList.LittleEndian example_gzip
               RevocationList.new))
  else None.

(** The server accepts a publication at the list's address whose encoded
    list parses and has bit 42 set. *)
Definition example_http_post (url : string) (body : CredentialPayload) : bool :=
  String.eqb url "https://issuer.example/status/statusList" &&
  match subject body !! "encodedList" with
  | Some (JString encoded) =>
      match RevocationList.parse RevocationList.LittleEndian example_ungzip
              encoded with
      | Ok L =>
          match RevocationList.getCredentialStatus L 42 with
          | Ok revoked => revoked
          | Throw _ => false
          end
      | Throw _ => false
      end
  | _ => false
  end.

Definition example_vc : VerifiableCredential :=
  VC_W3C (Some (CredentialStatus.mk "https://issuer.example/status#42"
                  "StatusList2021Entry")).

(** * Properties *)

#[local] Arguments String.append : simpl nomatch.

(** ** RevocationList: bit addressing *)

Section RevocationListFacts.
Import RevocationList.

Lemma land_shiftl_1 (v b : Z) :
  0 <= b -> Z.land v (Z.shiftl 1 b) = if Z.testbit v b then 2 ^ b else 0.
Proof.
  intros Hb. rewrite Z.shiftl_1_l. apply Z.bits_inj'. intros n Hn.
  rewrite Z.land_spec.
  destruct (Z.eq_dec n b) as [->|Hne].
  - rewrite Z.pow2_bits_true by lia. rewrite andb_true_r.
    destruct (Z.testbit v b); [by rewrite Z.pow2_bits_true by lia|by rewrite Z.bits_0].
  - rewrite Z.pow2_bits_false by lia. rewrite andb_false_r.
    destruct (Z.testbit v b); [by rewrite Z.pow2_bits_false by lia|by rewrite Z.bits_0].
Qed.

Lemma mask_test (v b : Z) :
  0 <= b -> (Z.land v (Z.shiftl 1 b) =? Z.shiftl 1 b) = Z.testbit v b.
Proof.
  intros Hb. rewrite land_shiftl_1 by done. rewrite Z.shiftl_1_l.
  assert (0 < 2 ^ b) by (apply Z.pow_pos_nonneg; lia).
  destruct (Z.testbit v b); [apply Z.eqb_refl | apply Z.eqb_neq; lia].
Qed.

Lemma lor_mask_ok (v b : Z) :
  word_ok v -> 0 <= b < 64 -> word_ok (Z.lor v (Z.shiftl 1 b)).
Proof.
  intros [Hv0 Hv] Hb. rewrite Z.shiftl_1_l. split.
  - apply Z.lor_nonneg. split; [done|]. apply Z.pow_nonneg; lia.
  - destruct (Z.eq_dec (Z.lor v (2 ^ b)) 0) as [->|Hnz]; [done|].
    apply Z.log2_lt_cancel. rewrite Z.log2_lor by (try done; apply Z.pow_nonneg; lia).
    rewrite !Z.log2_pow2 by lia.
    destruct (Z.eq_dec v 0) as [->|Hv1]; [simpl; lia|].
    assert (Z.log2 v < 64) by (apply Z.log2_lt_pow2; lia). lia.
Qed.

Lemma capacity_eq : SIZE * SIZE_PER_INDEX = 128000.
Proof. reflexivity. Qed.

(** Inside the index domain the word exists and the mask is [2^(i mod 64)]. *)
Lemma getBitArrayValues_in_range (L : t) (i : Z) :
  wf L -> 0 <= i < 128000 ->
  exists w,
    bitArray L !! Z.to_nat (1999 - i / 64) = Some w /\ word_ok w /\
    getBitArrayValues L i =
      {| arrayValue := Some w; mask := Z.shiftl 1 (i mod 64);
         arrayIndex := 1999 - i / 64 |}.
Proof.
  intros [Hlen Hall] Hi.
  assert (Hq : 0 <= i / 64 < 2000).
  { split; [apply Z.div_pos; lia | apply Z.div_lt_upper_bound; lia]. }
  destruct (lookup_lt_is_Some_2 (bitArray L) (Z.to_nat (1999 - i / 64)))
    as [w Hw].
  { rewrite Hlen. unfold SIZE. lia. }
  exists w. split; [done|]. split.
  { rewrite Forall_lookup in Hall. by eapply Hall. }
  unfold getBitArrayValues, typed_get, SIZE, SIZE_PER_INDEX.
  replace (2000 - 1 - i / 64) with (1999 - i / 64) by lia.
  rewrite Z.rem_mod_nonneg by lia.
  destruct (Z.leb_spec 0 (1999 - i / 64)); [|lia]. by rewrite Hw.
Qed.

(** Outside the index domain the word index leaves the array. *)
Lemma getBitArrayValues_out_of_range (L : t) (i : Z) :
  length (bitArray L) = Z.to_nat SIZE -> i < 0 \/ 128000 <= i ->
  let v := getBitArrayValues L i in
  (arrayIndex v < 0 \/ SIZE <= arrayIndex v) /\ arrayValue v = None.
Proof.
  intros Hlen Hi. cbn. unfold typed_get, SIZE, SIZE_PER_INDEX in *.
  destruct Hi as [Hi|Hi].
  - assert (i / 64 < 0) by (apply Z.div_lt_upper_bound; lia).
    split; [lia|]. destruct (Z.leb_spec 0 (2000 - 1 - i / 64)); [|done].
    apply lookup_ge_None_2. lia.
  - assert (2000 <= i / 64) by (apply Z.div_le_lower_bound; lia).
    split; [lia|]. by destruct (Z.leb_spec 0 (2000 - 1 - i / 64)); [lia|].
Qed.

Lemma getCredentialStatus_in_range (L : t) (i : Z) (w : Z) :
  wf L -> 0 <= i < 128000 ->
  bitArray L !! Z.to_nat (1999 - i / 64) = Some w ->
  getCredentialStatus L i = Ok (Z.testbit w (i mod 64)).
Proof.
  intros HL Hi Hw. unfold getCredentialStatus.
  destruct (getBitArrayValues_in_range L i HL Hi) as (w' & Hw' & _ & ->).
  assert (w' = w) as -> by congruence. cbn.
  rewrite mask_test; [done|]. apply Z.mod_pos_bound. lia.
Qed.

Lemma revokeCredential_in_range (L : t) (i : Z) (w : Z) :
  wf L -> 0 <= i < 128000 ->
  bitArray L !! Z.to_nat (1999 - i / 64) = Some w ->
  revokeCredential L i =
    Ok (mk (<[Z.to_nat (1999 - i / 64) := Z.lor w (Z.shiftl 1 (i mod 64))]>
              (bitArray L))).
Proof.
  intros HL Hi Hw. unfold revokeCredential. rewrite capacity_eq.
  destruct (Z.gtb_spec i 128000); [lia|].
  destruct (Z.ltb_spec i 0); [lia|].
  destruct (getBitArrayValues_in_range L i HL Hi) as (w' & Hw' & Hok & ->).
  assert (w' = w) as -> by congruence. cbn. unfold typed_set.
  assert (Hq : 0 <= i / 64 < 2000).
  { split; [apply Z.div_pos; lia | apply Z.div_lt_upper_bound; lia]. }
  destruct (Z.leb_spec 0 (1999 - i / 64)); [|lia].
  rewrite Z.mod_small; [done|].
  apply lor_mask_ok; [done|]. apply Z.mod_pos_bound. lia.
Qed.

Lemma revokeCredential_wf (L L' : t) (i : Z) :
  wf L -> 0 <= i < 128000 -> revokeCredential L i = Ok L' -> wf L'.
Proof.
  intros HL Hi Hr.
  destruct (getBitArrayValues_in_range L i HL Hi) as (w & Hw & Hok & _).
  rewrite (revokeCredential_in_range L i w HL Hi Hw) in Hr.
  injection Hr as <-. destruct HL as [Hlen Hall]. split; cbn.
  - by rewrite length_insert.
  - apply Forall_insert; [done|].
    apply lor_mask_ok; [done|]. apply Z.mod_pos_bound. lia.
Qed.

(** Two indices name the same bit only when they are equal. *)
Lemma address_inj (i j : Z) :
  i / 64 = j / 64 -> i mod 64 = j mod 64 -> i = j.
Proof.
  intros Hq Hr. rewrite (Z.div_mod i 64), (Z.div_mod j 64) by lia. lia.
Qed.

Lemma testbit_lor_mask (w b c : Z) :
  0 <= b -> 0 <= c ->
  Z.testbit (Z.lor w (Z.shiftl 1 b)) c =
    if decide (b = c) then true else Z.testbit w c.
Proof.
  intros Hb Hc. rewrite Z.lor_spec, Z.shiftl_1_l. case_decide as Hbc.
  - subst c. rewrite Z.pow2_bits_true by lia. apply orb_true_r.
  - rewrite Z.pow2_bits_false by lia. apply orb_false_r.
Qed.

Lemma getCredentialStatus_after_revoke (L : t) (i j : Z) (w : Z) :
  wf L -> 0 <= i < 128000 -> 0 <= j < 128000 ->
  bitArray L !! Z.to_nat (1999 - i / 64) = Some w ->
  getCredentialStatus
    (mk (<[Z.to_nat (1999 - i / 64) := Z.lor w (Z.shiftl 1 (i mod 64))]>
           (bitArray L))) j =
  if decide (i = j) then Ok true else getCredentialStatus L j.
Proof.
  intros HL Hi Hj Hw.
  assert (HL' : wf (mk (<[Z.to_nat (1999 - i / 64) :=
                           Z.lor w (Z.shiftl 1 (i mod 64))]> (bitArray L)))).
  { eapply revokeCredential_wf; [exact HL|exact Hi|].
    by apply revokeCredential_in_range. }
  destruct (getBitArrayValues_in_range L j HL Hj) as (wj & Hwj & _ & _).
  assert (Hqi : 0 <= i / 64 < 2000).
  { split; [apply Z.div_pos; lia | apply Z.div_lt_upper_bound; lia]. }
  assert (Hqj : 0 <= j / 64 < 2000).
  { split; [apply Z.div_pos; lia | apply Z.div_lt_upper_bound; lia]. }
  pose proof (Z.mod_pos_bound i 64 ltac:(lia)) as Hbi.
  pose proof (Z.mod_pos_bound j 64 ltac:(lia)) as Hbj.
  rewrite (getCredentialStatus_in_range L j wj HL Hj Hwj).
  destruct (decide (i / 64 = j / 64)) as [Hq|Hq].
  - rewrite <- Hq in Hwj. assert (wj = w) as -> by congruence.
    rewrite (getCredentialStatus_in_range _ j
               (Z.lor w (Z.shiftl 1 (i mod 64))) HL' Hj).
    + rewrite testbit_lor_mask by lia.
      destruct (decide (i = j)) as [->|Hij]; [by rewrite decide_True|].
      rewrite decide_False; [done|]. intros Hr. by apply Hij, address_inj.
    + cbn. rewrite <- Hq. apply list_lookup_insert_eq.
      destruct HL as [-> _]. unfold SIZE. lia.
  - rewrite (getCredentialStatus_in_range _ j wj HL' Hj).
    + rewrite decide_False; [done|]. by intros ->.
    + cbn. rewrite list_lookup_insert_ne; [done|]. lia.
Qed.

(** Claim C2, at the boundary index: the guard [index > SIZE *
    SIZE_PER_INDEX] lets [128000] through, the word index is [-1], the
    word read is [undefined], and [undefined | 1n] throws a [TypeError];
    the call does not fail with the range error of the guard. *)
Theorem revokeCredential_at_capacity :
  RevocationList.revokeCredential RevocationList.new 128000 = Throw TypeError /\
  RevocationList.revokeCredential RevocationList.new 128000
    <> Throw RevocationList.out_of_range /\
  RevocationList.revokeCredential RevocationList.new 128001
    = Throw RevocationList.out_of_range.
Proof. split; [reflexivity|]. split; [discriminate|reflexivity]. Qed.

(** The rest of the range check behaves as the specification says. *)
Lemma revokeCredential_guard (L : t) (i : Z) :
  i < 0 \/ 128000 < i -> revokeCredential L i = Throw out_of_range.
Proof.
  intros Hi. unfold revokeCredential. rewrite capacity_eq.
  destruct (Z.gtb_spec i 128000); [done|].
  destruct (Z.ltb_spec i 0); [done|lia].
Qed.

Lemma revokeCredential_boundary (L : t) :
  length (bitArray L) = Z.to_nat SIZE ->
  revokeCredential L 128000 = Throw TypeError.
Proof.
  intros Hlen. unfold revokeCredential. rewrite capacity_eq.
  change (128000 >? 128000) with false. change (128000 <? 0) with false.
  cbv iota.
  destruct (getBitArrayValues_out_of_range L 128000 Hlen ltac:(lia))
    as [_ Hnone].
  cbv zeta in Hnone. by rewrite Hnone.
Qed.

(** Claim C9: inside the index domain, revoking [i] succeeds; afterwards
    the status of [i] is [true], the status of every other index is as
    before, revoking [i] again changes nothing, and no bit that was set
    is cleared. *)
Theorem revoke_sets_bit_and_frames (L : RevocationList.t) (i : Z) :
  RevocationList.wf L -> 0 <= i < 128000 ->
  exists L',
    RevocationList.revokeCredential L i = Ok L' /\
    RevocationList.wf L' /\
    RevocationList.getCredentialStatus L' i = Ok true /\
    (forall j, 0 <= j < 128000 -> j <> i ->
       RevocationList.getCredentialStatus L' j =
       RevocationList.getCredentialStatus L j) /\
    RevocationList.revokeCredential L' i = Ok L' /\
    (forall j, 0 <= j < 128000 ->
       RevocationList.getCredentialStatus L j = Ok true ->
       RevocationList.getCredentialStatus L' j = Ok true).
Proof.
  intros HL Hi.
  destruct (getBitArrayValues_in_range L i HL Hi) as (w & Hw & Hok & _).
  pose proof (revokeCredential_in_range L i w HL Hi Hw) as Hrev.
  eexists. split; [exact Hrev|].
  pose proof (revokeCredential_wf _ _ _ HL Hi Hrev) as HL'.
  assert (Hqi : 0 <= i / 64 < 2000).
  { split; [apply Z.div_pos; lia | apply Z.div_lt_upper_bound; lia]. }
  pose proof (Z.mod_pos_bound i 64 ltac:(lia)) as Hbi.
  assert (Hlt : (Z.to_nat (1999 - i / 64) < length (bitArray L))%nat).
  { destruct HL as [-> _]. unfold SIZE. lia. }
  split; [exact HL'|]. split.
  { rewrite getCredentialStatus_after_revoke by done. by rewrite decide_True. }
  split.
  { intros j Hj Hji.
    rewrite getCredentialStatus_after_revoke by done.
    by rewrite decide_False by congruence. }
  split.
  { rewrite (revokeCredential_in_range _ i
               (Z.lor w (Z.shiftl 1 (i mod 64))) HL' Hi).
    - cbn. do 2 f_equal. rewrite list_insert_insert_eq. f_equal.
      rewrite <- Z.lor_assoc. by rewrite Z.lor_diag.
    - cbn. by apply list_lookup_insert_eq. }
  intros j Hj Hset.
  rewrite getCredentialStatus_after_revoke by done.
  by case_decide.
Qed.

(** Claim C10: [getCredentialStatus] has no bounds check.  Outside the
    index domain the word index is outside [0 .. SIZE-1], the word read
    is [undefined], and the [&] throws a [TypeError]: the call returns no
    boolean and does not raise the range error of [revokeCredential]. *)
Theorem getCredentialStatus_unchecked (L : RevocationList.t) (i : Z) :
  length (RevocationList.bitArray L) = Z.to_nat RevocationList.SIZE ->
  i < 0 \/ 128000 <= i ->
  let v := RevocationList.getBitArrayValues L i in
  (RevocationList.arrayIndex v < 0 \/
   RevocationList.SIZE <= RevocationList.arrayIndex v) /\
  RevocationList.arrayValue v = None /\
  RevocationList.getCredentialStatus L i = Throw TypeError /\
  (forall b, RevocationList.getCredentialStatus L i <> Ok b) /\
  RevocationList.getCredentialStatus L i
    <> Throw RevocationList.out_of_range.
Proof.
  intros Hlen Hi v.
  destruct (getBitArrayValues_out_of_range L i Hlen Hi) as [Hidx Hnone].
  fold v in Hidx, Hnone.
  assert (Hthrow : getCredentialStatus L i = Throw TypeError).
  { unfold getCredentialStatus. fold v. by rewrite Hnone. }
  rewrite Hthrow. repeat split; [done|done|discriminate..].
Qed.

End RevocationListFacts.

Lemma revoke_sets_bit_and_frames_witness :
  exists L',
    RevocationList.revokeCredential RevocationList.new 42 = Ok L' /\
    RevocationList.wf L' /\
    RevocationList.getCredentialStatus L' 42 = Ok true /\
    (forall j, 0 <= j < 128000 -> j <> 42 ->
       RevocationList.getCredentialStatus L' j =
       RevocationList.getCredentialStatus RevocationList.new j) /\
    RevocationList.revokeCredential L' 42 = Ok L' /\
    (forall j, 0 <= j < 128000 ->
       RevocationList.getCredentialStatus RevocationList.new j = Ok true ->
       RevocationList.getCredentialStatus L' j = Ok true).
Proof.
  apply (revoke_sets_bit_and_frames RevocationList.new 42).
  - split; [reflexivity|]. apply Forall_forall. intros w Hw.
    apply list_elem_of_In, repeat_spec in Hw. subst w. unfold RevocationList.word_ok. lia.
  - lia.
Defined.

Lemma getCredentialStatus_unchecked_witness :
  RevocationList.getCredentialStatus RevocationList.new 128000 = Throw TypeError /\
  RevocationList.getCredentialStatus RevocationList.new (-1) = Throw TypeError.
Proof.
  split.
  - apply (getCredentialStatus_unchecked RevocationList.new 128000);
      [reflexivity | right; lia].
  - apply (getCredentialStatus_unchecked RevocationList.new (-1));
      [reflexivity | left; lia].
Defined.

(** ** Bytes and Base64 *)

Lemma byte_val_range (a : ascii) : 0 <= byte_val a < 256.
Proof.
  unfold byte_val. pose proof (N_ascii_bounded a). lia.
Qed.

Lemma byte_of_val (a : ascii) : byte_of (byte_val a) = a.
Proof.
  unfold byte_of. rewrite Z.mod_small by apply byte_val_range.
  unfold byte_val. rewrite N2Z.id. apply ascii_N_embedding.
Qed.

Lemma byte_val_of (z : Z) : 0 <= z < 256 -> byte_val (byte_of z) = z.
Proof.
  intros Hz. unfold byte_val, byte_of. rewrite Z.mod_small by done.
  rewrite N_ascii_embedding by lia. lia.
Qed.

Section Base64Facts.
Import Base64.

(** Both alphabets are inverted by [value_of] and avoid [=] and [~]. *)
Lemma sextet_table (alphabet : string) :
  alphabet = std \/ alphabet = url ->
  Forall (fun n => value_of (char_of alphabet n) = Some n /\
                   char_of alphabet n <> pad_char /\
                   char_of alphabet n <> "~"%char) (seqZ 0 64).
Proof.
  intros [->| ->]; apply (bool_decide_unpack _); by vm_compute.
Qed.

Lemma sextet_ok (alphabet : string) (n : Z) :
  alphabet = std \/ alphabet = url -> 0 <= n < 64 ->
  value_of (char_of alphabet n) = Some n /\
  char_of alphabet n <> pad_char /\
  char_of alphabet n <> "~"%char.
Proof.
  intros Ha Hn. pose proof (sextet_table alphabet Ha) as Hall.
  rewrite Forall_forall in Hall. apply Hall, elem_of_seqZ. lia.
Qed.

Lemma sextets_cons (alphabet : string) (n : Z) (s : string) :
  alphabet = std \/ alphabet = url -> 0 <= n < 64 ->
  sextets (String (char_of alphabet n) s) = n :: sextets s.
Proof.
  intros Ha Hn. destruct (sextet_ok alphabet n Ha Hn) as (Hv & Hp & _).
  cbn [sextets]. rewrite Hv.
  destruct (Ascii.eqb_spec (char_of alphabet n) pad_char); [done|done].
Qed.

Lemma sextets_padding (pad : bool) (k : string) :
  sextets (if pad then String pad_char k else EmptyString) = [].
Proof. by destruct pad. Qed.

(** The arithmetic of one group: the four six-bit values of three bytes,
    and the bytes rebuilt from them. *)
Lemma group_bounds (a b c : Z) :
  0 <= a < 256 -> 0 <= b < 256 -> 0 <= c < 256 ->
  0 <= a / 4 < 64 /\ 0 <= a mod 4 * 16 + b / 16 < 64 /\
  0 <= b mod 16 * 4 + c / 64 < 64 /\ 0 <= c mod 64 < 64 /\
  0 <= a mod 4 * 16 < 64 /\ 0 <= b mod 16 * 4 < 64.
Proof. intros Ha Hb Hc. repeat split; Z.div_mod_to_equations; lia. Qed.

Lemma group_first (a b : Z) :
  0 <= a < 256 -> 0 <= b < 256 ->
  a / 4 * 4 + (a mod 4 * 16 + b / 16) / 16 = a.
Proof. intros Ha Hb. Z.div_mod_to_equations. lia. Qed.

Lemma group_second (a b c : Z) :
  0 <= a < 256 -> 0 <= b < 256 -> 0 <= c < 256 ->
  (a mod 4 * 16 + b / 16) mod 16 * 16 + (b mod 16 * 4 + c / 64) / 4 = b.
Proof. intros Ha Hb Hc. Z.div_mod_to_equations. lia. Qed.

Lemma group_third (b c : Z) :
  0 <= b < 256 -> 0 <= c < 256 ->
  (b mod 16 * 4 + c / 64) mod 4 * 64 + c mod 64 = c.
Proof. intros Hb Hc. Z.div_mod_to_equations. lia. Qed.

(** Decoding inverts encoding, for both alphabets, padded or not. *)
Lemma base64_decode_encode (alphabet : string) (pad : bool) (bs : list ascii) :
  alphabet = std \/ alphabet = url ->
  decode (encode alphabet pad bs) = bs.
Proof.
  intros Ha. unfold decode.
  induction bs as [bs IH] using (induction_ltof1 _ (@length ascii)).
  unfold ltof in IH.
  destruct bs as [|x [|y [|z rest]]]; [done|..].
  - pose proof (byte_val_range x) as Hx.
    destruct (group_bounds (byte_val x) 0 0 Hx ltac:(lia) ltac:(lia))
      as (H1 & _ & _ & _ & H2 & _).
    cbn [encode]. cbv zeta.
    rewrite !sextets_cons by done.
    replace (sextets (if pad then _ else _)) with (@nil Z)
      by (by destruct pad).
    cbn [bytes_of]. f_equal.
    pose proof (group_first (byte_val x) 0 Hx ltac:(lia)) as E.
    rewrite Z.add_0_r in E. rewrite E. apply byte_of_val.
  - pose proof (byte_val_range x) as Hx. pose proof (byte_val_range y) as Hy.
    destruct (group_bounds (byte_val x) (byte_val y) 0 Hx Hy ltac:(lia))
      as (H1 & H2 & _ & _ & _ & H3).
    cbn [encode]. cbv zeta.
    rewrite !sextets_cons by done.
    replace (sextets (if pad then _ else _)) with (@nil Z)
      by (by destruct pad).
    cbn [bytes_of].
    pose proof (group_second (byte_val x) (byte_val y) 0 Hx Hy ltac:(lia)) as E.
    rewrite Z.add_0_r in E.
    rewrite group_first, E by done. by rewrite !byte_of_val.
  - pose proof (byte_val_range x) as Hx. pose proof (byte_val_range y) as Hy.
    pose proof (byte_val_range z) as Hz.
    destruct (group_bounds (byte_val x) (byte_val y) (byte_val z) Hx Hy Hz)
      as (H1 & H2 & H3 & H4 & _ & _).
    cbn [encode]. cbv zeta.
    rewrite !sextets_cons by done.
    cbn [bytes_of].
    rewrite group_first, group_second, group_third by done.
    rewrite !byte_of_val. do 3 f_equal. apply IH. cbn. lia.
Qed.

(** An unpadded encoding consists of alphabet characters only: it
    contains neither [=] nor the separator [~]. *)
Lemma base64_encode_no_tilde (alphabet : string) (bs : list ascii) :
  alphabet = std \/ alphabet = url ->
  ~ In "~"%char (list_ascii_of_string (encode alphabet false bs)).
Proof.
  intros Ha.
  induction bs as [bs IH] using (induction_ltof1 _ (@length ascii)).
  unfold ltof in IH.
  destruct bs as [|x [|y [|z rest]]]; [by intros []|..].
  - pose proof (byte_val_range x) as Hx.
    destruct (group_bounds (byte_val x) 0 0 Hx ltac:(lia) ltac:(lia))
      as (H1 & _ & _ & _ & H2 & _).
    destruct (sextet_ok alphabet _ Ha H1) as (_ & _ & N1).
    destruct (sextet_ok alphabet _ Ha H2) as (_ & _ & N2).
    cbn. intros [E|[E|[]]]; congruence.
  - pose proof (byte_val_range x) as Hx. pose proof (byte_val_range y) as Hy.
    destruct (group_bounds (byte_val x) (byte_val y) 0 Hx Hy ltac:(lia))
      as (H1 & H2 & _ & _ & _ & H3).
    destruct (sextet_ok alphabet _ Ha H1) as (_ & _ & N1).
    destruct (sextet_ok alphabet _ Ha H2) as (_ & _ & N2).
    destruct (sextet_ok alphabet _ Ha H3) as (_ & _ & N3).
    cbn. intros [E|[E|[E|[]]]]; congruence.
  - pose proof (byte_val_range x) as Hx. pose proof (byte_val_range y) as Hy.
    pose proof (byte_val_range z) as Hz.
    destruct (group_bounds (byte_val x) (byte_val y) (byte_val z) Hx Hy Hz)
      as (H1 & H2 & H3 & H4 & _ & _).
    destruct (sextet_ok alphabet _ Ha H1) as (_ & _ & N1).
    destruct (sextet_ok alphabet _ Ha H2) as (_ & _ & N2).
    destruct (sextet_ok alphabet _ Ha H3) as (_ & _ & N3).
    destruct (sextet_ok alphabet _ Ha H4) as (_ & _ & N4).
    cbn [encode list_ascii_of_string]. cbv zeta.
    intros [E|[E|[E|[E|E]]]]; try congruence.
    revert E. apply IH. cbn. lia.
Qed.

End Base64Facts.

(** ** Numbers *)

Section NumberFacts.
Import Number.

Lemma pow2_pos (a : Z) : 0 <= a -> 0 < 2 ^ a.
Proof. intros. by apply Z.pow_pos_nonneg. Qed.

(** [ge_pow2] with both sides scaled by [2^K]. *)
Lemma ge_pow2_shift (p q t K : Z) :
  0 <= K -> 0 <= t + K ->
  ge_pow2 p q t = true <-> q * 2 ^ (t + K) <= p * 2 ^ K.
Proof.
  intros HK HtK. unfold ge_pow2. rewrite Z.leb_le.
  destruct (Z.le_gt_cases 0 t) as [Ht|Ht].
  - rewrite Z.max_l, Z.max_r by lia. rewrite Z.pow_0_r, Z.mul_1_r.
    rewrite Z.pow_add_r by lia. pose proof (pow2_pos K HK). nia.
  - rewrite Z.max_r, Z.max_l by lia. rewrite Z.pow_0_r, Z.mul_1_r.
    replace K with ((t + K) + - t) at 2 by lia.
    rewrite (Z.pow_add_r 2 (t + K) (- t)) by lia.
    pose proof (pow2_pos (t + K) HtK). nia.
Qed.

Lemma ge_pow2_mono (p q t t' : Z) :
  0 < q -> t' <= t -> ge_pow2 p q t = true -> ge_pow2 p q t' = true.
Proof.
  intros Hq Hle H.
  set (K := Z.abs t + Z.abs t').
  apply (ge_pow2_shift p q t K) in H; [|lia..].
  apply (ge_pow2_shift p q t' K); [lia..|].
  assert (2 ^ (t' + K) <= 2 ^ (t + K)) by (apply Z.pow_le_mono_r; lia).
  nia.
Qed.

Lemma ge_pow2_log2 (p q : Z) :
  0 < p -> 0 < q ->
  ge_pow2 p q (Z.log2 p - Z.log2 q - 1) = true /\
  ge_pow2 p q (Z.log2 p - Z.log2 q + 1) = false.
Proof.
  intros Hp Hq.
  pose proof (Z.log2_spec p Hp) as [Hp1 Hp2].
  pose proof (Z.log2_spec q Hq) as [Hq1 Hq2].
  pose proof (Z.log2_nonneg p) as Hlp. pose proof (Z.log2_nonneg q) as Hlq.
  set (lp := Z.log2 p) in *. set (lq := Z.log2 q) in *.
  set (K := lp + lq + 1).
  split.
  - apply (ge_pow2_shift p q _ K); [lia..|].
    assert (q * 2 ^ (lp - lq - 1 + K) < 2 ^ Z.succ lq * 2 ^ (lp - lq - 1 + K)).
    { apply Z.mul_lt_mono_pos_r; [apply pow2_pos; lia|done]. }
    rewrite <- Z.pow_add_r in H by lia.
    assert (2 ^ lp * 2 ^ K <= p * 2 ^ K).
    { apply Z.mul_le_mono_nonneg_r; [apply Z.lt_le_incl, pow2_pos; lia|done]. }
    rewrite <- Z.pow_add_r in H0 by lia.
    replace (Z.succ lq + (lp - lq - 1 + K)) with (lp + K) in H by lia. lia.
  - apply not_true_is_false. intros H.
    apply (ge_pow2_shift p q _ K) in H; [|lia..].
    assert (2 ^ lq * 2 ^ (lp - lq + 1 + K) <= q * 2 ^ (lp - lq + 1 + K)).
    { apply Z.mul_le_mono_nonneg_r; [apply Z.lt_le_incl, pow2_pos; lia|done]. }
    rewrite <- Z.pow_add_r in H0 by lia.
    assert (p * 2 ^ K < 2 ^ Z.succ lp * 2 ^ K).
    { apply Z.mul_lt_mono_pos_r; [apply pow2_pos; lia|done]. }
    rewrite <- Z.pow_add_r in H1 by lia.
    replace (lq + (lp - lq + 1 + K)) with (Z.succ lp + K) in H0 by lia. lia.
Qed.

(** The exponent is the one the comparisons single out. *)
Lemma exponent_unique (p q t : Z) :
  0 < p -> 0 < q ->
  ge_pow2 p q t = true -> ge_pow2 p q (t + 1) = false ->
  exponent p q = t - 52.
Proof.
  intros Hp Hq Hge Hlt.
  destruct (ge_pow2_log2 p q Hp Hq) as [Hlo Hhi].
  unfold exponent. set (d := Z.log2 p - Z.log2 q) in *.
  assert (t <= d).
  { destruct (Z.le_gt_cases t d) as [|Hgt]; [done|].
    rewrite (ge_pow2_mono p q t (d + 1)) in Hhi; [done|done|lia|done]. }
  assert (d - 1 <= t).
  { destruct (Z.le_gt_cases (d - 1) t) as [|Hgt]; [done|].
    rewrite (ge_pow2_mono p q (d - 1) (t + 1)) in Hlt; [done|done|lia|done]. }
  destruct (decide (t = d)) as [->|Hne].
  - by rewrite Hge.
  - replace d with (t + 1) by lia. rewrite Hlt. lia.
Qed.

Lemma canonical_spec (m : positive) (e : Z) :
  canonical m e = true ->
  Z.pos m < 2 ^ 53 /\ -1074 <= e <= 971 /\
  (Z.log2 (Z.pos m) = 52 \/ (Z.log2 (Z.pos m) < 52 /\ e = -1074)).
Proof.
  unfold canonical. rewrite !andb_true_iff, orb_true_iff.
  rewrite Z.ltb_lt, !Z.leb_le, Z.eqb_eq.
  intros [[[Hm He1] He2] Hn]. split; [done|]. split; [done|].
  assert (Z.log2 (Z.pos m) < 53) by (apply Z.log2_lt_pow2; lia).
  destruct (decide (2 ^ 52 <= Z.pos m)) as [Hn'|Hn'].
  - left. apply Z.log2_le_pow2 in Hn'; lia.
  - right. split; [|lia]. apply Z.log2_lt_pow2; lia.
Qed.

(** Rounding is exact on the doubles. *)
Lemma round_exact (negative : bool) (p q : Z) (m : positive) (e : Z) :
  0 < p -> 0 < q -> canonical m e = true ->
  p * 2 ^ Z.max (- e) 0 = Z.pos m * (q * 2 ^ Z.max e 0) ->
  round negative p q = Finite negative m e.
Proof.
  intros Hp Hq Hc Hval.
  destruct (canonical_spec m e Hc) as (Hm & He & Hlog).
  pose proof (Z.log2_spec (Z.pos m) ltac:(lia)) as [Hm1 Hm2].
  pose proof (Z.log2_nonneg (Z.pos m)) as Hl.
  set (lm := Z.log2 (Z.pos m)) in *.
  assert (Hexp : exponent p q = lm + e - 52).
  { apply exponent_unique; [done|done|..].
    - set (K := 1074 + lm).
      apply (ge_pow2_shift p q _ K); [lia..|].
      assert (E : p * 2 ^ K * 2 ^ Z.max (- e) 0
                  = Z.pos m * (q * 2 ^ (Z.max e 0 + K)))
        by (rewrite Z.pow_add_r by lia; nia).
      assert (L : q * 2 ^ (lm + e + K) * 2 ^ Z.max (- e) 0
                  = 2 ^ lm * (q * 2 ^ (Z.max e 0 + K))).
      { rewrite <- !Z.mul_assoc, <- Z.pow_add_r by lia.
        rewrite (Z.mul_comm (2 ^ lm)), <- Z.mul_assoc, <- Z.pow_add_r by lia.
        do 2 f_equal. lia. }
      pose proof (pow2_pos (Z.max (- e) 0) ltac:(lia)) as HX.
      pose proof (pow2_pos (Z.max e 0 + K) ltac:(lia)) as HY.
      apply (Z.mul_le_mono_pos_r _ _ _ HX). rewrite L, E.
      apply Z.mul_le_mono_nonneg_r; [nia|done].
    - apply not_true_is_false. intros H.
      set (K := 1075 + lm) in *.
      apply (ge_pow2_shift p q _ K) in H; [|lia..].
      assert (E : p * 2 ^ K * 2 ^ Z.max (- e) 0
                  = Z.pos m * (q * 2 ^ (Z.max e 0 + K)))
        by (rewrite Z.pow_add_r by lia; nia).
      assert (L : q * 2 ^ (lm + e + 1 + K) * 2 ^ Z.max (- e) 0
                  = 2 ^ Z.succ lm * (q * 2 ^ (Z.max e 0 + K))).
      { rewrite <- !Z.mul_assoc, <- Z.pow_add_r by lia.
        rewrite (Z.mul_comm (2 ^ Z.succ lm)), <- Z.mul_assoc,
          <- Z.pow_add_r by lia.
        do 2 f_equal. lia. }
      pose proof (pow2_pos (Z.max (- e) 0) ltac:(lia)) as HX.
      pose proof (pow2_pos (Z.max e 0 + K) ltac:(lia)) as HY.
      apply (Z.mul_le_mono_pos_r _ _ _ HX) in H. rewrite L, E in H.
      apply Z.mul_le_mono_pos_r in H; [lia|nia]. }
  unfold round. rewrite Hexp.
  replace (Z.max (lm + e - 52) (-1074)) with e by lia.
  rewrite Hval.
  assert (Hden : 0 < q * 2 ^ Z.max e 0)
    by (pose proof (pow2_pos (Z.max e 0) ltac:(lia)); nia).
  rewrite Z.div_mul, Z.mod_mul by lia.
  replace (2 * 0 ?= q * 2 ^ Z.max e 0) with Lt
    by (symmetry; apply Z.compare_lt_iff; lia).
  destruct (Z.eqb_spec (Z.pos m) 0); [lia|].
  destruct (Z.eqb_spec (Z.pos m) (2 ^ 53)); [lia|].
  destruct (Z.ltb_spec 971 e); [lia|]. done.
Qed.

Lemma of_decimal_exact (negative : bool) (m : positive) (e : Z) :
  canonical m e = true ->
  of_decimal negative (exact_decimal m e).1 (exact_decimal m e).2
  = Finite negative m e.
Proof.
  intros Hc. unfold exact_decimal, of_decimal.
  destruct (Z.leb_spec 0 e) as [He|He]; cbn [fst snd].
  - assert (0 < Z.pos m * 2 ^ e) by (pose proof (pow2_pos e He); nia).
    destruct (Z.eqb_spec (Z.pos m * 2 ^ e) 0); [lia|].
    apply round_exact; [cbn; lia|done|done|].
    rewrite !Z.max_r, Z.max_l by lia. cbn. lia.
  - assert (0 < 5 ^ (- e)) by (apply Z.pow_pos_nonneg; lia).
    destruct (Z.eqb_spec (Z.pos m * 5 ^ (- e)) 0); [nia|].
    rewrite Z.max_r, Z.max_l by lia.
    apply round_exact; [rewrite Z.pow_0_r; nia|
                        apply Z.pow_pos_nonneg; lia|done|].
    rewrite Z.max_l, Z.max_r by lia.
    rewrite !Z.pow_0_r, !Z.mul_1_r.
    replace 10 with (5 * 2) by done. rewrite Z.pow_mul_l. lia.
Qed.

Lemma candidate_ok (m : positive) (e n k : Z) (sd : Z * Z) :
  candidate m e n k = Some sd ->
  of_decimal false sd.1 sd.2 = Finite false m e.
Proof.
  unfold candidate.
  set (lo := _ / _). set (norm := fun s : Z => if s =? 10 ^ k then (1, n) else (s, n - k)).
  set (prefer := match _ ?= _ with Lt => true | Gt => false | Eq => Z.even lo end).
  set (lo_ok := (10 ^ (k - 1) <=? lo) && _).
  destruct lo_ok eqn:Hlo; cbn [andb].
  - apply andb_true_iff in Hlo as [_ Hlo].
    apply bool_decide_eq_true in Hlo.
    case_bool_decide as Hhi.
    + intros [= <-]. by destruct prefer.
    + by intros [= <-].
  - case_bool_decide as Hhi; [|done]. by intros [= <-].
Qed.

Lemma candidate_pos (m : positive) (e n k : Z) (sd : Z * Z) :
  candidate m e n k = Some sd -> 0 < sd.1.
Proof.
  intros H. pose proof (candidate_ok _ _ _ _ _ H) as Hok.
  assert (Hnz : sd.1 <> 0).
  { intros E. unfold of_decimal in Hok. by rewrite E in Hok. }
  assert (0 <= sd.1); [|lia].
  clear Hok Hnz. revert H. unfold candidate.
  set (tn := _ * 10 ^ Z.max (k - n) 0). set (td := _ * 10 ^ Z.max (n - k) 0).
  assert (Hlo : 0 <= tn / td).
  { apply Z.div_pos.
    - unfold tn. pose proof (pow2_pos (Z.max e 0) ltac:(lia)).
      assert (0 < 10 ^ Z.max (k - n) 0) by (apply Z.pow_pos_nonneg; lia). nia.
    - unfold td. pose proof (pow2_pos (Z.max (- e) 0) ltac:(lia)).
      assert (0 < 10 ^ Z.max (n - k) 0) by (apply Z.pow_pos_nonneg; lia). nia. }
  set (lo := tn / td) in *.
  set (norm := fun s : Z => if s =? 10 ^ k then (1, n) else (s, n - k)).
  assert (Hnorm : forall s, 0 <= s -> 0 <= (norm s).1).
  { intros s Hs. unfold norm. by destruct (s =? 10 ^ k). }
  cbv zeta.
  destruct (_ && _ && _); [intros [= <-]; apply Hnorm; case_match; lia|].
  destruct (_ && _); [intros [= <-]; apply Hnorm; lia|].
  destruct (bool_decide _); [intros [= <-]; apply Hnorm; lia|done].
Qed.

Lemma shortest_ok (fuel : nat) (m : positive) (e n k : Z) :
  canonical m e = true ->
  of_decimal false (shortest fuel m e n k).1 (shortest fuel m e n k).2
  = Finite false m e.
Proof.
  intros Hc. revert k. induction fuel as [|fuel IH]; intros k.
  - by apply of_decimal_exact.
  - cbn [shortest]. destruct (candidate m e n k) as [sd|] eqn:Hcand.
    + by apply candidate_ok in Hcand.
    + apply IH.
Qed.

Lemma shortest_pos (fuel : nat) (m : positive) (e n k : Z) :
  0 < (shortest fuel m e n k).1.
Proof.
  revert k. induction fuel as [|fuel IH]; intros k.
  - cbn [shortest]. unfold exact_decimal.
    destruct (Z.leb_spec 0 e); cbn [fst].
    + pose proof (pow2_pos e ltac:(lia)). nia.
    + assert (0 < 5 ^ (- e)) by (apply Z.pow_pos_nonneg; lia). nia.
  - cbn [shortest]. destruct (candidate m e n k) as [sd|] eqn:Hcand.
    + by apply candidate_pos in Hcand.
    + apply IH.
Qed.

Lemma of_decimal_sign (negative : bool) (s d : Z) (m : positive) (e : Z) :
  of_decimal false s d = Finite false m e ->
  of_decimal negative s d = Finite negative m e.
Proof.
  unfold of_decimal, round.
  repeat case_match; try done; intros [= <- <-]; done.
Qed.

(** The digits that [Number::toString] writes for a double denote it. *)
Lemma of_decimal_to_decimal (negative : bool) (m : positive) (e : Z) :
  canonical m e = true ->
  of_decimal negative (to_decimal m e).1 (to_decimal m e).2
  = Finite negative m e.
Proof. intros Hc. by apply of_decimal_sign, shortest_ok. Qed.

Lemma to_decimal_pos (m : positive) (e : Z) : 0 < (to_decimal m e).1.
Proof. apply shortest_pos. Qed.

End NumberFacts.

(** ** JSON *)

Section JSONFacts.
Import JSON.

Lemma string_app_assoc (a b c : string) : (a +:+ b) +:+ c = a +:+ (b +:+ c).
Proof. induction a as [|x a IH]; [done|]. simpl. by f_equal. Qed.

Lemma string_app_length (a b : string) :
  String.length (a +:+ b) = (String.length a + String.length b)%nat.
Proof. induction a as [|x a IH]; [done|]. simpl. by f_equal. Qed.

Lemma string_app_nil_r (a : string) : a +:+ EmptyString = a.
Proof. induction a as [|x a IH]; [done|]. simpl. by f_equal. Qed.

(** One quoted character is read back as that character. *)
Lemma parse_quote_char (c : ascii) (k : string) :
  parse_string_body (quote_char c +:+ k) = cons_char c (parse_string_body k).
Proof.
  destruct c as [[] [] [] [] [] [] [] []]; reflexivity.
Qed.

Lemma parse_string_body_quote (s rest : string) :
  parse_string_body (quote_body s +:+ String dquote rest) = Ok (s, rest).
Proof.
  induction s as [|c s IH]; [done|].
  cbn [quote_body]. rewrite string_app_assoc, parse_quote_char, IH. done.
Qed.

(** *** Numerals *)

Lemma span_digits_app (ds : string) (c : ascii) (k : string) :
  Forall (fun x => is_digit x = true) (list_ascii_of_string ds) ->
  is_digit c = false ->
  span_digits (ds +:+ String c k) = (ds, String c k).
Proof.
  intros Hds Hc. induction ds as [|x ds IH].
  - cbn. by rewrite Hc.
  - apply Forall_cons in Hds as [Hx Hds].
    cbn [String.append span_digits]. rewrite Hx, IH by done. done.
Qed.

Lemma digits_value_app (acc : Z) (a b : string) :
  digits_value acc (a +:+ b) = digits_value (digits_value acc a) b.
Proof.
  revert acc. induction a as [|x a IH]; intros acc; [done|].
  cbn [String.append digits_value]. apply IH.
Qed.

Lemma digits_value_zeros (acc : Z) (n : nat) :
  digits_value acc (zeros n) = acc * 10 ^ Z.of_nat n.
Proof.
  revert acc. induction n as [|n IH]; intros acc.
  - cbn. lia.
  - cbn [zeros digits_value]. rewrite IH.
    change (byte_val "0" - 48) with 0.
    rewrite Nat2Z.inj_succ, Z.pow_succ_r by lia. lia.
Qed.

Lemma zeros_digits (n : nat) :
  Forall (fun x => is_digit x = true) (list_ascii_of_string (zeros n)).
Proof. induction n; constructor; done. Qed.

Lemma zeros_length (n : nat) : String.length (zeros n) = n.
Proof. induction n; cbn; congruence. Qed.

Lemma take_drop (n : nat) (s : string) : take n s +:+ drop n s = s.
Proof.
  revert s. induction n as [|n IH]; intros [|c s]; cbn; try done.
  by rewrite IH.
Qed.

Lemma take_digits (n : nat) (s : string) :
  Forall (fun x => is_digit x = true) (list_ascii_of_string s) ->
  Forall (fun x => is_digit x = true) (list_ascii_of_string (take n s)).
Proof.
  revert s. induction n as [|n IH]; intros [|c s] H; cbn; try constructor.
  - by apply Forall_cons in H as [? _].
  - apply IH. by apply Forall_cons in H as [_ ?].
Qed.

Lemma drop_digits (n : nat) (s : string) :
  Forall (fun x => is_digit x = true) (list_ascii_of_string s) ->
  Forall (fun x => is_digit x = true) (list_ascii_of_string (drop n s)).
Proof.
  revert s. induction n as [|n IH]; intros [|c s] H; cbn; try done.
  apply IH. by apply Forall_cons in H as [_ ?].
Qed.

Lemma drop_length (n : nat) (s : string) :
  String.length (drop n s) = (String.length s - n)%nat.
Proof.
  revert s. induction n as [|n IH]; intros [|c s]; cbn; try done; lia.
Qed.

Lemma app_digits (a b : string) :
  Forall (fun x => is_digit x = true) (list_ascii_of_string a) ->
  Forall (fun x => is_digit x = true) (list_ascii_of_string b) ->
  Forall (fun x => is_digit x = true) (list_ascii_of_string (a +:+ b)).
Proof.
  intros Ha Hb. induction a as [|x a IH]; [done|].
  apply Forall_cons in Ha as [Hx Ha]. cbn. constructor; auto.
Qed.

Lemma uint_digits (u : uint) :
  Forall (fun c => is_digit c = true)
    (list_ascii_of_string (NilEmpty.string_of_uint u)).
Proof.
  induction u; cbn [NilEmpty.string_of_uint list_ascii_of_string];
    constructor; done.
Qed.

Lemma digits_value_acc (l : uint) (acc : positive) :
  digits_value (Z.pos acc) (NilEmpty.string_of_uint l)
  = Z.pos (Pos.of_uint_acc l acc).
Proof.
  revert acc.
  induction l as [|l IH|l IH|l IH|l IH|l IH|l IH|l IH|l IH|l IH|l IH];
    intros acc; cbn [NilEmpty.string_of_uint Pos.of_uint_acc digits_value];
    [done|..]; rewrite <- IH; f_equal;
    match goal with
    | |- context [byte_val ?c - 48] =>
        let v := eval vm_compute in (byte_val c - 48) in
        change (byte_val c - 48) with v
    end; lia.
Qed.

Lemma digits_value_uint (l : uint) :
  digits_value 0 (NilEmpty.string_of_uint l) = Z.of_N (Pos.of_uint l).
Proof.
  induction l as [|l IH|l IH|l IH|l IH|l IH|l IH|l IH|l IH|l IH|l IH];
    cbn [NilEmpty.string_of_uint Pos.of_uint digits_value]; [done|..];
    [exact IH | apply digits_value_acc ..].
Qed.

(** The digits of a positive number are not empty and do not start
    with [0]. *)
Lemma to_uint_head (p : positive) :
  exists c ds,
    NilEmpty.string_of_uint (Pos.to_uint p) = String c ds /\
    is_digit c = true /\ Ascii.eqb c "0" = false.
Proof.
  pose proof (DecimalPos.Unsigned.to_uint_nonnil p) as Hnil.
  pose proof (DecimalPos.Unsigned.to_uint_nonzero p) as Hnz.
  assert (Hnorm : unorm (Pos.to_uint p) = Pos.to_uint p).
  { rewrite <- (DecimalPos.Unsigned.to_of (Pos.to_uint p)).
    by rewrite DecimalPos.Unsigned.of_to. }
  destruct (Pos.to_uint p) as [|u|u|u|u|u|u|u|u|u|u] eqn:E;
    [done| |simpl; eauto..].
  exfalso. unfold unorm in Hnorm.
  destruct (nzhead (D0 u)) eqn:Hh; try discriminate.
  - by apply Hnz.
  - by apply (DecimalFacts.nzhead_nonzero (D0 u) u0).
Qed.

(** The numeral of a positive integer: digits, the first of them not
    [0], whose value is the integer. *)
Lemma number_to_string_pos (s : Z) :
  0 < s ->
  exists c ds,
    number_to_string s = String c ds /\
    is_digit c = true /\ Ascii.eqb c "0" = false /\
    Forall (fun x => is_digit x = true)
      (list_ascii_of_string (number_to_string s)) /\
    digits_value 0 (number_to_string s) = s.
Proof.
  intros Hs. destruct s as [|p|p]; [lia| |lia].
  unfold number_to_string. cbn [Z.to_int NilZero.string_of_int].
  destruct (to_uint_head p) as (c & ds & Hu & Hd & Hz).
  replace (NilZero.string_of_uint (Pos.to_uint p))
    with (NilEmpty.string_of_uint (Pos.to_uint p))
    by (by destruct (Pos.to_uint p)).
  exists c, ds. split; [done|]. split; [done|]. split; [done|].
  split; [apply uint_digits|].
  rewrite digits_value_uint, DecimalPos.Unsigned.of_to. done.
Qed.

Lemma digit_not_minus (c : ascii) :
  is_digit c = true -> Ascii.eqb c "-" = false.
Proof. destruct c as [[] [] [] [] [] [] [] []]; by vm_compute. Qed.

(** A numeral put together from its parts is read as the decimal it
    writes.  What follows it is [,] or [\]]. *)
Lemma parse_number_parts (negative : bool) (c0 : ascii) (more frac : string)
    (exp : option (bool * string)) (c : ascii) (k : string) :
  is_digit c0 = true ->
  Forall (fun x => is_digit x = true) (list_ascii_of_string more) ->
  (Ascii.eqb c0 "0" = false \/ more = EmptyString) ->
  Forall (fun x => is_digit x = true) (list_ascii_of_string frac) ->
  match exp with
  | Some (_, ds) =>
      ds <> EmptyString /\
      Forall (fun x => is_digit x = true) (list_ascii_of_string ds)
  | None => True
  end ->
  c = ","%char \/ c = "]"%char ->
  parse_number
    ((if negative then "-" else EmptyString)
     +:+ String c0 more
     +:+ match frac with
         | EmptyString => EmptyString
         | String _ _ => String "." frac
         end
     +:+ match exp with
         | Some (sign, ds) =>
             String "e" (String (if sign then "-" else "+")%char ds)
         | None => EmptyString
         end
     +:+ String c k)
  = Ok (Number.of_decimal negative
          (digits_value 0 (String c0 more +:+ frac))
          (match exp with
           | Some (sign, ds) =>
               if sign then - digits_value 0 ds else digits_value 0 ds
           | None => 0
           end - Z.of_nat (String.length frac)),
        String c k).
Proof.
  intros Hc0 Hmore Hzero Hfrac Hexp Hc.
  assert (Hcd : is_digit c = false) by (destruct Hc as [->| ->]; done).
  set (exp_text := match exp with
                   | Some (sign, ds) =>
                       String "e" (String (if sign then "-" else "+")%char ds)
                   | None => EmptyString
                   end).
  set (frac_text := match frac with
                    | EmptyString => EmptyString
                    | String _ _ => String "." frac
                    end).
  (* the exponent *)
  assert (Hex : parse_exponent (exp_text +:+ String c k)
                = Ok (match exp with
                      | Some (sign, ds) =>
                          if sign then - digits_value 0 ds
                          else digits_value 0 ds
                      | None => 0
                      end, String c k)).
  { unfold exp_text. destruct exp as [[sign ds]|].
    - destruct Hexp as [Hne Hds].
      cbn [String.append parse_exponent].
      change (Ascii.eqb "e" "e" || Ascii.eqb "e" "E") with true. cbv iota.
      destruct sign.
      + change (Ascii.eqb "-" "-") with true. cbv iota.
        rewrite span_digits_app by done. by destruct ds.
      + change (Ascii.eqb "+" "-") with false.
        change (Ascii.eqb "+" "+") with true. cbv iota.
        rewrite span_digits_app by done. by destruct ds.
    - cbn [String.append parse_exponent]. by destruct Hc as [->| ->]. }
  assert (Hexhead : exists x y, exp_text +:+ String c k = String x y /\
                      is_digit x = false /\ Ascii.eqb x "." = false).
  { unfold exp_text. destruct exp as [[sign ds]|].
    - by eexists _, _.
    - exists c, k. by destruct Hc as [->| ->]. }
  (* the fraction *)
  assert (Hfr : parse_fraction (frac_text +:+ exp_text +:+ String c k)
                = Ok (frac, exp_text +:+ String c k)).
  { unfold frac_text. destruct frac as [|f frac'].
    - destruct Hexhead as (x & y & -> & _ & Hdot).
      cbn [String.append parse_fraction]. by rewrite Hdot.
    - destruct Hexhead as (x & y & -> & Hx & _).
      cbn [String.append parse_fraction].
      change (Ascii.eqb "." ".") with true. cbv iota.
      change (String f (frac' +:+ String x y))
        with (String f frac' +:+ String x y).
      by rewrite span_digits_app. }
  assert (Hfrhead : exists x y,
            frac_text +:+ exp_text +:+ String c k = String x y /\
            is_digit x = false).
  { unfold frac_text. destruct frac as [|f frac'].
    - destruct Hexhead as (x & y & -> & Hx & _). by exists x, y.
    - by eexists _, _. }
  (* the integer part *)
  destruct Hfrhead as (x & y & Hrest & Hx).
  assert (Hint : span_digits (String c0 more +:+ String x y)
                 = (String c0 more, String x y)).
  { apply span_digits_app; [by constructor|done]. }
  assert (Hlz : Ascii.eqb c0 "0" && negb (String.eqb more EmptyString)
                = false).
  { destruct Hzero as [->| ->]; [done|]. by rewrite andb_false_r. }
  unfold parse_number.
  destruct negative.
  - cbn [String.append]. change (Ascii.eqb "-" "-") with true. cbv iota.
    change (String c0 (more +:+ ?r)) with (String c0 more +:+ r).
    rewrite Hrest, Hint, Hlz, <- Hrest, Hfr. cbn [mbind Result_bind fst snd].
    rewrite Hex. reflexivity.
  - cbn [String.append]. rewrite (digit_not_minus c0 Hc0).
    change (String c0 (more +:+ ?r)) with (String c0 more +:+ r).
    rewrite Hrest, Hint, Hlz, <- Hrest, Hfr. cbn [mbind Result_bind fst snd].
    rewrite Hex. reflexivity.
Qed.

Lemma of_decimal_scale (negative : bool) (s d : Z) :
  0 < s -> 0 <= d ->
  Number.of_decimal negative (s * 10 ^ d) 0 = Number.of_decimal negative s d.
Proof.
  intros Hs Hd. unfold Number.of_decimal.
  assert (0 < 10 ^ d) by (apply Z.pow_pos_nonneg; lia).
  destruct (Z.eqb_spec (s * 10 ^ d) 0); [nia|].
  destruct (Z.eqb_spec s 0); [lia|].
  rewrite (Z.max_l d 0), (Z.max_r (- d) 0) by lia.
  cbn [Z.opp Z.max Z.compare Z.pow Z.pow_pos Pos.iter]. by rewrite Z.mul_1_r.
Qed.

(** The text [Number::toString] writes for a positive decimal is read
    back as that decimal. *)
Lemma parse_number_format (negative : bool) (s d : Z) (c : ascii)
    (k : string) :
  0 < s -> c = ","%char \/ c = "]"%char ->
  parse_number
    (((if negative then "-" else EmptyString) +:+ format_decimal s d)
     +:+ String c k)
  = Ok (Number.of_decimal negative s d, String c k).
Proof.
  intros Hs Hc.
  destruct (number_to_string_pos s Hs) as (c0 & more & Hds & Hc0 & Hz & Hall & Hval).
  pose proof Hall as Hall'. rewrite Hds in Hall'.
  apply Forall_cons in Hall' as [_ Hmore].
  rewrite string_app_assoc. unfold format_decimal.
  rewrite Hds in Hval |- *. cbn [String.length].
  set (len := String.length more).
  replace (Z.of_nat (S len)) with (Z.of_nat len + 1) by lia.
  set (n := Z.of_nat len + 1 + d).
  assert (Hexp : n - 1 <> 0 ->
    exists x,
      number_to_string (Z.abs (n - 1)) = x /\ x <> EmptyString /\
      Forall (fun y => is_digit y = true) (list_ascii_of_string x) /\
      digits_value 0 x = Z.abs (n - 1)).
  { intros Hn. destruct (number_to_string_pos (Z.abs (n - 1)) ltac:(lia))
      as (x0 & xs & Hx & _ & _ & Hxa & Hxv).
    exists (number_to_string (Z.abs (n - 1))).
    split; [done|]. split; [by rewrite Hx|]. done. }
  assert (Hlen : len = String.length more) by done.
  clearbody len.
  destruct (decide (Z.of_nat len + 1 <= n <= 21)) as [HA|HA].
  { (* digits and zeros *)
    replace ((Z.of_nat len + 1 <=? n) && (n <=? 21)) with true
      by (symmetry; rewrite andb_true_iff, !Z.leb_le; lia).
    rewrite string_app_assoc.
    change (String c0 more +:+ ?r) with (String c0 (more +:+ r)).
    rewrite <- string_app_assoc.
    pose proof (parse_number_parts negative c0
                  (more +:+ zeros (Z.to_nat (n - (Z.of_nat len + 1))))
                  EmptyString None c k Hc0) as H.
    cbn [String.append] in H. cbn [String.append]. rewrite H; clear H.
    - f_equal. f_equal. cbn [String.length]. rewrite string_app_nil_r.
      change (String c0 (more +:+ ?r)) with (String c0 more +:+ r).
      rewrite digits_value_app, Hval, digits_value_zeros.
      rewrite Z.sub_0_r, Z2Nat.id by lia.
      replace (n - (Z.of_nat len + 1)) with d by lia.
      apply of_decimal_scale; lia.
    - apply app_digits; [done|apply zeros_digits].
    - by left.
    - constructor.
    - done.
    - done. }
  replace ((Z.of_nat len + 1 <=? n) && (n <=? 21)) with false
    by (symmetry; rewrite andb_false_iff, !Z.leb_gt; lia).
  destruct (decide (0 < n <= 21)) as [HB|HB].
  { (* digits, point, digits *)
    replace ((0 <? n) && (n <=? 21)) with true
      by (symmetry; rewrite andb_true_iff, Z.ltb_lt, Z.leb_le; lia).
    destruct (Z.to_nat n) as [|n'] eqn:Hn'; [lia|].
    cbn [take drop].
    destruct (drop n' more) as [|f frac'] eqn:Hfrac.
    { pose proof (drop_length n' more) as Hl. rewrite Hfrac in Hl.
      cbn in Hl. lia. }
    pose proof (parse_number_parts negative c0 (take n' more)
                  (String f frac') None c k Hc0) as H.
    cbn [String.append] in H.
    rewrite ?string_app_assoc. cbn [String.append].
    rewrite ?string_app_assoc. cbn [String.append]. rewrite H; clear H.
    - f_equal. f_equal.
      rewrite <- Hfrac.
      change (String c0 (take n' more +:+ ?r))
        with (String c0 (take n' more) +:+ r).
      change (String c0 (take n' more) +:+ drop n' more)
        with (String c0 (take n' more +:+ drop n' more)).
      rewrite take_drop, Hval. f_equal.
      rewrite drop_length. lia.
    - by apply take_digits.
    - by left.
    - rewrite <- Hfrac. by apply drop_digits.
    - done.
    - done. }
  replace ((0 <? n) && (n <=? 21)) with false
    by (symmetry; rewrite andb_false_iff, Z.ltb_ge, Z.leb_gt; lia).
  destruct (decide (-6 < n <= 0)) as [HC|HC].
  { (* zero, point, zeros, digits *)
    replace ((-6 <? n) && (n <=? 0)) with true
      by (symmetry; rewrite andb_true_iff, Z.ltb_lt, Z.leb_le; lia).
    set (z := Z.to_nat (- n)).
    assert (Hf : exists f frac',
              zeros z +:+ String c0 more = String f frac').
    { destruct z; by eexists _, _. }
    destruct Hf as (f & frac' & Hf).
    pose proof (parse_number_parts negative "0" EmptyString
                  (String f frac') None c k eq_refl) as H.
    cbn [String.append] in H.
    rewrite Hf. rewrite ?string_app_assoc. cbn [String.append].
    rewrite H; clear H.
    - f_equal. f_equal. f_equal.
      + change (digits_value 0 (String "0" (String f frac')))
          with (digits_value 0 (String f frac')).
        rewrite <- Hf, digits_value_app, digits_value_zeros, Z.mul_0_l.
        exact Hval.
      + rewrite <- Hf, string_app_length, zeros_length. cbn [String.length].
        lia.
    - constructor.
    - by right.
    - rewrite <- Hf. apply app_digits; [apply zeros_digits|].
      by rewrite <- Hds.
    - done.
    - done. }
  replace ((-6 <? n) && (n <=? 0)) with false
    by (symmetry; rewrite andb_false_iff, Z.ltb_ge, Z.leb_gt; lia).
  (* exponent notation *)
  destruct (Hexp ltac:(lia)) as (x & Hx & Hxne & Hxd & Hxv).
  rewrite Hx.
  set (sign := negb (0 <? n - 1)).
  assert (Hsign : (if 0 <? n - 1 then "+" else "-") +:+ x
                  = String (if sign then "-" else "+")%char x).
  { unfold sign. by destruct (0 <? n - 1). }
  assert (Hvalue : (if sign then - digits_value 0 x else digits_value 0 x)
                   = n - 1).
  { unfold sign. rewrite Hxv. destruct (Z.ltb_spec 0 (n - 1)); cbn; lia. }
  destruct (Z.eqb_spec (Z.of_nat len + 1) 1) as [Hk1|Hk1].
  - assert (more = EmptyString) as -> by (destruct more; [done|cbn in Hlen; lia]).
    pose proof (parse_number_parts negative c0 EmptyString EmptyString
                  (Some (sign, x)) c k Hc0) as H.
    cbn [String.append] in H.
    rewrite Hsign. rewrite ?string_app_assoc. cbn [String.append].
    rewrite H; clear H; [|done|by right|done|done|done].
    f_equal. f_equal. f_equal; [done|]. rewrite Hvalue. cbn [String.length]. lia.
  - destruct more as [|f frac']; [cbn in Hlen; lia|].
    cbn [take drop].
    pose proof (parse_number_parts negative c0 EmptyString (String f frac')
                  (Some (sign, x)) c k Hc0) as H.
    cbn [String.append] in H.
    rewrite Hsign. rewrite ?string_app_assoc. cbn [String.append].
    rewrite ?string_app_assoc. cbn [String.append].
    rewrite H; clear H; [|done|by right|done|done|done].
    f_equal. f_equal. f_equal; [done|]. rewrite Hvalue.
    cbn [String.length] in Hlen |- *. lia.
Qed.

Lemma format_decimal_head (s d : Z) :
  0 < s ->
  exists c r, format_decimal s d = String c r /\ is_digit c = true.
Proof.
  intros Hs.
  destruct (number_to_string_pos s Hs) as (c0 & more & Hds & Hc0 & _).
  unfold format_decimal. rewrite Hds. cbn [String.length].
  set (k := Z.of_nat (S (String.length more))).
  assert (0 < k) by lia.
  repeat case_match; try (by eexists _, _).
  - destruct (Z.to_nat (k + d)) eqn:E; [|by eexists _, _].
    exfalso.
    match goal with
    | H : (0 <? k + d) && _ = true |- _ =>
        apply andb_true_iff in H as [H _]; apply Z.ltb_lt in H
    end. lia.
Qed.

(** A numeral starts with a digit or [-]; [parse_value] then reads a
    number. *)
Lemma Number_toString_head (x : Number.t) :
  Number.is_finite x = true ->
  exists c r, Number_toString x = String c r /\
              (is_digit c || Ascii.eqb c "-") = true.
Proof.
  destruct x as [| |negative|negative m e]; intros Hx; try discriminate.
  - by exists "0"%char, EmptyString.
  - cbn [Number_toString].
    destruct (Number.to_decimal m e) as [s d] eqn:Hsd.
    pose proof (to_decimal_pos m e) as Hs. rewrite Hsd in Hs. cbn in Hs.
    destruct negative; [by eexists _, _|].
    destruct (format_decimal_head s d Hs) as (c & r & Hf & Hc).
    exists c, r. cbn [String.append]. by rewrite Hc.
Qed.

(** The text of a finite Number is read as the Number value of the
    digits it writes. *)
Lemma parse_number_toString (x : Number.t) (c : ascii) (k : string) :
  Number.is_finite x = true -> c = ","%char \/ c = "]"%char ->
  exists y,
    parse_number (Number_toString x +:+ String c k) = Ok (y, String c k) /\
    reread (JNumber x) = JNumber y.
Proof.
  destruct x as [| |negative|negative m e]; intros Hx Hc; try discriminate.
  - exists (Number.Zero false). split; [|done].
    pose proof (parse_number_parts false "0" EmptyString EmptyString None c k
                  eq_refl) as H.
    cbn [String.append] in H. cbn [Number_toString String.append].
    rewrite H; [done|constructor|by right|constructor|done|done].
  - eexists. split; [|reflexivity].
    cbn [Number_toString].
    destruct (Number.to_decimal m e) as [s d] eqn:Hsd.
    pose proof (to_decimal_pos m e) as Hs. rewrite Hsd in Hs.
    cbn [fst snd] in Hs |- *.
    by apply parse_number_format.
Qed.

Lemma parse_value_numeric (fuel : nat) (c : ascii) (r : string) :
  (is_digit c || Ascii.eqb c "-") = true ->
  parse_value (S fuel) (String c r) =
    match parse_number (String c r) with
    | Ok (n, rest) => Ok (JNumber n, rest)
    | Throw e => Throw e
    end.
Proof.
  destruct c as [[] [] [] [] [] [] [] []]; intros H;
    try (by vm_compute in H); reflexivity.
Qed.

Lemma numeric_head_plain (c : ascii) :
  (is_digit c || Ascii.eqb c "-") = true ->
  is_ws c = false /\ Ascii.eqb c "]" = false.
Proof. destruct c as [[] [] [] [] [] [] [] []]; by vm_compute. Qed.

(** The text of a primitive starts with a character that is neither
    white space nor [']']. *)
Lemma stringify_head (v : JsValue) :
  is_primitive v = true ->
  exists c r, stringify v = String c r /\
              is_ws c = false /\ Ascii.eqb c "]" = false.
Proof.
  destruct v as [|[]|x|s| |]; intros Hv; try discriminate;
    try (by eexists _, _).
  cbn [stringify]. destruct (Number.is_finite x) eqn:Hx; [|by eexists _, _].
  destruct (Number_toString_head x Hx) as (c & r & Hn & Hc).
  exists c, r. split; [done|]. by apply numeric_head_plain.
Qed.

(** A primitive is read back as [reread] describes: as itself, but for
    the Numbers that JSON does not write exactly. *)
Lemma parse_value_primitive (fuel : nat) (v : JsValue) (c : ascii)
    (k : string) :
  is_primitive v = true -> c = ","%char \/ c = "]"%char ->
  parse_value (S fuel) (stringify v +:+ String c k)
  = Ok (reread v, String c k).
Proof.
  intros Hv Hc. destruct v as [|[]|x|s| |]; try discriminate; try reflexivity.
  - cbn [stringify]. destruct (Number.is_finite x) eqn:Hx.
    + destruct (Number_toString_head x Hx) as (c0 & r & Hn & Hc0).
      destruct (parse_number_toString x c k Hx Hc) as (y & Hparse & ->).
      rewrite Hn in Hparse |- *.
      change (String c0 r +:+ String c k) with (String c0 (r +:+ String c k))
        in Hparse |- *.
      rewrite parse_value_numeric by done. by rewrite Hparse.
    + by destruct x.
  - cbn [stringify]. unfold quote.
    change (String dquote (quote_body s +:+ String dquote EmptyString)
              +:+ String c k)
      with (String dquote
              ((quote_body s +:+ String dquote EmptyString) +:+ String c k)).
    rewrite string_app_assoc.
    change (String dquote EmptyString +:+ String c k)
      with (String dquote (String c k)).
    change (parse_value (S fuel)
              (String dquote (quote_body s +:+ String dquote (String c k))))
      with (match parse_string_body
                    (quote_body s +:+ String dquote (String c k)) with
            | Ok (str, rest) => Ok (JString str, rest)
            | Throw e => Throw e
            end).
    by rewrite parse_string_body_quote.
Qed.

(** What is read back is a primitive again. *)
Lemma reread_primitive (v : JsValue) :
  is_primitive v = true -> is_primitive (reread v) = true.
Proof. by destruct v as [| |[]| | |]. Qed.

(** A JSON primitive is read back as itself, [-0] as [0]. *)
Lemma reread_json (v : JsValue) :
  is_json v = true ->
  strict_equals (reread v) v = true /\
  (v <> JNumber (Number.Zero true) -> reread v = v).
Proof.
  destruct v as [|b|x|s| |]; intros Hv; try discriminate.
  - done.
  - split; [|done]. by destruct b.
  - destruct x as [| |negative|negative m e]; try discriminate.
    + split; [done|]. by destruct negative.
    + cbn in Hv. cbn [reread].
      rewrite of_decimal_to_decimal by done.
      split; [|done]. cbn. by rewrite bool_decide_eq_true_2.
  - split; [|done]. cbn. apply String.eqb_refl.
Qed.

Lemma json_exact_spec (v : JsValue) :
  json_exact v = true ->
  is_primitive v = true /\ is_json v = true /\
  v <> JNumber (Number.Zero true).
Proof. destruct v as [| |[| |[]|]| | |]; done. Qed.

Lemma reread_exact (vs : list JsValue) :
  Forall (fun v => json_exact v = true) vs -> reread <$> vs = vs.
Proof.
  induction 1 as [|v vs Hv _ IH]; [done|].
  destruct (json_exact_spec v Hv) as (_ & Hj & Hz).
  destruct (reread_json v Hj) as [_ Hsame].
  cbn [fmap list_fmap]. by rewrite Hsame, IH.
Qed.

Lemma join_cons (sep x y : string) (l : list string) :
  join sep (x :: y :: l) = x +:+ sep +:+ join sep (y :: l).
Proof. reflexivity. Qed.

Lemma parse_elements_S (fuel : nat) (s : string) :
  parse_elements (S fuel) s =
    match parse_value fuel s with
    | Ok (v, r) =>
        match skip_ws r with
        | String c r1 =>
            if Ascii.eqb c "," then
              match parse_elements fuel r1 with
              | Ok (vs, rest) => Ok (v :: vs, rest)
              | Throw e => Throw e
              end
            else if Ascii.eqb c "]" then Ok ([v], r1)
            else Throw SyntaxError
        | EmptyString => Throw SyntaxError
        end
    | Throw e => Throw e
    end.
Proof. reflexivity. Qed.

Lemma parse_elements_primitives (vs : list JsValue) (fuel : nat)
    (k : string) :
  vs <> [] -> Forall (fun v => is_primitive v = true) vs ->
  (length vs < fuel)%nat ->
  parse_elements fuel (join "," (map stringify vs) +:+ String "]" k)
  = Ok (reread <$> vs, k).
Proof.
  intros Hne Hall. revert fuel.
  induction Hall as [|v vs Hv Hall IH]; [done|]. intros fuel Hfuel.
  destruct fuel as [|[|fuel]]; [cbn in Hfuel; lia..|].
  rewrite parse_elements_S.
  destruct vs as [|v' vs].
  - change (join "," (map stringify [v])) with (stringify v).
    rewrite parse_value_primitive by auto. reflexivity.
  - change (map stringify (v :: v' :: vs))
      with (stringify v :: stringify v' :: map stringify vs).
    rewrite join_cons, string_app_assoc.
    change ("," +:+ join "," (stringify v' :: map stringify vs))
      with (String "," (join "," (map stringify (v' :: vs)))).
    change (String "," (join "," (map stringify (v' :: vs))) +:+ String "]" k)
      with (String "," (join "," (map stringify (v' :: vs)) +:+ String "]" k)).
    rewrite parse_value_primitive by auto.
    change (skip_ws (String "," ?x)) with (String "," x).
    cbv beta iota. change (Ascii.eqb "," ",") with true. cbv iota.
    rewrite IH; [done|done|]. cbn in Hfuel |- *. lia.
Qed.

Lemma join_length (vs : list JsValue) :
  Forall (fun v => is_primitive v = true) vs ->
  (length vs <= String.length (join "," (map stringify vs)))%nat.
Proof.
  induction 1 as [|v vs Hv Hall IH]; [done|].
  destruct (stringify_head v Hv) as (c & r & Hs & _).
  destruct vs as [|v' vs].
  - change (join "," (map stringify [v])) with (stringify v).
    rewrite Hs. cbn. lia.
  - change (map stringify (v :: v' :: vs))
      with (stringify v :: stringify v' :: map stringify vs).
    rewrite join_cons, Hs, !string_app_length.
    change (map stringify (v' :: vs))
      with (stringify v' :: map stringify vs) in IH.
    cbn [String.length length] in IH |- *. lia.
Qed.

(** [JSON.parse] reads the text of an array of primitives as the array
    of what [reread] makes of them. *)
Lemma parse_stringify_array (vs : list JsValue) :
  Forall (fun v => is_primitive v = true) vs ->
  parse (stringify (JArray vs)) = Ok (JArray (reread <$> vs)).
Proof.
  intros Hall. destruct vs as [|v vs]; [reflexivity|].
  unfold parse. cbn [stringify].
  set (body := join "," (map stringify (v :: vs))).
  assert (Hlen : (length (v :: vs) <= String.length body)%nat)
    by by apply join_length.
  assert (Hhead : exists c r, body = String c r /\
                    is_ws c = false /\ Ascii.eqb c "]" = false).
  { inversion Hall as [|? ? Hv _]; subst.
    destruct (stringify_head v Hv) as (c & r & Hs & Hws & Hb).
    unfold body. destruct vs as [|v' vs].
    - exists c, r. by rewrite <- Hs.
    - change (map stringify (v :: v' :: vs))
        with (stringify v :: stringify v' :: map stringify vs).
      rewrite join_cons, Hs. by eexists _, _. }
  destruct Hhead as (c & r & Hbody & Hws & Hb).
  change ("[" +:+ body +:+ "]") with (String "[" (body +:+ "]")).
  cbn [String.length parse_value].
  change (skip_ws (String "[" ?x)) with (String "[" x). cbv beta iota.
  change (Ascii.eqb "[" "n") with false.
  change (Ascii.eqb "[" "t") with false.
  change (Ascii.eqb "[" "f") with false.
  change (Ascii.eqb "[" dquote) with false.
  change (Ascii.eqb "[" "[") with true. cbv iota.
  replace (skip_ws (body +:+ "]")) with (String c (r +:+ "]"))
    by (rewrite Hbody; cbn [String.append skip_ws]; by rewrite Hws).
  rewrite Hb.
  change (body +:+ "]") with (body +:+ String "]" EmptyString).
  unfold body. rewrite parse_elements_primitives; [done|done|done|].
  fold body. rewrite string_app_length. cbn [String.length]. lia.
Qed.

End JSONFacts.

(** ** The disclosure codec *)

Lemma base64url_decode_encode (bs : list ascii) :
  base64url_decode (base64url_encode bs) = bs.
Proof. apply base64_decode_encode. by right. Qed.

Lemma utf8_decode_encode (s : string) : utf8_decode (utf8_encode s) = s.
Proof. apply string_of_list_ascii_of_string. Qed.

(** Claim C7, as the code has it: parsing an encoded disclosure gives
    back the triple of the base64url-rendered 16-byte salt, the claim name
    and the value, for every primitive JSON value: [null], a boolean, a
    string or a finite Number, with or without a fraction or an exponent.
    The value comes back as it was, with one exception: [-0], which
    [JSON.stringify] writes as [0], comes back as [0].  What comes back is
    always equal to the value under [===]. *)
Theorem disclosure_codec_roundtrip (salt : list ascii) (n : string)
    (v : JsValue) :
  length salt = SALT_BYTE_SIZE -> is_json v = true ->
  exists v',
    parseDisclosure
      (encodeDisclosure [JString (base64url_encode salt); JString n; v])
    = Ok (JArray [JString (base64url_encode salt); JString n; v']) /\
    strict_equals v' v = true /\
    (v <> JNumber (Number.Zero true) -> v' = v) /\
    (v = JNumber (Number.Zero true) -> v' = JNumber (Number.Zero false)).
Proof.
  intros _ Hv. exists (JSON.reread v).
  destruct (reread_json v Hv) as [Heq Hsame].
  split; [|split; [done|split; [done|by intros ->]]].
  unfold parseDisclosure, encodeDisclosure.
  rewrite base64url_decode_encode, utf8_decode_encode.
  rewrite parse_stringify_array
    by (repeat constructor; by destruct v as [| |[]| | |]).
  reflexivity.
Qed.

(** At the value [-0.1], the double [-7205759403792794 * 2^-56]. *)
Lemma disclosure_codec_roundtrip_witness :
  parseDisclosure
    (encodeDisclosure
       [JString (base64url_encode (repeat "007"%char 16)); JString "fname";
        JNumber (Number.Finite true 7205759403792794 (-56))])
  = Ok (JArray [JString (base64url_encode (repeat "007"%char 16));
                JString "fname";
                JNumber (Number.Finite true 7205759403792794 (-56))]).
Proof.
  destruct (disclosure_codec_roundtrip (repeat "007"%char 16) "fname"
              (JNumber (Number.Finite true 7205759403792794 (-56))))
    as (v' & Hparse & _ & Hsame & _); [reflexivity..|].
  rewrite Hparse, Hsame; done.
Defined.

(** The claim as stated fails at [-0], a primitive JSON value (it is what
    [JSON.parse] reads from the text [-0]): the triple that comes back
    holds [0]. *)
Lemma negative_zero_not_restored :
  is_json (JNumber (Number.Zero true)) = true /\
  parseDisclosure
    (encodeDisclosure
       [JString (base64url_encode (repeat "007"%char 16)); JString "balance";
        JNumber (Number.Zero true)])
  = Ok (JArray [JString (base64url_encode (repeat "007"%char 16));
                JString "balance"; JNumber (Number.Zero false)]) /\
  JSON.parse "-0" = Ok (JNumber (Number.Zero true)) /\
  JNumber (Number.Zero false) <> JNumber (Number.Zero true).
Proof.
  split; [reflexivity|]. split; [by vm_compute|].
  split; [by vm_compute|discriminate].
Qed.

(** ** [split] and [join] *)

Lemma split_nonempty (sep : ascii) (s : string) : split sep s <> [].
Proof.
  destruct s as [|c r]; [done|]. cbn [split].
  destruct (Ascii.eqb c sep); [done|]. by destruct (split sep r).
Qed.

Lemma split_no_sep (sep : ascii) (s : string) :
  ~ In sep (list_ascii_of_string s) -> split sep s = [s].
Proof.
  induction s as [|c r IH]; [done|]. cbn [split list_ascii_of_string].
  intros Hn. destruct (Ascii.eqb_spec c sep) as [->|Hc].
  - exfalso. apply Hn. by left.
  - rewrite IH; [done|]. intros Hin. apply Hn. by right.
Qed.

Lemma split_app (sep : ascii) (a b : string) :
  ~ In sep (list_ascii_of_string a) ->
  split sep (a +:+ String sep b) = a :: split sep b.
Proof.
  induction a as [|c r IH]; cbn [split list_ascii_of_string String.append].
  - intros _. by rewrite Ascii.eqb_refl.
  - intros Hn. destruct (Ascii.eqb_spec c sep) as [->|Hc].
    + exfalso. apply Hn. by left.
    + rewrite IH; [done|]. intros Hin. apply Hn. by right.
Qed.

Lemma split_has_sep (sep : ascii) (s : string) :
  In sep (list_ascii_of_string s) -> (1 < length (split sep s))%nat.
Proof.
  induction s as [|c r IH]; [done|]. cbn [split list_ascii_of_string].
  intros Hin. destruct (Ascii.eqb_spec c sep) as [->|Hc].
  - pose proof (split_nonempty sep r). destruct (split sep r); [done|cbn; lia].
  - destruct Hin as [E|Hin]; [done|]. specialize (IH Hin).
    destruct (split sep r); cbn in *; lia.
Qed.

(** Splitting a joined list gives the list back when no element contains
    the separator. *)
Lemma split_join (sep : ascii) (l : list string) :
  l <> [] ->
  Forall (fun s => ~ In sep (list_ascii_of_string s)) l ->
  split sep (join (String sep EmptyString) l) = l.
Proof.
  intros Hne Hall. induction Hall as [|s l Hs Hall IH]; [done|].
  destruct l as [|s' l].
  - by apply split_no_sep.
  - change (join (String sep EmptyString) (s :: s' :: l))
      with (s +:+ String sep (join (String sep EmptyString) (s' :: l))).
    rewrite split_app by done. by rewrite IH.
Qed.

(** ** [discloseClaims] *)

Lemma filter_disclosures_nil (disclosures : list string) :
  Forall (fun d => exists v, parseDisclosure d = Ok v) disclosures ->
  filter_disclosures [] disclosures = Ok [].
Proof.
  induction 1 as [|d ds [v Hv] Hall IH]; [done|].
  cbn [filter_disclosures]. rewrite Hv, IH. cbn.
  unfold includes. destruct (js_index v DisclosureArray.NAME) as [[]|]; try done.
Qed.

(** Claim C4, as the code has it.  An input without [~] is rejected for
    every reveal set.  On [jws ~ tail] whose segments all parse as
    disclosures, an empty reveal set gives the JWS followed by one [~]:
    the separator is appended before the (empty) list of kept disclosures
    is joined. *)
Theorem discloseClaims_empty_reveal (jws tail_ : string) (claims : list string) :
  ~ In "~"%char (list_ascii_of_string jws) ->
  discloseClaims jws claims = Throw (Error "No Disclosures found in SD-JWT") /\
  (Forall (fun d => exists v, parseDisclosure d = Ok v) (split "~" tail_) ->
   discloseClaims (jws +:+ String "~" tail_) [] = Ok (jws +:+ "~")).
Proof.
  intros Hjws. split.
  - unfold discloseClaims. by rewrite split_no_sep.
  - intros Hall. unfold discloseClaims. rewrite split_app by done.
    pose proof (split_nonempty "~" tail_) as Hne.
    destruct (split "~" tail_) as [|d ds] eqn:E; [done|].
    cbn [length Nat.leb hd tail].
    by rewrite filter_disclosures_nil.
Qed.

Lemma discloseClaims_empty_reveal_witness :
  discloseClaims "jws" ["fname"] = Throw (Error "No Disclosures found in SD-JWT") /\
  discloseClaims ("jws" +:+ String "~" "WyJjMkZzZEEiLCJmbmFtZSIsIkpvaG4iXQ") []
  = Ok ("jws" +:+ "~").
Proof.
  destruct (discloseClaims_empty_reveal "jws"
              "WyJjMkZzZEEiLCJmbmFtZSIsIkpvaG4iXQ" ["fname"]) as [H1 H2].
  - vm_compute. intros [H|[H|[H|[]]]]; discriminate H.
  - split; [exact H1|]. apply H2.
    constructor; [|constructor]. eexists. vm_compute. reflexivity.
Defined.

(** The claim as stated fails.  With an empty reveal set the result keeps
    a trailing [~] and is not the bare JWS; and that result, which contains
    a [~], is itself rejected: its empty tail segment is handed to
    [JSON.parse]. *)
Lemma discloseClaims_trailing_separator :
  In "~"%char (list_ascii_of_string "jws~WyJjMkZzZEEiLCJmbmFtZSIsIkpvaG4iXQ") /\
  discloseClaims "jws~WyJjMkZzZEEiLCJmbmFtZSIsIkpvaG4iXQ" [] = Ok "jws~" /\
  discloseClaims "jws~WyJjMkZzZEEiLCJmbmFtZSIsIkpvaG4iXQ" [] <> Ok "jws" /\
  discloseClaims "jws~" [] = Throw SyntaxError.
Proof.
  split; [cbn; tauto|]. split; [by vm_compute|]. split; by vm_compute.
Qed.

(** ** Issuance: [createDisclosures] *)

Section IssuanceFacts.
Variable createHash : string -> option (list ascii -> list ascii).
Variable randomBytes : nat -> nat -> list ascii.

Lemma encodeDisclosure_no_tilde (disclosureArray : list JsValue) :
  ~ In "~"%char (list_ascii_of_string (encodeDisclosure disclosureArray)).
Proof. apply base64_encode_no_tilde. by right. Qed.

(** What a completed loop returns: one disclosure and one digest per
    entry, each digest that of its disclosure, no disclosure containing
    the separator. *)
Lemma disclosure_loop_ok (hashAlg : string) (entries : list (string * JsValue)) :
  forall (i : nat) (ds dgs : list string),
  disclosure_loop createHash randomBytes hashAlg i entries = Ok (ds, dgs) ->
  length ds = length entries /\ length dgs = length entries /\
  Forall2 (fun D dg => hashDisclosure createHash hashAlg D = Ok dg) ds dgs /\
  Forall (fun D => ~ In "~"%char (list_ascii_of_string D)) ds.
Proof.
  induction entries as [|[name value] rest IH]; intros i ds dgs Hloop.
  - injection Hloop as <- <-. repeat split; constructor.
  - cbn [disclosure_loop] in Hloop.
    destruct (String.eqb (typeof value) "object"); [done|].
    destruct (hashDisclosure createHash hashAlg _) as [dg|] eqn:Hdg; [|done].
    destruct (disclosure_loop createHash randomBytes hashAlg (S i) rest) as [[ds' dgs']|] eqn:Hrest;
      [|done].
    cbv [mbind Result_bind] in Hloop. cbn [fst snd] in Hloop.
    injection Hloop as <- <-.
    destruct (IH _ _ _ Hrest) as (H1 & H2 & H3 & H4).
    split; [cbn; lia|]. split; [cbn; lia|]. split; [by constructor|].
    constructor; [apply encodeDisclosure_no_tilde|done].
Qed.

(** The loop completes when the digest is supported and no value has
    [typeof] ["object"]. *)
Lemma disclosure_loop_succeeds (hashAlg : string)
    (entries : list (string * JsValue)) (i : nat) :
  is_Some (createHash (ianaToCryptoAlg hashAlg)) ->
  Forall (fun e => typeof e.2 <> "object") entries ->
  exists out, disclosure_loop createHash randomBytes hashAlg i entries = Ok out.
Proof.
  intros [h Hh] Hall. revert i.
  induction Hall as [|[name value] rest Hv Hall IH]; intros i; [by eexists|].
  cbn [disclosure_loop]. cbn in Hv.
  destruct (String.eqb_spec (typeof value) "object"); [done|].
  unfold hashDisclosure. rewrite Hh. cbn.
  destruct (IH (S i)) as [out ->]. by eexists.
Qed.

(** The loop stops with "Not yet implemented" at the first value whose
    [typeof] is ["object"]: an object, an array, or [null]. *)
Lemma disclosure_loop_object (hashAlg : string)
    (entries : list (string * JsValue)) (i : nat) :
  is_Some (createHash (ianaToCryptoAlg hashAlg)) ->
  Exists (fun e => typeof e.2 = "object") entries ->
  disclosure_loop createHash randomBytes hashAlg i entries = Throw (Error "Not yet implemented").
Proof.
  intros [h Hh] Hex. revert i.
  induction entries as [|[name value] rest IH]; intros i;
    [by apply Exists_nil in Hex|].
  cbn [disclosure_loop].
  destruct (String.eqb_spec (typeof value) "object") as [E|E]; [done|].
  apply Exists_cons in Hex as [Hex|Hex]; [done|].
  unfold hashDisclosure. rewrite Hh. cbn. by rewrite IH.
Qed.

Lemma elem_of_sort (x : string) (l : list string) : x ∈ sort l <-> x ∈ l.
Proof. unfold sort. by rewrite merge_sort_Permutation. Qed.

Lemma length_sort (l : list string) : length (sort l) = length l.
Proof. unfold sort. by rewrite merge_sort_Permutation. Qed.

Lemma Sorted_sort (l : list string) : Sorted String.le (sort l).
Proof. apply Sorted_merge_sort. apply _. Qed.

Lemma removeKeysFromObject_ok (locked : gset string)
    (obj obj' : gmap string JsValue) (keys : list string) :
  removeKeysFromObject locked obj keys = Ok obj' ->
  Forall (fun key => key ∉ locked) keys /\
  forall k, obj' !! k = if decide (k ∈ keys) then None else obj !! k.
Proof.
  revert obj. induction keys as [|key keys IH]; intros obj H.
  - injection H as <-. split; [constructor|]. intros k.
    by rewrite decide_False by apply not_elem_of_nil.
  - cbn [removeKeysFromObject] in H. unfold delete_property in H.
    case_bool_decide as Hkey; [done|]. cbn [mbind Result_bind] in H.
    destruct (IH _ H) as [Hall Hlook]. split; [by constructor|].
    intros k. rewrite Hlook, lookup_delete.
    destruct (decide (key = k)) as [->|Hne].
    + rewrite (decide_True (P := k ∈ k :: keys)) by apply list_elem_of_here.
      by destruct (decide (k ∈ keys)).
    + destruct (decide (k ∈ keys)) as [Hin|Hin].
      * by rewrite decide_True by by apply list_elem_of_further.
      * rewrite decide_False; [done|].
        intros [?|?]%elem_of_cons; [congruence|done].
Qed.

Lemma removeKeysFromObject_succeeds (locked : gset string)
    (obj : gmap string JsValue) (keys : list string) :
  Forall (fun key => key ∉ locked) keys ->
  exists obj', removeKeysFromObject locked obj keys = Ok obj'.
Proof.
  intros Hall. revert obj.
  induction Hall as [|key keys Hkey _ IH]; intros obj; [by eexists|].
  cbn [removeKeysFromObject]. unfold delete_property.
  rewrite bool_decide_eq_false_2 by done. apply IH.
Qed.

Lemma removeKeysFromObject_frozen (locked : gset string)
    (obj : gmap string JsValue) (keys : list string) :
  Exists (fun key => key ∈ locked) keys ->
  removeKeysFromObject locked obj keys = Throw TypeError.
Proof.
  intros Hex. revert obj.
  induction keys as [|key keys IH]; intros obj; [by inversion Hex|].
  cbn [removeKeysFromObject]. unfold delete_property.
  case_bool_decide as Hkey; [done|]. cbn [mbind Result_bind].
  apply IH. by inversion Hex.
Qed.

(** The shape of a successful call. *)
Lemma createDisclosures_ok (hashAlg : string)
    (claimValues : list (string * JsValue))
    (target target' : JwtCredentialPayload) (ds : list string) :
  createDisclosures createHash randomBytes hashAlg claimValues target = Ok (target', ds) ->
  exists dgs,
    disclosure_loop createHash randomBytes hashAlg 0 claimValues = Ok (ds, dgs) /\
    credentialSubject (vc target') !! "_sd"
    = Some (JArray (JString <$> sort dgs)) /\
    forall k, k <> "_sd" ->
      credentialSubject (vc target') !! k =
        if decide (k ∈ claimValues.*1) then None
        else credentialSubject (vc target) !! k.
Proof.
  unfold createDisclosures. intros H.
  destruct (disclosure_loop createHash randomBytes hashAlg 0 claimValues) as [[ds' dgs]|] eqn:Hloop;
    [|done].
  cbn [mbind Result_bind fst snd] in H.
  destruct (removeKeysFromObject _ _ _) as [subject|] eqn:Hrem; [|done].
  cbn [mbind Result_bind] in H. unfold defineProperty in H.
  case_bool_decide; [done|]. cbn [mbind Result_bind fst snd] in H.
  injection H as <- <-. exists dgs. split; [done|]. cbn [vc credentialSubject].
  split; [apply lookup_insert_eq|].
  intros k Hk. rewrite lookup_insert_ne by done.
  by apply removeKeysFromObject_ok in Hrem as [_ ->].
Qed.

Lemma createDisclosures_succeeds (hashAlg : string)
    (claimValues : list (string * JsValue)) (target : JwtCredentialPayload) :
  is_Some (createHash (ianaToCryptoAlg hashAlg)) ->
  Forall (fun e => typeof e.2 <> "object") claimValues ->
  Forall (fun key => key ∉ frozen (vc target)) ("_sd" :: claimValues.*1) ->
  exists out, createDisclosures createHash randomBytes hashAlg claimValues target = Ok out.
Proof.
  intros Hh Hall Hfree. unfold createDisclosures.
  destruct (disclosure_loop_succeeds hashAlg claimValues 0 Hh Hall) as [out ->].
  apply Forall_cons in Hfree as [Hsd Hnames].
  destruct (removeKeysFromObject_succeeds (frozen (vc target))
              (credentialSubject (vc target)) claimValues.*1 Hnames)
    as [subject Hrem].
  cbn [mbind Result_bind]. rewrite Hrem. cbn [mbind Result_bind].
  unfold defineProperty. rewrite bool_decide_eq_false_2 by done.
  by eexists.
Qed.

(** Claim C3, at a [null] value: [typeof null] is ["object"], so the
    guard meant for nested objects rejects the JSON primitive [null]. *)
Theorem createDisclosures_rejects_null (hashAlg : string)
    (target : JwtCredentialPayload) :
  is_primitive JNull = true /\
  createDisclosures createHash randomBytes hashAlg [("a", JNull)] target
  = Throw (Error "Not yet implemented").
Proof. split; reflexivity. Qed.

(** Claim C5: every disclosure in the [~]-separated tail of an issued
    SD-JWT has its digest, under the issuance algorithm, among the
    entries of [credentialSubject._sd]. *)
Theorem issued_disclosures_committed (hashAlg : string)
    (claimValues : list (string * JsValue))
    (target target' : JwtCredentialPayload) (ds : list string)
    (jws : string) :
  createDisclosures createHash randomBytes hashAlg claimValues target
  = Ok (target', ds) ->
  ~ In "~"%char (list_ascii_of_string jws) ->
  exists sd,
    credentialSubject (vc target') !! "_sd" = Some (JArray (JString <$> sd)) /\
    tail (split "~" (sd_jwt_wire jws ds)) = ds /\
    forall D, D ∈ tail (split "~" (sd_jwt_wire jws ds)) ->
      exists digest,
        hashDisclosure createHash hashAlg D = Ok digest /\ digest ∈ sd.
Proof.
  intros Hcreate Hjws.
  apply createDisclosures_ok in Hcreate as (dgs & Hloop & Hsubject & _).
  apply disclosure_loop_ok in Hloop as (_ & _ & Hdig & Htilde).
  exists (sort dgs). split; [exact Hsubject|].
  assert (Htail : tail (split "~" (sd_jwt_wire jws ds)) = ds).
  { unfold sd_jwt_wire. rewrite split_join; [done|done|by constructor]. }
  split; [done|]. rewrite Htail. intros D HD.
  apply list_elem_of_lookup in HD as [i Hi].
  destruct (Forall2_lookup_l _ _ _ _ _ Hdig Hi) as (dg & Hdg & HD).
  exists dg. split; [done|]. apply elem_of_sort.
  apply list_elem_of_lookup. by exists i.
Qed.

(** Claim C6, as the code has it: [_sd] holds one digest per hidden
    claim in ascending byte-wise order; a hidden name other than ["_sd"]
    is no longer a key of [credentialSubject]; a key that is neither
    hidden nor ["_sd"] keeps its value. *)
Theorem createDisclosures_subject (hashAlg : string)
    (claimValues : list (string * JsValue))
    (target target' : JwtCredentialPayload) (ds : list string) :
  createDisclosures createHash randomBytes hashAlg claimValues target
  = Ok (target', ds) ->
  (exists sd,
     credentialSubject (vc target') !! "_sd" = Some (JArray (JString <$> sd)) /\
     length sd = length claimValues /\ Sorted String.le sd) /\
  (forall name, name ∈ claimValues.*1 -> name <> "_sd" ->
     credentialSubject (vc target') !! name = None) /\
  (forall key, key ∉ claimValues.*1 -> key <> "_sd" ->
     credentialSubject (vc target') !! key =
     credentialSubject (vc target) !! key).
Proof.
  intros Hcreate.
  apply createDisclosures_ok in Hcreate as (dgs & Hloop & Hsubject & Hother).
  apply disclosure_loop_ok in Hloop as (_ & Hlen & _ & _).
  split; [|split].
  - exists (sort dgs). split; [exact Hsubject|].
    split; [by rewrite length_sort|apply Sorted_sort].
  - intros name Hin Hne. rewrite Hother by done. by rewrite decide_True.
  - intros key Hin Hne. rewrite Hother by done. by rewrite decide_False.
Qed.

End IssuanceFacts.

Lemma example_issuance :
  exists out,
    createDisclosures example_createHash example_randomBytes "ES256K"
      example_claimValues example_target = Ok out.
Proof.
  apply createDisclosures_succeeds; [by eexists| |].
  - repeat constructor; discriminate.
  - repeat constructor; apply not_elem_of_empty.
Qed.

Lemma issued_disclosures_committed_witness :
  exists target' ds sd,
    createDisclosures example_createHash example_randomBytes "ES256K"
      example_claimValues example_target = Ok (target', ds) /\
    credentialSubject (vc target') !! "_sd" = Some (JArray (JString <$> sd)) /\
    tail (split "~" (sd_jwt_wire "e30.e30.c2ln" ds)) = ds /\
    forall D, D ∈ tail (split "~" (sd_jwt_wire "e30.e30.c2ln" ds)) ->
      exists digest,
        hashDisclosure example_createHash "ES256K" D = Ok digest /\ digest ∈ sd.
Proof.
  destruct example_issuance as [[target' ds] Hout].
  destruct (issued_disclosures_committed example_createHash
              example_randomBytes "ES256K" example_claimValues example_target
              target' ds "e30.e30.c2ln" Hout) as (sd & H).
  - vm_compute. intuition discriminate.
  - by exists target', ds, sd.
Defined.

Lemma createDisclosures_subject_witness :
  exists target' ds,
    createDisclosures example_createHash example_randomBytes "ES256K"
      example_claimValues example_target = Ok (target', ds) /\
    (exists sd,
       credentialSubject (vc target') !! "_sd" = Some (JArray (JString <$> sd)) /\
       length sd = length example_claimValues /\ Sorted String.le sd) /\
    credentialSubject (vc target') !! "fname" = None /\
    credentialSubject (vc target') !! "nationalId" =
      Some (JString "ajj3i23293f290").
Proof.
  destruct example_issuance as [[target' ds] Hout].
  destruct (createDisclosures_subject example_createHash example_randomBytes
              "ES256K" example_claimValues example_target target' ds Hout)
    as (Hsd & Hhidden & Hkept).
  exists target', ds. split; [exact Hout|]. split; [exact Hsd|]. split.
  - apply Hhidden; [|done]. apply list_elem_of_here.
  - rewrite Hkept; [done| |done]. vm_compute.
    intros H. repeat (apply elem_of_cons in H as [H|H]; [discriminate H|]).
    by apply elem_of_nil in H.
Defined.

(** The claim as stated fails around the reserved name ["_sd"], under
    which the array of digests is stored: a hidden claim of that name is
    still a key of [credentialSubject] afterwards, and a member of that
    name that was not hidden does not keep its value. *)
Lemma hidden_sd_name_remains :
  (exists target' ds,
     createDisclosures example_createHash example_randomBytes "ES256K"
       [("_sd", JString "x")] example_target = Ok (target', ds) /\
     ("_sd" ∈ [("_sd", JString "x")].*1) /\
     is_Some (credentialSubject (vc target') !! "_sd")) /\
  (exists target' ds,
     createDisclosures example_createHash example_randomBytes "ES256K"
       [("fname", JString "John")] example_target_sd = Ok (target', ds) /\
     ("_sd" ∉ [("fname", JString "John")].*1) /\
     credentialSubject (vc example_target_sd) !! "_sd" = Some (JString "kept") /\
     credentialSubject (vc target') !! "_sd" <> Some (JString "kept")).
Proof.
  split.
  - destruct (createDisclosures_succeeds example_createHash example_randomBytes
                "ES256K" [("_sd", JString "x")] example_target)
      as [[target' ds] Hout];
      [by eexists|repeat constructor; discriminate|
       repeat constructor; apply not_elem_of_empty|].
    exists target', ds. split; [exact Hout|]. split; [apply list_elem_of_here|].
    apply createDisclosures_ok in Hout as (dgs & _ & -> & _).
    by eexists.
  - destruct (createDisclosures_succeeds example_createHash example_randomBytes
                "ES256K" [("fname", JString "John")] example_target_sd)
      as [[target' ds] Hout];
      [by eexists|repeat constructor; discriminate|
       repeat constructor; apply not_elem_of_empty|].
    exists target', ds. split; [exact Hout|]. split.
    { intros [E|H]%elem_of_cons; [discriminate E|by apply elem_of_nil in H]. }
    split; [reflexivity|].
    apply createDisclosures_ok in Hout as (dgs & _ & -> & _).
    discriminate.
Qed.

(** ** RevocationList: serialization *)

Section SerializationFacts.
Import RevocationList.

Lemma byte_val_byte_of (z : Z) : byte_val (byte_of z) = z mod 256.
Proof.
  unfold byte_of. rewrite <- (byte_val_of (z mod 256)) at 2
    by (apply Z.mod_pos_bound; lia).
  unfold byte_of. by rewrite Z.mod_mod by lia.
Qed.

Lemma word_of_bytes_le_word_bytes_le (w : Z) :
  word_ok w -> word_of_bytes_le (word_bytes_le w) = w.
Proof.
  unfold word_ok, word_of_bytes_le, word_bytes_le. intros Hw.
  cbn [foldr]. rewrite !byte_val_byte_of.
  change (2 ^ 8) with 256. change (2 ^ 16) with 65536.
  change (2 ^ 24) with 16777216. change (2 ^ 32) with 4294967296.
  change (2 ^ 40) with 1099511627776.
  change (2 ^ 48) with 281474976710656.
  change (2 ^ 56) with 72057594037927936.
  change (2 ^ 64) with 18446744073709551616 in Hw.
  Z.div_mod_to_equations. lia.
Qed.

Lemma word_of_bytes_word_bytes (host : Endianness) (w : Z) :
  word_ok w -> word_of_bytes host (word_bytes host w) = w.
Proof.
  intros Hw. destruct host; cbn [word_of_bytes word_bytes].
  - by apply word_of_bytes_le_word_bytes_le.
  - rewrite rev_involutive. by apply word_of_bytes_le_word_bytes_le.
Qed.

Lemma words_cons (host : Endianness) (w : Z) (bs : list ascii) :
  words host (word_bytes host w ++ bs) =
    match words host bs with
    | Some ws => Some (word_of_bytes host (word_bytes host w) :: ws)
    | None => None
    end.
Proof. by destruct host. Qed.

Lemma words_buffer (host : Endianness) (a : list Z) :
  Forall word_ok a -> words host (buffer host a) = Some a.
Proof.
  induction 1 as [|w a Hw Hall IH]; [done|].
  unfold buffer in *. cbn [flat_map].
  rewrite words_cons, IH. by rewrite word_of_bytes_word_bytes.
Qed.

Variable host : Endianness.
Variable gzip : list ascii -> list ascii.
Variable ungzip : list ascii -> Result (list ascii).
Hypothesis ungzip_gzip : forall bs, ungzip (gzip bs) = Ok bs.

(** Claim C8: parsing a stringified list gives the list back, as words
    and hence as bytes of the buffer. *)
Theorem revocation_list_roundtrip (L : RevocationList.t) :
  Forall RevocationList.word_ok (RevocationList.bitArray L) ->
  exists L',
    RevocationList.parse host ungzip (RevocationList.stringify host gzip L)
    = Ok L' /\
    RevocationList.bitArray L' = RevocationList.bitArray L /\
    RevocationList.buffer host (RevocationList.bitArray L')
    = RevocationList.buffer host (RevocationList.bitArray L).
Proof.
  intros HL. exists L. split; [|done].
  unfold parse, stringify, Buffer_from_base64, btoa.
  rewrite base64_decode_encode by by left.
  rewrite ungzip_gzip. cbn. rewrite words_buffer by done. by destruct L.
Qed.

End SerializationFacts.

Lemma new_words_ok : Forall RevocationList.word_ok (RevocationList.bitArray RevocationList.new).
Proof.
  apply Forall_forall. intros w Hw.
  apply list_elem_of_In, repeat_spec in Hw. subst w.
  unfold RevocationList.word_ok. lia.
Qed.

Lemma revocation_list_roundtrip_witness :
  exists L',
    RevocationList.parse RevocationList.LittleEndian example_ungzip
      (RevocationList.stringify RevocationList.LittleEndian example_gzip
         RevocationList.new) = Ok L' /\
    RevocationList.bitArray L' = RevocationList.bitArray RevocationList.new /\
    RevocationList.buffer RevocationList.LittleEndian (RevocationList.bitArray L')
    = RevocationList.buffer RevocationList.LittleEndian
        (RevocationList.bitArray RevocationList.new).
Proof.
  apply (revocation_list_roundtrip RevocationList.LittleEndian example_gzip example_ungzip).
  - intros bs. reflexivity.
  - apply new_words_ok.
Defined.
(** The revocation scenario of the specification: revoke 42, serialize,
    parse, and read the neighbouring bits. *)
Example revocation_scenario :
  exists L L',
    RevocationList.revokeCredential RevocationList.new 42 = Ok L /\
    RevocationList.parse RevocationList.LittleEndian example_ungzip
      (RevocationList.stringify RevocationList.LittleEndian example_gzip L)
    = Ok L' /\
    RevocationList.getCredentialStatus L' 42 = Ok true /\
    RevocationList.getCredentialStatus L' 41 = Ok false /\
    RevocationList.getCredentialStatus L' 43 = Ok false.
Proof.
  eexists _, (RevocationList.mk (<[1999%nat := 2 ^ 42]> (repeat 0 2000%nat))).
  split; [reflexivity|]. by vm_compute.
Qed.

(** ** The revoke flow *)

Section RevokeFlowFacts.
Variable host : RevocationList.Endianness.
Variable gzip : list ascii -> list ascii.
Variable ungzip : list ascii -> Result (list ascii).
Variables DEFAULT_CONTEXT VERIFIABLE_CREDENTIAL now : string.
Variable http_get : string -> option StatusList.t.
Variable http_post : string -> CredentialPayload -> bool.

(** Whatever the credential and whatever the network does, the value
    returned to the caller is [false]: the only [return] follows the
    start of the promise chain and does not wait for it. *)
Lemma revokeCredentialSL21_returns_false (vc : VerifiableCredential)
    (issuerDID subjectDID : string) :
  (revokeCredentialSL21 host gzip ungzip DEFAULT_CONTEXT
     VERIFIABLE_CREDENTIAL now http_get http_post vc issuerDID subjectDID).1
  = false.
Proof. reflexivity. Qed.

(** No chain is started for a JWT string, a credential without
    [credentialStatus], or a status entry of another type. *)
Lemma revokeCredentialSL21_not_started (vc : VerifiableCredential)
    (issuerDID subjectDID : string) :
  match vc with
  | VC_JWT _ => True
  | VC_W3C None => True
  | VC_W3C (Some status) =>
      CredentialStatus.type status <> "StatusList2021Entry"
  end ->
  revokeCredentialSL21 host gzip ungzip DEFAULT_CONTEXT
    VERIFIABLE_CREDENTIAL now http_get http_post vc issuerDID subjectDID
  = (false, None).
Proof.
  destruct vc as [jwt|[status|]]; [done| |done]. intros Hne.
  unfold revokeCredentialSL21.
  by destruct (String.eqb_spec (CredentialStatus.type status)
                 "StatusList2021Entry").
Qed.

End RevokeFlowFacts.

(** Claim C1, where the flow succeeds: the list is fetched, bit 42 is
    set, the new list is published and the promise settles to [true], yet
    the call has returned [false]. *)
Theorem revokeCredentialSL21_success_returns_false :
  revokeCredentialSL21 RevocationList.LittleEndian example_gzip example_ungzip
    "https://www.w3.org/2018/credentials/v1" "VerifiableCredential"
    "2026-01-01T00:00:00.000Z" example_http_get example_http_post
    example_vc "did:example:issuer" "did:example:subject"
  = (false, Some true).
Proof. vm_compute. reflexivity. Qed.
(** * Further properties *)

(** ** RevocationList as a set of revoked indices *)

Section RevocationListSet.
Import RevocationList.

Lemma new_wf : wf new.
Proof.
  split; [reflexivity|]. apply Forall_forall. intros w Hw.
  apply list_elem_of_In, repeat_spec in Hw. subst w. unfold word_ok. lia.
Qed.

Lemma revokeCredential_ok (L : t) (i : Z) :
  wf L -> 0 <= i < 128000 ->
  exists L',
    revokeCredential L i = Ok L' /\ wf L' /\
    forall j, 0 <= j < 128000 ->
      getCredentialStatus L' j =
        if decide (i = j) then Ok true else getCredentialStatus L j.
Proof.
  intros HL Hi.
  destruct (getBitArrayValues_in_range L i HL Hi) as (w & Hw & _ & _).
  pose proof (revokeCredential_in_range L i w HL Hi Hw) as Hrev.
  eexists. split; [exact Hrev|]. split.
  - by eapply revokeCredential_wf.
  - intros j Hj. by apply getCredentialStatus_after_revoke.
Qed.

Lemma getCredentialStatus_ok (L : t) (j : Z) :
  wf L -> 0 <= j < 128000 -> exists b, getCredentialStatus L j = Ok b.
Proof.
  intros HL Hj.
  destruct (getBitArrayValues_in_range L j HL Hj) as (w & Hw & _ & _).
  eexists. by apply getCredentialStatus_in_range.
Qed.

Lemma fresh_status_false (i : Z) :
  0 <= i < 128000 -> getCredentialStatus new i = Ok false.
Proof.
  intros Hi.
  destruct (getBitArrayValues_in_range new i new_wf Hi) as (w & Hw & _ & _).
  rewrite (getCredentialStatus_in_range new i w new_wf Hi Hw).
  assert (w = 0) as ->.
  { apply list_elem_of_lookup_2, list_elem_of_In in Hw.
    by apply repeat_spec in Hw. }
  by rewrite Z.bits_0.
Qed.

(** A fresh list revokes nothing. *)
Theorem new_list_unrevoked (i : Z) :
  0 <= i < 128000 ->
  RevocationList.getCredentialStatus RevocationList.new i = Ok false.
Proof.
  intros Hi.
  destruct (getBitArrayValues_in_range new i new_wf Hi) as (w & Hw & _ & _).
  rewrite (getCredentialStatus_in_range new i w new_wf Hi Hw).
  assert (w = 0) as ->.
  { apply list_elem_of_lookup_2, list_elem_of_In in Hw.
    by apply repeat_spec in Hw. }
  by rewrite Z.bits_0.
Qed.

(** After any run of in-range revocations the list is still well formed
    and reports as revoked exactly the indices that were revoked before or
    during the run. *)
Theorem revoke_all_status (L : RevocationList.t) (indices : list Z) :
  RevocationList.wf L -> Forall (fun i => 0 <= i < 128000) indices ->
  exists L',
    revoke_all L indices = Ok L' /\ RevocationList.wf L' /\
    forall j, 0 <= j < 128000 ->
      exists b,
        RevocationList.getCredentialStatus L j = Ok b /\
        RevocationList.getCredentialStatus L' j
        = Ok (b || bool_decide (j ∈ indices)).
Proof.
  intros HL Hall. revert L HL.
  induction Hall as [|i indices Hi Hall IH]; intros L HL.
  - exists L. split; [done|]. split; [done|]. intros j Hj.
    destruct (getCredentialStatus_ok L j HL Hj) as [b Hb].
    exists b. split; [done|]. rewrite Hb. f_equal.
    rewrite bool_decide_eq_false_2 by apply not_elem_of_nil.
    by rewrite orb_false_r.
  - destruct (revokeCredential_ok L i HL Hi) as (L1 & Hrev & HL1 & Hstatus).
    destruct (IH L1 HL1) as (L' & Hrun & HL' & Hfinal).
    exists L'. split; [cbn [revoke_all]; by rewrite Hrev|]. split; [done|].
    intros j Hj. destruct (Hfinal j Hj) as (b1 & Hb1 & Hj').
    destruct (getCredentialStatus_ok L j HL Hj) as [b Hb].
    exists b. split; [done|]. rewrite Hj'. f_equal.
    rewrite (Hstatus j Hj) in Hb1.
    destruct (decide (i = j)) as [->|Hne].
    + injection Hb1 as <-.
      rewrite (bool_decide_eq_true_2 (j ∈ j :: indices))
        by apply list_elem_of_here.
      by rewrite orb_true_r.
    + assert (b1 = b) as -> by congruence.
      f_equal. apply bool_decide_ext. rewrite elem_of_cons.
      split; [by right | intros [?|?]; [congruence|done]].
Qed.

(** Revocations commute: the order of two calls does not show in the
    list. *)
Theorem revokeCredential_commute (L : RevocationList.t) (i j : Z) :
  RevocationList.wf L -> 0 <= i < 128000 -> 0 <= j < 128000 ->
  revoke_all L [i; j] = revoke_all L [j; i] /\
  exists L', revoke_all L [i; j] = Ok L'.
Proof.
  intros HL Hi Hj.
  destruct (getBitArrayValues_in_range L i HL Hi) as (wi & Hwi & _ & _).
  destruct (getBitArrayValues_in_range L j HL Hj) as (wj & Hwj & _ & _).
  pose proof (revokeCredential_in_range L i wi HL Hi Hwi) as Hri.
  pose proof (revokeCredential_in_range L j wj HL Hj Hwj) as Hrj.
  pose proof (revokeCredential_wf _ _ _ HL Hi Hri) as HLi.
  pose proof (revokeCredential_wf _ _ _ HL Hj Hrj) as HLj.
  assert (Hqi : 0 <= i / 64 < 2000).
  { split; [apply Z.div_pos; lia | apply Z.div_lt_upper_bound; lia]. }
  assert (Hqj : 0 <= j / 64 < 2000).
  { split; [apply Z.div_pos; lia | apply Z.div_lt_upper_bound; lia]. }
  assert (Hlen : length (bitArray L) = 2000%nat) by (by destruct HL).
  cbn [revoke_all]. rewrite Hri, Hrj. cbn [mbind Result_bind].
  destruct (decide (i / 64 = j / 64)) as [Hq|Hq].
  - rewrite <- Hq in Hwj. assert (wj = wi) as -> by congruence.
    rewrite (revokeCredential_in_range _ j
               (Z.lor wi (Z.shiftl 1 (i mod 64))) HLi Hj)
      by (cbn; rewrite <- Hq; apply list_lookup_insert_eq; lia).
    rewrite (revokeCredential_in_range _ i
               (Z.lor wi (Z.shiftl 1 (j mod 64))) HLj Hi)
      by (cbn; rewrite <- Hq; apply list_lookup_insert_eq; lia).
    cbn [bitArray mbind Result_bind]. rewrite <- Hq, !list_insert_insert_eq.
    split; [|by eexists]. do 3 f_equal.
    rewrite <- !Z.lor_assoc. f_equal. apply Z.lor_comm.
  - rewrite (revokeCredential_in_range _ j wj HLi Hj)
      by (cbn; rewrite list_lookup_insert_ne by lia; done).
    rewrite (revokeCredential_in_range _ i wi HLj Hi)
      by (cbn; rewrite list_lookup_insert_ne by lia; done).
    cbn [bitArray mbind Result_bind]. split; [|by eexists]. do 2 f_equal.
    apply list_insert_insert_ne. lia.
Qed.

(** Where a revocation lands: the word [1999 - i / 64] gains the bit
    [i mod 64]; the other words and the length are untouched. *)
Theorem revokeCredential_layout (L L' : RevocationList.t) (i : Z) :
  RevocationList.wf L -> 0 <= i < 128000 ->
  RevocationList.revokeCredential L i = Ok L' ->
  length (RevocationList.bitArray L') = length (RevocationList.bitArray L) /\
  (exists w,
     RevocationList.bitArray L !! Z.to_nat (1999 - i / 64) = Some w /\
     RevocationList.bitArray L' !! Z.to_nat (1999 - i / 64)
     = Some (Z.lor w (2 ^ (i mod 64)))) /\
  forall n, n <> Z.to_nat (1999 - i / 64) ->
    RevocationList.bitArray L' !! n = RevocationList.bitArray L !! n.
Proof.
  intros HL Hi Hrev.
  destruct (getBitArrayValues_in_range L i HL Hi) as (w & Hw & _ & _).
  rewrite (revokeCredential_in_range L i w HL Hi Hw) in Hrev.
  injection Hrev as <-. cbn [bitArray].
  split; [apply length_insert|]. split.
  - exists w. split; [done|]. rewrite <- Z.shiftl_1_l.
    apply list_lookup_insert_eq. by eapply lookup_lt_Some.
  - intros n Hn. by apply list_lookup_insert_ne.
Qed.

(** The three outcomes of [revokeCredential] on a well-formed list,
    by index: success exactly on [0 .. 127999], the range error exactly
    below 0 and above 128000, and a [TypeError] exactly at 128000. *)
Theorem revokeCredential_outcome (L : RevocationList.t) (i : Z) :
  RevocationList.wf L ->
  ((exists L', RevocationList.revokeCredential L i = Ok L')
   <-> 0 <= i < 128000) /\
  (RevocationList.revokeCredential L i = Throw RevocationList.out_of_range
   <-> i < 0 \/ 128000 < i) /\
  (RevocationList.revokeCredential L i = Throw TypeError <-> i = 128000).
Proof.
  intros HL.
  destruct (decide (i < 0 \/ 128000 < i)) as [Hout|Hin].
  - rewrite (revokeCredential_guard L i Hout).
    split; [|split]; split; intros H; first [done | lia | by destruct H].
  - destruct (decide (i = 128000)) as [->|Hne].
    + rewrite revokeCredential_boundary by by destruct HL.
      split; [|split]; split; intros H; first [done | lia | by destruct H].
    + destruct (revokeCredential_ok L i HL ltac:(lia)) as (L' & -> & _).
      split; [|split]; split; intros H;
        first [done | lia | by destruct H | by eexists].
Qed.

(** A list shorter than 2000 words answers a [TypeError], on reading
    and on revoking, for every index whose word it lacks. *)
Theorem short_list_type_error (L : RevocationList.t) (i : Z) :
  0 <= i < 128000 ->
  (length (RevocationList.bitArray L) <= Z.to_nat (1999 - i / 64))%nat ->
  RevocationList.getCredentialStatus L i = Throw TypeError /\
  RevocationList.revokeCredential L i = Throw TypeError.
Proof.
  intros Hi Hlen.
  assert (Hnone : arrayValue (getBitArrayValues L i) = None).
  { cbn. unfold typed_get, SIZE, SIZE_PER_INDEX.
    replace (2000 - 1 - i / 64) with (1999 - i / 64) by lia.
    destruct (Z.leb_spec 0 (1999 - i / 64)); [|done].
    by apply lookup_ge_None_2. }
  split.
  - unfold getCredentialStatus. by rewrite Hnone.
  - unfold revokeCredential. rewrite capacity_eq.
    destruct (Z.gtb_spec i 128000); [lia|].
    destruct (Z.ltb_spec i 0); [lia|]. by rewrite Hnone.
Qed.

End RevocationListSet.

Lemma new_list_unrevoked_witness :
  RevocationList.getCredentialStatus RevocationList.new 127999 = Ok false.
Proof. apply (new_list_unrevoked 127999). lia. Defined.

Lemma revoke_all_status_witness :
  exists L',
    revoke_all RevocationList.new [42; 7; 42] = Ok L' /\
    RevocationList.wf L' /\
    forall j, 0 <= j < 128000 ->
      exists b,
        RevocationList.getCredentialStatus RevocationList.new j = Ok b /\
        RevocationList.getCredentialStatus L' j
        = Ok (b || bool_decide (j ∈ [42; 7; 42])).
Proof.
  apply (revoke_all_status RevocationList.new [42; 7; 42]).
  - apply new_wf.
  - repeat constructor; lia.
Defined.

Lemma revokeCredential_commute_witness :
  revoke_all RevocationList.new [5; 70] = revoke_all RevocationList.new [70; 5] /\
  exists L', revoke_all RevocationList.new [5; 70] = Ok L'.
Proof.
  apply (revokeCredential_commute RevocationList.new 5 70);
    [apply new_wf | lia | lia].
Defined.

Lemma revokeCredential_layout_witness :
  exists L',
    RevocationList.revokeCredential RevocationList.new 65 = Ok L' /\
    RevocationList.bitArray L' !! 1998%nat = Some 2.
Proof.
  eexists. split; [reflexivity|].
  destruct (revokeCredential_layout RevocationList.new _ 65 new_wf
              ltac:(lia) eq_refl) as (_ & (w & Hw & Hw') & _).
  injection Hw as <-. exact Hw'.
Defined.

Lemma revokeCredential_outcome_witness :
  RevocationList.revokeCredential RevocationList.new 128000 = Throw TypeError.
Proof.
  by apply (revokeCredential_outcome RevocationList.new 128000 new_wf).
Defined.

Lemma short_list_type_error_witness :
  RevocationList.getCredentialStatus (RevocationList.mk [0; 0]) 0
  = Throw TypeError /\
  RevocationList.revokeCredential (RevocationList.mk [0; 0]) 0
  = Throw TypeError.
Proof.
  apply (short_list_type_error (RevocationList.mk [0; 0]) 0); [lia|].
  cbn [length RevocationList.bitArray]. change (0 / 64) with 0. lia.
Defined.
(** ** RevocationList: what [parse] accepts *)

Section ParseFacts.
Import RevocationList.

Lemma byte_of_congruent (x : Z) (b : ascii) :
  x mod 256 = byte_val b -> byte_of x = b.
Proof.
  intros Hx. unfold byte_of. rewrite Hx. unfold byte_val.
  rewrite N2Z.id. apply ascii_N_embedding.
Qed.

Lemma word_of_bytes_le_ok (b0 b1 b2 b3 b4 b5 b6 b7 : ascii) :
  word_ok (word_of_bytes_le [b0; b1; b2; b3; b4; b5; b6; b7]).
Proof.
  unfold word_ok, word_of_bytes_le. cbn [foldr].
  pose proof (byte_val_range b0). pose proof (byte_val_range b1).
  pose proof (byte_val_range b2). pose proof (byte_val_range b3).
  pose proof (byte_val_range b4). pose proof (byte_val_range b5).
  pose proof (byte_val_range b6). pose proof (byte_val_range b7).
  change (2 ^ 64) with 18446744073709551616. lia.
Qed.

Lemma word_bytes_le_word_of_bytes_le (b0 b1 b2 b3 b4 b5 b6 b7 : ascii) :
  word_bytes_le (word_of_bytes_le [b0; b1; b2; b3; b4; b5; b6; b7])
  = [b0; b1; b2; b3; b4; b5; b6; b7].
Proof.
  unfold word_bytes_le, word_of_bytes_le. cbn [foldr].
  pose proof (byte_val_range b0). pose proof (byte_val_range b1).
  pose proof (byte_val_range b2). pose proof (byte_val_range b3).
  pose proof (byte_val_range b4). pose proof (byte_val_range b5).
  pose proof (byte_val_range b6). pose proof (byte_val_range b7).
  change (2 ^ 8) with 256. change (2 ^ 16) with 65536.
  change (2 ^ 24) with 16777216. change (2 ^ 32) with 4294967296.
  change (2 ^ 40) with 1099511627776.
  change (2 ^ 48) with 281474976710656.
  change (2 ^ 56) with 72057594037927936.
  repeat f_equal; apply byte_of_congruent; Z.div_mod_to_equations; lia.
Qed.

Lemma word_bytes_word_of_bytes (host : Endianness)
    (b0 b1 b2 b3 b4 b5 b6 b7 : ascii) :
  word_ok (word_of_bytes host [b0; b1; b2; b3; b4; b5; b6; b7]) /\
  word_bytes host (word_of_bytes host [b0; b1; b2; b3; b4; b5; b6; b7])
  = [b0; b1; b2; b3; b4; b5; b6; b7].
Proof.
  destruct host; cbn [word_of_bytes word_bytes rev app].
  - split; [apply word_of_bytes_le_ok|apply word_bytes_le_word_of_bytes_le].
  - split; [apply word_of_bytes_le_ok|].
    by rewrite word_bytes_le_word_of_bytes_le.
Qed.

(** Reading a buffer as words: it succeeds exactly on a byte length that
    is a multiple of 8, and the words then are unsigned 64-bit values whose
    bytes are the buffer. *)
Lemma words_spec (host : Endianness) (bs : list ascii) :
  match words host bs with
  | Some ws =>
      Forall word_ok ws /\ length bs = (8 * length ws)%nat /\
      buffer host ws = bs
  | None => (length bs mod 8 <> 0)%nat
  end.
Proof.
  induction bs as [bs IH] using (induction_ltof1 _ (@length ascii)).
  unfold ltof in IH.
  destruct bs as [|b0 [|b1 [|b2 [|b3 [|b4 [|b5 [|b6 [|b7 rest]]]]]]]];
    try (cbn; lia); [by repeat split|].
  specialize (IH rest ltac:(cbn; lia)). cbn [words].
  destruct (words host rest) as [ws|].
  - destruct IH as (Hall & Hlen & Hbuf).
    destruct (word_bytes_word_of_bytes host b0 b1 b2 b3 b4 b5 b6 b7)
      as [Hok Hbytes].
    split; [by constructor|]. split; [cbn [length]; lia|].
    unfold buffer in *. cbn [flat_map]. by rewrite Hbytes, Hbuf.
  - cbn [length].
    replace (S (S (S (S (S (S (S (S (length rest)))))))))
      with (length rest + 1 * 8)%nat by lia.
    by rewrite Nat.Div0.mod_add.
Qed.

Variable host : Endianness.
Variable gzip : list ascii -> list ascii.
Variable ungzip : list ascii -> Result (list ascii).

(** A list that [parse] returns holds unsigned 64-bit words, one per 8
    bytes of the unzipped data, and its buffer is that data; nothing
    requires the list to have 2000 words. *)
Theorem parse_result (input : string) (L : RevocationList.t) :
  RevocationList.parse host ungzip input = Ok L ->
  exists bs,
    ungzip (Buffer_from_base64 input) = Ok bs /\
    Forall RevocationList.word_ok (RevocationList.bitArray L) /\
    length bs = (8 * length (RevocationList.bitArray L))%nat /\
    RevocationList.buffer host (RevocationList.bitArray L) = bs.
Proof.
  unfold parse. intros Hparse.
  destruct (ungzip (Buffer_from_base64 input)) as [bs|e]; [|done].
  cbn [mbind Result_bind] in Hparse. pose proof (words_spec host bs) as Hw.
  destruct (words host bs) as [ws|]; [|done].
  injection Hparse as <-. by exists bs.
Qed.

(** The ways [parse] fails: with the exception of [ungzip], or with a
    [RangeError] when the unzipped length is not a multiple of 8; in
    every other case it succeeds. *)
Theorem parse_outcome (input : string) :
  match ungzip (Buffer_from_base64 input) with
  | Throw e => RevocationList.parse host ungzip input = Throw e
  | Ok bs =>
      if decide (length bs mod 8 = 0)%nat
      then exists L, RevocationList.parse host ungzip input = Ok L
      else RevocationList.parse host ungzip input = Throw RangeError
  end.
Proof.
  unfold parse. destruct (ungzip (Buffer_from_base64 input)) as [bs|e]; [|done].
  cbn [mbind Result_bind]. pose proof (words_spec host bs) as Hw.
  destruct (words host bs) as [ws|].
  - destruct Hw as (_ & Hlen & _). rewrite decide_True; [by eexists|].
    rewrite Hlen, Nat.mul_comm. apply Nat.Div0.mod_mul.
  - by rewrite decide_False.
Qed.

Hypothesis ungzip_gzip : forall bs, ungzip (gzip bs) = Ok bs.

Lemma parse_stringify_ok (L : t) :
  Forall word_ok (bitArray L) -> parse host ungzip (stringify host gzip L) = Ok L.
Proof.
  intros HL. unfold parse, stringify, Buffer_from_base64, btoa.
  rewrite base64_decode_encode by by left.
  rewrite ungzip_gzip. cbn [mbind Result_bind].
  rewrite words_buffer by done. by destruct L.
Qed.

Variable http_get : string -> option StatusList.t.

(** Against a server that serves a well-formed list, the status query
    answers the bit of an index inside the domain and [undefined] for one
    outside it: the [TypeError] of the unchecked read is swallowed. *)
Theorem getRevocationStatus_served (credListURL : string)
    (credentialList : StatusList.t) (L : RevocationList.t) (credId : Z) :
  http_get (credListURL +:+ "/list.json") = Some credentialList ->
  StatusList.encodedList credentialList = RevocationList.stringify host gzip L ->
  RevocationList.wf L ->
  (0 <= credId < 128000 ->
   exists b,
     RevocationList.getCredentialStatus L credId = Ok b /\
     getRevocationStatus host ungzip http_get credId credListURL = Some b) /\
  (credId < 0 \/ 128000 <= credId ->
   getRevocationStatus host ungzip http_get credId credListURL = None).
Proof.
  intros Hget Henc HL. unfold getRevocationStatus. rewrite Hget, Henc.
  rewrite parse_stringify_ok by by destruct HL.
  cbn [mbind Result_bind]. split.
  - intros Hi.
    destruct (getBitArrayValues_in_range L credId HL Hi) as (w & Hw & _ & _).
    rewrite (getCredentialStatus_in_range L credId w HL Hi Hw). by eexists.
  - intros Hi. destruct HL as [Hlen _].
    destruct (getBitArrayValues_out_of_range L credId Hlen Hi) as [_ Hnone].
    unfold getCredentialStatus. cbv zeta in Hnone. by rewrite Hnone.
Qed.

End ParseFacts.

Lemma parse_result_witness :
  exists bs,
    example_ungzip
      (Buffer_from_base64
         (RevocationList.stringify RevocationList.BigEndian example_gzip
            (RevocationList.mk [1; 2 ^ 63]))) = Ok bs /\
    Forall RevocationList.word_ok [1; 2 ^ 63] /\
    length bs = (8 * 2)%nat /\
    RevocationList.buffer RevocationList.BigEndian [1; 2 ^ 63] = bs.
Proof.
  apply (parse_result RevocationList.BigEndian example_ungzip
           (RevocationList.stringify RevocationList.BigEndian example_gzip
              (RevocationList.mk [1; 2 ^ 63]))
           (RevocationList.mk [1; 2 ^ 63])).
  by vm_compute.
Defined.

Lemma getRevocationStatus_served_witness :
  getRevocationStatus RevocationList.LittleEndian example_ungzip
    example_http_get 42 "https://issuer.example/status" = Some false /\
  getRevocationStatus RevocationList.LittleEndian example_ungzip
    example_http_get 128000 "https://issuer.example/status" = None.
Proof.
  assert (Hget : example_http_get ("https://issuer.example/status" +:+ "/list.json")
                 = Some (StatusList.mk "https://issuer.example/status"
                           "StatusList2021" "revocation"
                           (RevocationList.stringify RevocationList.LittleEndian
                              example_gzip RevocationList.new)))
    by reflexivity.
  split.
  - destruct (getRevocationStatus_served RevocationList.LittleEndian
                example_gzip example_ungzip (fun bs => eq_refl)
                example_http_get "https://issuer.example/status" _
                RevocationList.new 42 Hget eq_refl new_wf) as [Hin _].
    destruct (Hin ltac:(lia)) as (b & Hb & ->).
    rewrite (fresh_status_false 42) in Hb by lia. by injection Hb as <-.
  - destruct (getRevocationStatus_served RevocationList.LittleEndian
                example_gzip example_ungzip (fun bs => eq_refl)
                example_http_get "https://issuer.example/status" _
                RevocationList.new 128000 Hget eq_refl new_wf) as [_ Hout].
    apply Hout. lia.
Defined.
(** ** The revoke flow, step by step *)

Section RevokeChainFacts.
Variable host : RevocationList.Endianness.
Variable gzip : list ascii -> list ascii.
Variable ungzip : list ascii -> Result (list ascii).
Variables DEFAULT_CONTEXT VERIFIABLE_CREDENTIAL now : string.
Variable http_get : string -> option StatusList.t.
Variable http_post : string -> CredentialPayload -> bool.

(** [createCredential] puts the subject DID under ["id"] only when the
    subject data has no ["id"] of its own; the other members of the subject
    data are kept, and the type list starts with the constant. *)
Theorem createCredential_subject (issuerDID subjectDID : string)
    (credentialSubject : gmap string JsValue) (credentialType : list string) :
  let credential :=
    createCredential DEFAULT_CONTEXT VERIFIABLE_CREDENTIAL now issuerDID
      subjectDID credentialSubject credentialType None in
  subject credential !! "id"
  = Some (default (JString subjectDID) (credentialSubject !! "id")) /\
  (forall key, key <> "id" ->
     subject credential !! key = credentialSubject !! key) /\
  types credential = VERIFIABLE_CREDENTIAL :: credentialType /\
  issuer credential = issuerDID.
Proof.
  cbn. split; [|split; [|done]].
  - rewrite lookup_union, lookup_singleton_eq.
    by destruct (credentialSubject !! "id").
  - intros key Hkey. rewrite lookup_union, lookup_singleton_ne by done.
    by destruct (credentialSubject !! key).
Qed.

Lemma createCredential_with_id (issuerDID subjectDID : string)
    (credentialSubject : gmap string JsValue) (credentialType : list string) :
  is_Some (credentialSubject !! "id") ->
  createCredential DEFAULT_CONTEXT VERIFIABLE_CREDENTIAL now issuerDID
    subjectDID credentialSubject credentialType None
  = mkCredential [DEFAULT_CONTEXT] credentialSubject issuerDID
      (VERIFIABLE_CREDENTIAL :: credentialType) now.
Proof.
  intros [v Hv]. unfold createCredential, assign. f_equal.
  apply map_eq. intros key. rewrite lookup_union.
  destruct (decide (key = "id")) as [->|Hne].
  - by rewrite Hv, lookup_singleton_eq.
  - rewrite lookup_singleton_ne by done. by destruct (credentialSubject !! key).
Qed.

Lemma request_chain_subject (listUrl : string) (credId : option Z)
    (issuerDID subjectDID subjectDID' : string) :
  request_chain host gzip ungzip DEFAULT_CONTEXT VERIFIABLE_CREDENTIAL now
    http_get http_post listUrl credId issuerDID subjectDID
  = request_chain host gzip ungzip DEFAULT_CONTEXT VERIFIABLE_CREDENTIAL now
      http_get http_post listUrl credId issuerDID subjectDID'.
Proof.
  unfold request_chain.
  destruct (http_get _) as [credentialList|]; [|done].
  unfold republish.
  destruct (RevocationList.parse host ungzip _) as [list|e]; [|done].
  cbn [mbind Result_bind].
  destruct (match credId with Some _ => _ | None => _ end) as [list'|e];
    [|done].
  cbn [mbind Result_bind].
  by rewrite !createCredential_with_id
    by (rewrite lookup_insert_eq; by eexists).
Qed.

(** The subject DID handed to [revokeCredentialSL21] has no effect: the
    republished credential takes its ["id"] from the fetched list. *)
Theorem revokeCredentialSL21_ignores_subject (vc : VerifiableCredential)
    (issuerDID subjectDID subjectDID' : string) :
  revokeCredentialSL21 host gzip ungzip DEFAULT_CONTEXT VERIFIABLE_CREDENTIAL
    now http_get http_post vc issuerDID subjectDID
  = revokeCredentialSL21 host gzip ungzip DEFAULT_CONTEXT VERIFIABLE_CREDENTIAL
      now http_get http_post vc issuerDID subjectDID'.
Proof.
  unfold revokeCredentialSL21. destruct vc as [jwt|[status|]]; [done| |done].
  destruct (String.eqb _ _); [|done].
  by rewrite (request_chain_subject _ _ issuerDID subjectDID subjectDID').
Qed.

(** An index that [parseInt] cannot read, or one below 0 or above
    128000, never leads to a publication: the promise settles to [false]
    whatever the server does. *)
Theorem request_chain_bad_index (listUrl : string) (credId : option Z)
    (issuerDID subjectDID : string) :
  match credId with
  | Some index => index < 0 \/ 128000 < index
  | None => True
  end ->
  request_chain host gzip ungzip DEFAULT_CONTEXT VERIFIABLE_CREDENTIAL now
    http_get http_post listUrl credId issuerDID subjectDID = false.
Proof.
  intros Hbad. unfold request_chain.
  destruct (http_get _) as [credentialList|]; [|done].
  unfold republish.
  destruct (RevocationList.parse host ungzip _) as [list|e]; [|done].
  cbn [mbind Result_bind]. destruct credId as [index|]; [|done].
  by rewrite revokeCredential_guard.
Qed.

Hypothesis ungzip_gzip : forall bs, ungzip (gzip bs) = Ok bs.

(** When the list is fetched and parsed and the index is in range, the
    promise settles to the outcome of the POST, and what is posted to
    [{listUrl}/statusList] is a StatusList2021 credential that carries the
    fetched [id], [type] and [purpose] and an encoded list which parses to
    the fetched list with the bit of the index set. *)
Theorem request_chain_publishes (listUrl : string) (index : Z)
    (issuerDID subjectDID : string) (credentialList : StatusList.t)
    (L : RevocationList.t) :
  http_get (listUrl +:+ "/list.json") = Some credentialList ->
  RevocationList.parse host ungzip (StatusList.encodedList credentialList)
  = Ok L ->
  RevocationList.wf L -> 0 <= index < 128000 ->
  exists L' body,
    RevocationList.revokeCredential L index = Ok L' /\
    request_chain host gzip ungzip DEFAULT_CONTEXT VERIFIABLE_CREDENTIAL now
      http_get http_post listUrl (Some index) issuerDID subjectDID
    = http_post (listUrl +:+ "/statusList") body /\
    types body = [VERIFIABLE_CREDENTIAL; "StatusList2021"] /\
    issuer body = issuerDID /\
    subject body !! "id" = Some (JString (StatusList.id credentialList)) /\
    subject body !! "type" = Some (JString (StatusList.type credentialList)) /\
    subject body !! "purpose"
    = Some (JString (StatusList.purpose credentialList)) /\
    subject body !! "encodedList"
    = Some (JString (RevocationList.stringify host gzip L')) /\
    RevocationList.parse host ungzip (RevocationList.stringify host gzip L')
    = Ok L' /\
    RevocationList.getCredentialStatus L' index = Ok true.
Proof.
  intros Hget Hparse HL Hi.
  destruct (revokeCredential_ok L index HL Hi) as (L' & Hrev & HL' & Hstatus).
  exists L'.
  exists (mkCredential [DEFAULT_CONTEXT]
            (<["id" := JString (StatusList.id credentialList)]>
               (<["type" := JString (StatusList.type credentialList)]>
                  (<["purpose" := JString (StatusList.purpose credentialList)]>
                     {["encodedList" :=
                         JString (RevocationList.stringify host gzip L')]})))
            issuerDID [VERIFIABLE_CREDENTIAL; "StatusList2021"] now).
  split; [exact Hrev|]. split.
  { unfold request_chain, republish. rewrite Hget, Hparse.
    cbn [mbind Result_bind]. rewrite Hrev. cbn [mbind Result_bind].
    rewrite createCredential_with_id by (rewrite lookup_insert_eq; by eexists).
    by destruct (http_post _ _). }
  cbn [types issuer subject].
  do 2 (split; [done|]).
  do 4 (split; [by simplify_map_eq|]).
  split; [apply (parse_stringify_ok host gzip ungzip ungzip_gzip);
          by destruct HL'|].
  rewrite (Hstatus index Hi). by rewrite decide_True.
Qed.

End RevokeChainFacts.

Lemma request_chain_bad_index_witness :
  request_chain RevocationList.LittleEndian example_gzip example_ungzip
    "https://www.w3.org/2018/credentials/v1" "VerifiableCredential"
    "2026-01-01T00:00:00.000Z" example_http_get example_http_post
    "https://issuer.example/status" (Some 128001) "did:example:issuer"
    "did:example:subject" = false.
Proof.
  apply (request_chain_bad_index RevocationList.LittleEndian example_gzip
           example_ungzip _ _ _ example_http_get example_http_post
           "https://issuer.example/status" (Some 128001)).
  right. lia.
Defined.

Lemma request_chain_publishes_witness :
  exists L' body,
    RevocationList.revokeCredential RevocationList.new 42 = Ok L' /\
    request_chain RevocationList.LittleEndian example_gzip example_ungzip
      "https://www.w3.org/2018/credentials/v1" "VerifiableCredential"
      "2026-01-01T00:00:00.000Z" example_http_get example_http_post
      "https://issuer.example/status" (Some 42) "did:example:issuer"
      "did:example:subject"
    = example_http_post ("https://issuer.example/status" +:+ "/statusList") body /\
    subject body !! "encodedList"
    = Some (JString (RevocationList.stringify RevocationList.LittleEndian
                       example_gzip L')) /\
    RevocationList.getCredentialStatus L' 42 = Ok true.
Proof.
  destruct (request_chain_publishes RevocationList.LittleEndian example_gzip
              example_ungzip "https://www.w3.org/2018/credentials/v1"
              "VerifiableCredential" "2026-01-01T00:00:00.000Z"
              example_http_get example_http_post (fun bs => eq_refl)
              "https://issuer.example/status" 42 "did:example:issuer"
              "did:example:subject"
              (StatusList.mk "https://issuer.example/status" "StatusList2021"
                 "revocation"
                 (RevocationList.stringify RevocationList.LittleEndian
                    example_gzip RevocationList.new))
              RevocationList.new)
    as (L' & body & H1 & H2 & _ & _ & _ & _ & _ & H3 & _ & H4).
  - reflexivity.
  - apply (parse_stringify_ok RevocationList.LittleEndian example_gzip
             example_ungzip (fun bs => eq_refl)).
    apply new_wf.
  - apply new_wf.
  - lia.
  - exists L', body. split; [exact H1|]. split; [exact H2|].
    split; [exact H3|exact H4].
Defined.
(** ** The address of a status entry: [{listUrl}#{index}] *)

Section StatusAddress.

Lemma digit_char_facts (c : ascii) :
  JSON.is_digit c = true ->
  is_space c = false /\ Ascii.eqb c "-" = false /\ Ascii.eqb c "+" = false /\
  c <> "#"%char /\ exists d, digit_value 10 c = Some d.
Proof.
  destruct c as [[] [] [] [] [] [] [] []]; intros H;
    try (by vm_compute in H); repeat split; try done; by eexists.
Qed.

Lemma parse_digits_step (c : ascii) (d : Z) (acc : option Z) (s : string) :
  digit_value 10 c = Some d ->
  parse_digits 10 acc (String c s)
  = parse_digits 10 (Some (default 0 acc * 10 + d)) s.
Proof. intros Hd. cbn [parse_digits]. by rewrite Hd. Qed.

Lemma parse_digits_acc (l : uint) (acc : positive) :
  parse_digits 10 (Some (Z.pos acc)) (NilEmpty.string_of_uint l)
  = Some (Z.pos (Pos.of_uint_acc l acc)).
Proof.
  revert acc.
  induction l as [|l IH|l IH|l IH|l IH|l IH|l IH|l IH|l IH|l IH|l IH];
    intros acc; cbn [NilEmpty.string_of_uint Pos.of_uint_acc]; [done|..];
    erewrite parse_digits_step by (vm_compute; reflexivity);
    rewrite <- IH; do 2 f_equal; cbn [from_option id]; lia.
Qed.

Lemma parse_digits_uint (l : uint) :
  parse_digits 10 (Some 0) (NilEmpty.string_of_uint l)
  = Some (Z.of_N (Pos.of_uint l)).
Proof.
  induction l as [|l IH|l IH|l IH|l IH|l IH|l IH|l IH|l IH|l IH|l IH];
    cbn [NilEmpty.string_of_uint Pos.of_uint]; [done|..];
    erewrite parse_digits_step by (vm_compute; reflexivity); cbn [from_option id];
    [exact IH | apply parse_digits_acc ..].
Qed.

Lemma parse_digits_start (c : ascii) (s : string) :
  JSON.is_digit c = true ->
  parse_digits 10 None (String c s) = parse_digits 10 (Some 0) (String c s).
Proof.
  intros Hc. destruct (digit_char_facts c Hc) as (_ & _ & _ & _ & d & Hd).
  by rewrite !(parse_digits_step c d).
Qed.

Lemma uint_chars_digits (u : uint) :
  Forall (fun c => JSON.is_digit c = true)
    (list_ascii_of_string (NilEmpty.string_of_uint u)).
Proof.
  induction u; cbn [NilEmpty.string_of_uint list_ascii_of_string];
    constructor; done.
Qed.

(** Decimal digits without a leading zero are read back by [parseInt]. *)
Lemma parseInt_digits (u : uint) (c : ascii) (ds : string) :
  NilEmpty.string_of_uint u = String c ds ->
  JSON.is_digit c = true ->
  (Ascii.eqb c "0" = false \/ ds = EmptyString) ->
  parseInt (NilEmpty.string_of_uint u) = Some (Z.of_N (Pos.of_uint u)) /\
  parseInt (String "-" (NilEmpty.string_of_uint u))
  = Some (- Z.of_N (Pos.of_uint u)).
Proof.
  intros Hu Hc Hz.
  destruct (digit_char_facts c Hc) as (Hsp & Hminus & Hplus & _ & _).
  assert (Hradix :
    match String c ds with
    | String c0 (String x r) =>
        if Ascii.eqb c0 "0" && (Ascii.eqb x "x" || Ascii.eqb x "X")
        then (16, r) else (10, String c ds)
    | _ => (10, String c ds)
    end = (10, String c ds)).
  { destruct Hz as [Hz| ->]; [|done]. destruct ds; [done|]. by rewrite Hz. }
  assert (Hval : parse_digits 10 None (String c ds)
                 = Some (Z.of_N (Pos.of_uint u))).
  { rewrite parse_digits_start by done. rewrite <- Hu. apply parse_digits_uint. }
  rewrite Hu. split.
  - unfold parseInt. cbn [trim_start]. rewrite Hsp, Hminus, Hplus, Hradix, Hval.
    f_equal; lia.
  - unfold parseInt. cbn [trim_start].
    change (is_space "-") with false. cbv iota.
    change (Ascii.eqb "-" "-") with true. cbv iota.
    rewrite Hradix, Hval. f_equal; lia.
Qed.

Lemma parseInt_number_to_string (n : Z) :
  parseInt (JSON.number_to_string n) = Some n.
Proof.
  unfold JSON.number_to_string. rewrite <- (DecimalZ.of_to n) at 2.
  destruct n as [|p|p]; cbn [Z.to_int NilZero.string_of_int Z.of_int];
    [reflexivity|..];
    destruct (to_uint_head p) as (c & ds & Hu & Hc & Hz);
    replace (NilZero.string_of_uint (Pos.to_uint p))
      with (NilEmpty.string_of_uint (Pos.to_uint p))
      by (by destruct (Pos.to_uint p));
    by apply (parseInt_digits _ c ds); auto.
Qed.

Lemma number_to_string_no_hash (n : Z) :
  0 <= n -> ~ In "#"%char (list_ascii_of_string (JSON.number_to_string n)).
Proof.
  intros Hn Hin. unfold JSON.number_to_string in Hin.
  destruct n as [|p|p]; [by destruct Hin as [?|[]]| |lia].
  cbn [Z.to_int NilZero.string_of_int] in Hin.
  replace (NilZero.string_of_uint (Pos.to_uint p))
    with (NilEmpty.string_of_uint (Pos.to_uint p)) in Hin
    by (pose proof (DecimalPos.Unsigned.to_uint_nonnil p);
        by destruct (Pos.to_uint p)).
  pose proof (uint_chars_digits (Pos.to_uint p)) as Hd.
  rewrite Forall_forall in Hd. apply list_elem_of_In, Hd in Hin.
  by destruct (digit_char_facts _ Hin) as (_ & _ & _ & Hne & _).
Qed.

Variable host : RevocationList.Endianness.
Variable gzip : list ascii -> list ascii.
Variable ungzip : list ascii -> Result (list ascii).
Variables DEFAULT_CONTEXT VERIFIABLE_CREDENTIAL now : string.
Variable http_get : string -> option StatusList.t.
Variable http_post : string -> CredentialPayload -> bool.

(** A status entry whose [id] is [{listUrl}#{index}], with no [#] in the
    URL and the index in decimal, starts the chain for that URL and that
    index. *)
Theorem status_id_addressing (listUrl : string) (index : Z)
    (issuerDID subjectDID : string) :
  ~ In "#"%char (list_ascii_of_string listUrl) -> 0 <= index ->
  revokeCredentialSL21 host gzip ungzip DEFAULT_CONTEXT VERIFIABLE_CREDENTIAL
    now http_get http_post
    (VC_W3C (Some (CredentialStatus.mk
                     (listUrl +:+ "#" +:+ JSON.number_to_string index)
                     "StatusList2021Entry")))
    issuerDID subjectDID
  = (false,
     Some (request_chain host gzip ungzip DEFAULT_CONTEXT VERIFIABLE_CREDENTIAL
             now http_get http_post listUrl (Some index) issuerDID subjectDID)).
Proof.
  intros Hurl Hindex. unfold revokeCredentialSL21.
  cbn [CredentialStatus.type CredentialStatus.id].
  change (String.eqb "StatusList2021Entry" "StatusList2021Entry") with true.
  cbv iota.
  change ("#" +:+ JSON.number_to_string index)
    with (String "#" (JSON.number_to_string index)).
  rewrite split_app by done.
  rewrite split_no_sep by by apply number_to_string_no_hash.
  cbn [hd List.last]. by rewrite parseInt_number_to_string.
Qed.

End StatusAddress.

Lemma status_id_addressing_witness :
  revokeCredentialSL21 RevocationList.LittleEndian example_gzip example_ungzip
    "https://www.w3.org/2018/credentials/v1" "VerifiableCredential"
    "2026-01-01T00:00:00.000Z" example_http_get example_http_post
    (VC_W3C (Some (CredentialStatus.mk
                     ("https://issuer.example/status" +:+ "#"
                        +:+ JSON.number_to_string 42)
                     "StatusList2021Entry")))
    "did:example:issuer" "did:example:subject"
  = (false,
     Some (request_chain RevocationList.LittleEndian example_gzip
             example_ungzip "https://www.w3.org/2018/credentials/v1"
             "VerifiableCredential" "2026-01-01T00:00:00.000Z"
             example_http_get example_http_post
             "https://issuer.example/status" (Some 42) "did:example:issuer"
             "did:example:subject")).
Proof.
  apply (status_id_addressing RevocationList.LittleEndian example_gzip
           example_ungzip _ _ _ example_http_get example_http_post
           "https://issuer.example/status" 42); [|lia].
  cbn. intuition discriminate.
Defined.
(** ** The disclosure codec: alphabet, injectivity, length check *)

Section CodecFacts.

Lemma url_table :
  Forall (fun n =>
            Base64.char_of Base64.url n ∈ list_ascii_of_string Base64.url /\
            Base64.char_of Base64.url n <> "~"%char /\
            Base64.char_of Base64.url n <> "&"%char /\
            Base64.char_of Base64.url n <> "="%char)
    (seqZ 0 64).
Proof. apply (bool_decide_unpack _). by vm_compute. Qed.

Lemma base64url_encode_chars (P : ascii -> Prop) (bs : list ascii) :
  (forall n, 0 <= n < 64 -> P (Base64.char_of Base64.url n)) ->
  Forall P (list_ascii_of_string (base64url_encode bs)).
Proof.
  intros HP. unfold base64url_encode.
  induction bs as [bs IH] using (induction_ltof1 _ (@length ascii)).
  unfold ltof in IH.
  destruct bs as [|x [|y [|z rest]]]; [constructor|..].
  - pose proof (byte_val_range x) as Hx.
    destruct (group_bounds (byte_val x) 0 0 Hx ltac:(lia) ltac:(lia))
      as (H1 & _ & _ & _ & H2 & _).
    cbn. repeat constructor; by apply HP.
  - pose proof (byte_val_range x) as Hx. pose proof (byte_val_range y) as Hy.
    destruct (group_bounds (byte_val x) (byte_val y) 0 Hx Hy ltac:(lia))
      as (H1 & H2 & _ & _ & _ & H3).
    cbn. repeat constructor; by apply HP.
  - pose proof (byte_val_range x) as Hx. pose proof (byte_val_range y) as Hy.
    pose proof (byte_val_range z) as Hz.
    destruct (group_bounds (byte_val x) (byte_val y) (byte_val z) Hx Hy Hz)
      as (H1 & H2 & H3 & H4 & _ & _).
    cbn [Base64.encode list_ascii_of_string]. cbv zeta.
    repeat (constructor; [by apply HP|]). apply IH. cbn. lia.
Qed.

(** An encoded disclosure is written in the base64url alphabet alone: it
    contains none of the separators [~] and [&] and no padding [=]. *)
Theorem encodeDisclosure_alphabet (disclosureArray : list JsValue) :
  Forall (fun c => c ∈ list_ascii_of_string Base64.url /\
                   c <> "~"%char /\ c <> "&"%char /\ c <> "="%char)
    (list_ascii_of_string (encodeDisclosure disclosureArray)).
Proof.
  apply base64url_encode_chars. intros n Hn.
  pose proof url_table as Ht. rewrite Forall_forall in Ht.
  apply (Ht n), elem_of_seqZ. lia.
Qed.

Lemma decode_encodeDisclosure (vs : list JsValue) :
  Forall (fun v => is_primitive v = true) vs ->
  JSON.parse (utf8_decode (base64url_decode (encodeDisclosure vs)))
  = Ok (JArray (JSON.reread <$> vs)).
Proof.
  intros Hvs. unfold encodeDisclosure.
  rewrite base64url_decode_encode, utf8_decode_encode.
  by apply parse_stringify_array.
Qed.

Lemma json_exact_primitive (vs : list JsValue) :
  Forall (fun v => json_exact v = true) vs ->
  Forall (fun v => is_primitive v = true) vs.
Proof.
  intros H. eapply Forall_impl; [exact H|].
  intros v Hv. by apply json_exact_spec.
Qed.

(** Distinct arrays of JSON primitives have distinct encodings, as long
    as no [-0] is among them ([-0] is written as [0] is). *)
Theorem encodeDisclosure_inj (vs vs' : list JsValue) :
  Forall (fun v => json_exact v = true) vs ->
  Forall (fun v => json_exact v = true) vs' ->
  vs <> vs' -> encodeDisclosure vs <> encodeDisclosure vs'.
Proof.
  intros Hvs Hvs' Hne Heq. apply Hne.
  pose proof (decode_encodeDisclosure vs (json_exact_primitive vs Hvs)) as H1.
  rewrite Heq, decode_encodeDisclosure in H1 by by apply json_exact_primitive.
  rewrite !reread_exact in H1 by done. by injection H1.
Qed.

Lemma length_not_3 {A : Type} (z : Z) (a b : A) :
  z <> 3 -> match Some z with Some 3 => a | _ => b end = b.
Proof. intros Hz. destruct z as [|[[]|[]|]|]; try done. Qed.

(** [parseDisclosure] accepts the encoding of an array of primitives
    only when the array has exactly three elements; otherwise it fails
    with its own error, which quotes the disclosure.  The array it returns
    has the elements that were encoded, up to what JSON does not write
    exactly ([-0], [NaN] and the infinities). *)
Theorem parseDisclosure_length (vs : list JsValue) :
  Forall (fun v => is_primitive v = true) vs ->
  exists vs',
    length vs' = length vs /\
    (Forall (fun v => json_exact v = true) vs -> vs' = vs) /\
    parseDisclosure (encodeDisclosure vs) =
      if decide (length vs = 3%nat) then Ok (JArray vs')
      else Throw (Error ("can't parse disclosure: " +:+ encodeDisclosure vs)).
Proof.
  intros Hvs. exists (JSON.reread <$> vs).
  split; [by rewrite length_fmap|]. split; [apply reread_exact|].
  unfold parseDisclosure.
  rewrite decode_encodeDisclosure by done.
  cbn [mbind Result_bind js_length]. rewrite length_fmap.
  destruct (decide (length vs = 3%nat)) as [->|Hne]; [done|].
  apply length_not_3. lia.
Qed.

End CodecFacts.

(** The Number [1], the double [4503599627370496 * 2^-52], and the
    string ["1"]. *)
Lemma encodeDisclosure_inj_witness :
  encodeDisclosure
    [JString "c2FsdA"; JString "age";
     JNumber (Number.Finite false 4503599627370496 (-52))]
  <> encodeDisclosure [JString "c2FsdA"; JString "age"; JString "1"].
Proof.
  apply (encodeDisclosure_inj
           [JString "c2FsdA"; JString "age";
            JNumber (Number.Finite false 4503599627370496 (-52))]
           [JString "c2FsdA"; JString "age"; JString "1"]);
    [repeat constructor..|discriminate].
Defined.

(** Two elements, the second the Number [7]; three elements, the third
    the Number [1.5]. *)
Lemma parseDisclosure_length_witness :
  parseDisclosure
    (encodeDisclosure
       [JString "salt"; JNumber (Number.Finite false 7881299347898368 (-50))])
  = Throw (Error ("can't parse disclosure: "
                    +:+ encodeDisclosure
                          [JString "salt";
                           JNumber (Number.Finite false 7881299347898368
                                      (-50))])) /\
  parseDisclosure
    (encodeDisclosure
       [JString "salt"; JString "n";
        JNumber (Number.Finite false 6755399441055744 (-52))])
  = Ok (JArray [JString "salt"; JString "n";
                JNumber (Number.Finite false 6755399441055744 (-52))]).
Proof.
  split.
  - destruct (parseDisclosure_length
                [JString "salt";
                 JNumber (Number.Finite false 7881299347898368 (-50))])
      as (vs' & _ & _ & H); [repeat constructor|exact H].
  - destruct (parseDisclosure_length
                [JString "salt"; JString "n";
                 JNumber (Number.Finite false 6755399441055744 (-52))])
      as (vs' & _ & Hsame & H); [repeat constructor|].
    rewrite H, Hsame; [done|repeat constructor].
Defined.
(** ** [discloseClaims] as a filter *)

Section DiscloseFacts.

Lemma parseDisclosure_disclosure_of (triple : string * string * JsValue) :
  is_primitive triple.2 = true ->
  parseDisclosure (disclosure_of triple)
  = Ok (JArray [JString triple.1.1; JString triple.1.2;
                JSON.reread triple.2]).
Proof.
  intros Hv. unfold disclosure_of, parseDisclosure.
  rewrite decode_encodeDisclosure by (repeat constructor; done).
  reflexivity.
Qed.

Lemma filter_disclosures_issued (claims : list string)
    (triples : list (string * string * JsValue)) :
  Forall (fun t => is_primitive t.2 = true) triples ->
  filter_disclosures claims (disclosure_of <$> triples)
  = Ok (disclosure_of <$> filter (fun t => t.1.2 ∈ claims) triples).
Proof.
  induction 1 as [|t ts Ht Hall IH]; [done|].
  cbn [fmap list_fmap filter_disclosures].
  rewrite parseDisclosure_disclosure_of by done.
  cbn [mbind Result_bind]. change (list_fmap _ _ disclosure_of ts)
    with (disclosure_of <$> ts). rewrite IH. cbn [mbind Result_bind].
  cbn [js_index includes lookup list_lookup DisclosureArray.NAME].
  rewrite filter_cons. f_equal.
  destruct (decide (t.1.2 ∈ claims)) as [Hin|Hin].
  - by rewrite bool_decide_eq_true_2.
  - by rewrite bool_decide_eq_false_2.
Qed.

Lemma split_parts_no_sep (sep : ascii) (s : string) :
  Forall (fun p => ~ In sep (list_ascii_of_string p)) (split sep s).
Proof.
  induction s as [|c r IH]; [constructor; [by intros []|constructor]|].
  cbn [split]. destruct (Ascii.eqb_spec c sep) as [->|Hc].
  - constructor; [by intros []|done].
  - destruct (split sep r) as [|h t];
      [constructor; [by intros [?|[]]|constructor]|].
    apply Forall_cons in IH as [Hh Ht]. constructor; [|done].
    intros [?|?]; [congruence|done].
Qed.

Lemma disclosure_of_no_tilde (triples : list (string * string * JsValue)) :
  Forall (fun s => ~ In "~"%char (list_ascii_of_string s))
    (disclosure_of <$> triples).
Proof.
  apply Forall_fmap, Forall_forall. intros t _.
  apply encodeDisclosure_no_tilde.
Qed.

(** On an SD-JWT made of a JWS and the disclosures of some triples,
    [discloseClaims] returns the JWS and, in their order, the disclosures
    of the triples whose name is in the reveal list. *)
Theorem discloseClaims_issued (jws : string)
    (triples : list (string * string * JsValue)) (claims : list string) :
  ~ In "~"%char (list_ascii_of_string jws) -> triples <> [] ->
  Forall (fun t => is_primitive t.2 = true) triples ->
  discloseClaims (jws +:+ "~" +:+ join "~" (disclosure_of <$> triples)) claims
  = Ok (jws +:+ "~" +:+
          join "~" (disclosure_of <$> filter (fun t => t.1.2 ∈ claims) triples)).
Proof.
  intros Hjws Hne Hall. unfold discloseClaims.
  change ("~" +:+ join "~" (disclosure_of <$> triples))
    with (String "~" (join "~" (disclosure_of <$> triples))).
  rewrite split_app by done.
  rewrite split_join; [|by destruct triples|apply disclosure_of_no_tilde].
  assert (Hlen : (length (jws :: (disclosure_of <$> triples)) <=? 1)%nat
                 = false) by (by destruct triples).
  rewrite Hlen. cbn [hd tail].
  by rewrite filter_disclosures_issued.
Qed.

Lemma filter_disclosures_kept (claims : list string)
    (disclosures kept : list string) :
  filter_disclosures claims disclosures = Ok kept ->
  kept `sublist_of` disclosures /\
  Forall (fun d => exists v,
            parseDisclosure d = Ok v /\
            includes claims (js_index v DisclosureArray.NAME) = true) kept.
Proof.
  revert kept. induction disclosures as [|d ds IH]; intros kept Hf.
  - injection Hf as <-. split; constructor.
  - cbn [filter_disclosures] in Hf.
    destruct (parseDisclosure d) as [v|e] eqn:Hv; [|done].
    cbn [mbind Result_bind] in Hf.
    destruct (filter_disclosures claims ds) as [kept'|e]; [|done].
    cbn [mbind Result_bind] in Hf. destruct (IH kept' eq_refl) as [Hsub Hall].
    destruct (includes claims _) eqn:Hinc; injection Hf as <-.
    + split; [by constructor|]. constructor; [by exists v|done].
    + split; [by constructor|done].
Qed.

Lemma filter_disclosures_again (claims : list string) (kept : list string) :
  Forall (fun d => exists v,
            parseDisclosure d = Ok v /\
            includes claims (js_index v DisclosureArray.NAME) = true) kept ->
  filter_disclosures claims kept = Ok kept.
Proof.
  induction 1 as [|d ds (v & Hv & Hinc) Hall IH]; [done|].
  cbn [filter_disclosures]. rewrite Hv. cbn [mbind Result_bind].
  rewrite IH. cbn [mbind Result_bind]. by rewrite Hinc.
Qed.

(** The shape of every result: the first segment of the input, a [~],
    and a sub-list (same order, nothing new) of the input's other segments,
    each of which parses and names a revealed claim. *)
Theorem discloseClaims_result (sdJwt : string) (claims : list string)
    (out : string) :
  discloseClaims sdJwt claims = Ok out ->
  exists kept,
    out = hd EmptyString (split "~" sdJwt) +:+ "~" +:+ join "~" kept /\
    kept `sublist_of` tail (split "~" sdJwt) /\
    Forall (fun d => exists v,
              parseDisclosure d = Ok v /\
              includes claims (js_index v DisclosureArray.NAME) = true) kept.
Proof.
  unfold discloseClaims. intros Hout.
  destruct (length (split "~" sdJwt) <=? 1)%nat; [done|].
  destruct (filter_disclosures claims (tail (split "~" sdJwt)))
    as [kept|e] eqn:Hf; [|done].
  cbn [mbind Result_bind] in Hout. injection Hout as <-.
  exists kept. split; [done|]. by apply filter_disclosures_kept.
Qed.

Lemma parseDisclosure_empty : parseDisclosure EmptyString = Throw SyntaxError.
Proof. reflexivity. Qed.

Lemma kept_cases (sdJwt : string) (claims kept : list string) :
  kept `sublist_of` tail (split "~" sdJwt) ->
  Forall (fun d => exists v,
            parseDisclosure d = Ok v /\
            includes claims (js_index v DisclosureArray.NAME) = true) kept ->
  let jws := hd EmptyString (split "~" sdJwt) in
  ~ In "~"%char (list_ascii_of_string jws) /\
  Forall (fun d => ~ In "~"%char (list_ascii_of_string d)) kept /\
  (kept = [] \/ jws +:+ "~" +:+ join "~" kept <> jws +:+ "~").
Proof.
  intros Hsub Hall jws.
  pose proof (split_parts_no_sep "~" sdJwt) as Hparts.
  assert (Hjws : ~ In "~"%char (list_ascii_of_string jws)).
  { unfold jws. destruct (split "~" sdJwt); [by intros []|].
    by apply Forall_cons in Hparts as [? _]. }
  assert (Hkept : Forall (fun d => ~ In "~"%char (list_ascii_of_string d)) kept).
  { apply Forall_forall. intros d Hd.
    pose proof (elem_of_sublist _ _ _ Hd Hsub) as Hin.
    destruct (split "~" sdJwt) as [|h t]; [by apply elem_of_nil in Hin|].
    apply Forall_cons in Hparts as [_ Ht]. rewrite Forall_forall in Ht.
    by apply Ht. }
  split; [done|]. split; [done|].
  destruct kept as [|d ds]; [by left|]. right. intros Heq.
  apply (inj (String.append jws)) in Heq.
  apply Forall_cons in Hall as [(v & Hv & _) _].
  assert (d = EmptyString) as ->.
  { destruct ds; cbn in Heq.
    - by destruct d; [|discriminate].
    - by destruct d; [|discriminate]. }
  by rewrite parseDisclosure_empty in Hv.
Qed.

(** Disclosing again with the same reveal list changes nothing, as long
    as the first call kept a disclosure. *)
Theorem discloseClaims_idempotent (sdJwt : string) (claims : list string)
    (out : string) :
  discloseClaims sdJwt claims = Ok out ->
  out <> hd EmptyString (split "~" sdJwt) +:+ "~" ->
  discloseClaims out claims = Ok out.
Proof.
  intros Hout Hne. unfold discloseClaims in Hout.
  destruct (length (split "~" sdJwt) <=? 1)%nat; [done|].
  destruct (filter_disclosures claims (tail (split "~" sdJwt)))
    as [kept|e] eqn:Hf; [|done].
  cbn [mbind Result_bind] in Hout. injection Hout as <-.
  apply filter_disclosures_kept in Hf as [Hsub Hall].
  destruct (kept_cases sdJwt claims kept Hsub Hall) as (Hjws & Hkept & Hcase).
  destruct kept as [|d ds]; [done|].
  unfold discloseClaims.
  change ("~" +:+ join "~" (d :: ds)) with (String "~" (join "~" (d :: ds))).
  rewrite split_app by done. rewrite split_join by done.
  cbn [length Nat.leb hd tail].
  by rewrite filter_disclosures_again.
Qed.

(** A result in which no disclosure is kept is not accepted as an input:
    its empty last segment is parsed as a disclosure and [JSON.parse]
    rejects it. *)
Theorem discloseClaims_empty_result_rejected (sdJwt : string)
    (claims claims' : list string) (out : string) :
  discloseClaims sdJwt claims = Ok out ->
  out = hd EmptyString (split "~" sdJwt) +:+ "~" ->
  discloseClaims out claims' = Throw SyntaxError.
Proof.
  intros Hout ->.
  pose proof (split_parts_no_sep "~" sdJwt) as Hparts.
  assert (Hjws : ~ In "~"%char
                   (list_ascii_of_string (hd EmptyString (split "~" sdJwt)))).
  { destruct (split "~" sdJwt); [by intros []|].
    by apply Forall_cons in Hparts as [? _]. }
  unfold discloseClaims.
  change "~" with (String "~" EmptyString) at 2.
  rewrite split_app by done. reflexivity.
Qed.

End DiscloseFacts.

Lemma discloseClaims_issued_witness :
  discloseClaims
    ("e30.e30.c2ln" +:+ "~" +:+
       join "~" (disclosure_of <$>
                   [("c2FsdA", "fname", JString "John");
                    ("c2FsdB", "sname", JString "Doe")]))
    ["sname"]
  = Ok ("e30.e30.c2ln" +:+ "~" +:+
          join "~" (disclosure_of <$>
                      filter (fun t => t.1.2 ∈ ["sname"])
                        [("c2FsdA", "fname", JString "John");
                         ("c2FsdB", "sname", JString "Doe")])).
Proof.
  apply (discloseClaims_issued "e30.e30.c2ln"
           [("c2FsdA", "fname", JString "John");
            ("c2FsdB", "sname", JString "Doe")] ["sname"]).
  - vm_compute. intuition discriminate.
  - discriminate.
  - repeat constructor.
Defined.

Lemma discloseClaims_result_witness :
  exists kept,
    "jws~WyJjMkZzZEIiLCJzbmFtZSIsIkRvZSJd"
    = hd EmptyString
        (split "~"
           "jws~WyJjMkZzZEEiLCJmbmFtZSIsIkpvaG4iXQ~WyJjMkZzZEIiLCJzbmFtZSIsIkRvZSJd")
        +:+ "~" +:+ join "~" kept /\
    kept `sublist_of`
      tail (split "~"
              "jws~WyJjMkZzZEEiLCJmbmFtZSIsIkpvaG4iXQ~WyJjMkZzZEIiLCJzbmFtZSIsIkRvZSJd") /\
    Forall (fun d => exists v,
              parseDisclosure d = Ok v /\
              includes ["sname"] (js_index v DisclosureArray.NAME) = true) kept.
Proof.
  apply (discloseClaims_result
           "jws~WyJjMkZzZEEiLCJmbmFtZSIsIkpvaG4iXQ~WyJjMkZzZEIiLCJzbmFtZSIsIkRvZSJd"
           ["sname"] "jws~WyJjMkZzZEIiLCJzbmFtZSIsIkRvZSJd").
  by vm_compute.
Defined.

Lemma discloseClaims_idempotent_witness :
  discloseClaims "jws~WyJjMkZzZEIiLCJzbmFtZSIsIkRvZSJd" ["sname"]
  = Ok "jws~WyJjMkZzZEIiLCJzbmFtZSIsIkRvZSJd".
Proof.
  apply (discloseClaims_idempotent
           "jws~WyJjMkZzZEEiLCJmbmFtZSIsIkpvaG4iXQ~WyJjMkZzZEIiLCJzbmFtZSIsIkRvZSJd"
           ["sname"] "jws~WyJjMkZzZEIiLCJzbmFtZSIsIkRvZSJd").
  - by vm_compute.
  - by vm_compute.
Defined.

Lemma discloseClaims_empty_result_rejected_witness :
  discloseClaims "jws~" ["fname"] = Throw SyntaxError.
Proof.
  apply (discloseClaims_empty_result_rejected
           "jws~WyJjMkZzZEEiLCJmbmFtZSIsIkpvaG4iXQ~WyJjMkZzZEIiLCJzbmFtZSIsIkRvZSJd"
           [] ["fname"] "jws~").
  - by vm_compute.
  - by vm_compute.
Defined.
(** ** Issuance, and presentation of what was issued *)

Section IssuanceMore.
Variable createHash : string -> option (list ascii -> list ascii).
Variable randomBytes : nat -> nat -> list ascii.

Lemma typeof_not_object (v : JsValue) :
  typeof v <> "object" -> is_primitive v = true.
Proof. by destruct v. Qed.

Lemma disclosure_loop_lookup (hashAlg : string)
    (entries : list (string * JsValue)) :
  forall (k : nat) (ds dgs : list string),
  disclosure_loop createHash randomBytes hashAlg k entries = Ok (ds, dgs) ->
  forall (i : nat) (D : string),
  ds !! i = Some D ->
  exists name value,
    entries !! i = Some (name, value) /\ typeof value <> "object" /\
    D = disclosure_of
          (base64url_encode (randomBytes (k + i) SALT_BYTE_SIZE), name, value).
Proof.
  induction entries as [|[name value] rest IH]; intros k ds dgs Hloop i D Hi.
  - injection Hloop as <- <-. by rewrite lookup_nil in Hi.
  - cbn [disclosure_loop] in Hloop.
    destruct (String.eqb_spec (typeof value) "object") as [|Hty]; [done|].
    destruct (hashDisclosure createHash hashAlg _) as [dg|]; [|done].
    destruct (disclosure_loop createHash randomBytes hashAlg (S k) rest)
      as [[ds' dgs']|] eqn:Hrest; [|done].
    cbv [mbind Result_bind] in Hloop. cbn [fst snd] in Hloop.
    injection Hloop as <- <-. destruct i as [|i].
    + injection Hi as <-. exists name, value.
      rewrite Nat.add_0_r. by repeat split.
    + destruct (IH _ _ _ Hrest i D Hi) as (n & v & Hn & Hv & HD).
      exists n, v. split; [done|]. split; [done|].
      by replace (k + S i)%nat with (S k + i)%nat by lia.
Qed.

(** What issuance hands to the holder: one disclosure per hidden claim,
    in the order of the claims, each parsing back to the base64url salt
    drawn for it, its name and its value.  The value is the claim's own
    when it is a JSON primitive other than [-0]; [-0] comes back as [0],
    which is equal to it under [===]. *)
Theorem createDisclosures_disclosures (hashAlg : string)
    (claimValues : list (string * JsValue))
    (target target' : JwtCredentialPayload) (ds : list string) :
  createDisclosures createHash randomBytes hashAlg claimValues target
  = Ok (target', ds) ->
  length ds = length claimValues /\
  forall (i : nat) (D : string),
    ds !! i = Some D ->
    exists name value v',
      claimValues !! i = Some (name, value) /\
      parseDisclosure D
      = Ok (JArray [JString (base64url_encode (randomBytes i SALT_BYTE_SIZE));
                    JString name; v']) /\
      (is_json value = true -> strict_equals v' value = true) /\
      (json_exact value = true -> v' = value).
Proof.
  intros Hcreate.
  apply createDisclosures_ok in Hcreate as (dgs & Hloop & _).
  split; [by apply disclosure_loop_ok in Hloop as (? & _)|].
  intros i D Hi.
  destruct (disclosure_loop_lookup _ _ _ _ _ Hloop i D Hi)
    as (name & value & Hentry & Hty & ->).
  exists name, value, (JSON.reread value). split; [done|]. split.
  { by rewrite parseDisclosure_disclosure_of by by apply typeof_not_object. }
  split.
  - intros Hj. by apply reread_json.
  - intros Hx. destruct (json_exact_spec value Hx) as (_ & Hj & Hz).
    by apply reread_json.
Qed.

(** The outcomes of a call with a supported digest.  A value whose
    [typeof] is ["object"] (an object, an array or [null]) gives "Not yet
    implemented", whatever the target.  Otherwise the target decides: a
    [TypeError] when [_sd] or a hidden name is a frozen property of the
    subject, as [_sd] is on a target that an earlier call created it on;
    success when none is. *)
Theorem createDisclosures_outcome (hashAlg : string)
    (claimValues : list (string * JsValue)) (target : JwtCredentialPayload) :
  is_Some (createHash (ianaToCryptoAlg hashAlg)) ->
  (Exists (fun e => typeof e.2 = "object") claimValues ->
   createDisclosures createHash randomBytes hashAlg claimValues target
   = Throw (Error "Not yet implemented")) /\
  (Forall (fun e => typeof e.2 <> "object") claimValues ->
   Exists (fun key => key ∈ frozen (vc target)) ("_sd" :: claimValues.*1) ->
   createDisclosures createHash randomBytes hashAlg claimValues target
   = Throw TypeError) /\
  (Forall (fun e => typeof e.2 <> "object") claimValues ->
   Forall (fun key => key ∉ frozen (vc target)) ("_sd" :: claimValues.*1) ->
   exists target' ds,
     createDisclosures createHash randomBytes hashAlg claimValues target
     = Ok (target', ds)).
Proof.
  intros Hh. split; [|split].
  - intros Hex. unfold createDisclosures.
    by rewrite disclosure_loop_object.
  - intros Hall Hex.
    destruct (disclosure_loop_succeeds createHash randomBytes hashAlg
                claimValues 0 Hh Hall) as [[ds dgs] Hloop].
    unfold createDisclosures. rewrite Hloop. cbn [mbind Result_bind fst snd].
    destruct (decide (Exists (fun key => key ∈ frozen (vc target))
                        claimValues.*1)) as [Hnames|Hnames].
    + by rewrite removeKeysFromObject_frozen.
    + apply Exists_cons in Hex as [Hsd|?]; [|done].
      apply not_Exists_Forall in Hnames; [|intros key; apply _].
      destruct (removeKeysFromObject_succeeds (frozen (vc target))
                  (credentialSubject (vc target)) claimValues.*1)
        as [subject ->].
      { eapply Forall_impl; [exact Hnames|]. by intros key Hkey. }
      cbn [mbind Result_bind]. unfold defineProperty.
      by rewrite bool_decide_eq_true_2.
  - intros Hall Hfree.
    destruct (createDisclosures_succeeds createHash randomBytes hashAlg
                claimValues target Hh Hall Hfree) as [[target' ds] Hout].
    by exists target', ds.
Qed.

(** A target that [createDisclosures] has returned cannot be used
    again when the first call created [_sd]: with a supported digest and
    values that pass the [typeof] test, the second call is a
    [TypeError]. *)
Theorem createDisclosures_twice (hashAlg hashAlg' : string)
    (claimValues claimValues' : list (string * JsValue))
    (target target' : JwtCredentialPayload) (ds : list string) :
  createDisclosures createHash randomBytes hashAlg claimValues target
  = Ok (target', ds) ->
  credentialSubject (vc target) !! "_sd" = None \/ "_sd" ∈ claimValues.*1 ->
  is_Some (createHash (ianaToCryptoAlg hashAlg')) ->
  Forall (fun e => typeof e.2 <> "object") claimValues' ->
  createDisclosures createHash randomBytes hashAlg' claimValues' target'
  = Throw TypeError.
Proof.
  intros Hfirst Habsent Hh Hall.
  assert (Hfrozen : "_sd" ∈ frozen (vc target')).
  { unfold createDisclosures in Hfirst.
    destruct (disclosure_loop createHash randomBytes hashAlg 0 claimValues)
      as [[ds' dgs]|]; [|done].
    cbn [mbind Result_bind fst snd] in Hfirst.
    destruct (removeKeysFromObject _ _ _) as [subject|] eqn:Hrem; [|done].
    cbn [mbind Result_bind] in Hfirst. unfold defineProperty in Hfirst.
    case_bool_decide; [done|]. cbn [mbind Result_bind fst snd] in Hfirst.
    injection Hfirst as <- <-. cbn [vc frozen].
    apply removeKeysFromObject_ok in Hrem as [_ Hlook].
    rewrite bool_decide_eq_false_2;
      [by apply elem_of_union_l, elem_of_singleton|].
    rewrite Hlook. destruct Habsent as [->|Hin].
    - destruct (decide (_ ∈ _)); by intros [].
    - rewrite decide_True by done. by intros []. }
  destruct (disclosure_loop_succeeds createHash randomBytes hashAlg'
              claimValues' 0 Hh Hall) as [[ds2 dgs2] Hloop].
  unfold createDisclosures. rewrite Hloop. cbn [mbind Result_bind fst snd].
  destruct (removeKeysFromObject _ _ _) as [subject|e] eqn:Hrem.
  - cbn [mbind Result_bind]. unfold defineProperty.
    by rewrite bool_decide_eq_true_2.
  - cbn [mbind Result_bind]. f_equal.
    clear -Hrem. revert Hrem.
    generalize (credentialSubject (vc target')).
    induction claimValues'.*1 as [|key keys IH]; intros obj; [done|].
    cbn [removeKeysFromObject]. unfold delete_property.
    case_bool_decide; [by intros [= <-]|]. apply IH.
Qed.

(** The first hidden claim decides how a call with an unsupported digest
    fails: "Not yet implemented" if its value has [typeof] ["object"],
    otherwise the digest error, whatever the later claims are. *)
Theorem createDisclosures_unsupported_digest (hashAlg : string)
    (name : string) (value : JsValue) (rest : list (string * JsValue))
    (target : JwtCredentialPayload) :
  createHash (ianaToCryptoAlg hashAlg) = None ->
  createDisclosures createHash randomBytes hashAlg ((name, value) :: rest)
    target
  = Throw (Error (if String.eqb (typeof value) "object"
                  then "Not yet implemented"
                  else "Digest method not supported")).
Proof.
  intros Hh. unfold createDisclosures. cbn [disclosure_loop].
  destruct (String.eqb (typeof value) "object"); [done|].
  unfold hashDisclosure. by rewrite Hh.
Qed.

Lemma disclosure_loop_filter (hashAlg : string) (claims : list string)
    (entries : list (string * JsValue)) :
  forall (k : nat) (ds dgs : list string),
  disclosure_loop createHash randomBytes hashAlg k entries = Ok (ds, dgs) ->
  filter_disclosures claims ds
  = Ok (filter (fun p => p.1.1 ∈ claims) (zip entries ds)).*2.
Proof.
  induction entries as [|[name value] rest IH]; intros k ds dgs Hloop.
  - by injection Hloop as <- <-.
  - cbn [disclosure_loop] in Hloop.
    destruct (String.eqb_spec (typeof value) "object") as [|Hty]; [done|].
    destruct (hashDisclosure createHash hashAlg _) as [dg|]; [|done].
    destruct (disclosure_loop createHash randomBytes hashAlg (S k) rest)
      as [[ds' dgs']|] eqn:Hrest; [|done].
    cbv [mbind Result_bind] in Hloop. cbn [fst snd] in Hloop.
    injection Hloop as <- <-.
    cbn [filter_disclosures zip zip_with].
    change (encodeDisclosure
              [JString (base64url_encode (randomBytes k SALT_BYTE_SIZE));
               JString name; value])
      with (disclosure_of
              (base64url_encode (randomBytes k SALT_BYTE_SIZE), name, value)).
    rewrite parseDisclosure_disclosure_of by by apply typeof_not_object.
    cbn [mbind Result_bind]. rewrite (IH _ _ _ Hrest).
    cbn [mbind Result_bind fst snd].
    cbn [js_index includes lookup list_lookup DisclosureArray.NAME].
    rewrite filter_cons. cbn [fst snd]. f_equal.
    destruct (decide (name ∈ claims)) as [Hin|Hin].
    + by rewrite bool_decide_eq_true_2.
    + by rewrite bool_decide_eq_false_2.
Qed.

(** Issuance followed by presentation.  From the issued SD-JWT (any JWS,
    then the issued disclosures) [discloseClaims] succeeds for every reveal
    list; it keeps, in order, the disclosures of the claims named in the
    list, and the digest of each kept disclosure, under the issuance
    algorithm, is an entry of [credentialSubject._sd]. *)
Theorem presentation_of_issued (hashAlg : string)
    (claimValues : list (string * JsValue))
    (target target' : JwtCredentialPayload) (ds : list string)
    (jws : string) (claims : list string) :
  createDisclosures createHash randomBytes hashAlg claimValues target
  = Ok (target', ds) ->
  claimValues <> [] ->
  ~ In "~"%char (list_ascii_of_string jws) ->
  exists kept sd,
    discloseClaims (jws +:+ "~" +:+ join "~" ds) claims
    = Ok (jws +:+ "~" +:+ join "~" kept) /\
    kept = (filter (fun p => p.1.1 ∈ claims) (zip claimValues ds)).*2 /\
    credentialSubject (vc target') !! "_sd" = Some (JArray (JString <$> sd)) /\
    forall D, D ∈ kept ->
      exists digest,
        hashDisclosure createHash hashAlg D = Ok digest /\ digest ∈ sd.
Proof.
  intros Hcreate Hne Hjws.
  apply createDisclosures_ok in Hcreate as (dgs & Hloop & Hsubject & _).
  pose proof (disclosure_loop_filter hashAlg claims _ _ _ _ Hloop) as Hf.
  apply disclosure_loop_ok in Hloop as (Hlen & _ & Hdig & Htilde).
  eexists _, (sort dgs). split; [|split; [reflexivity|split]].
  - unfold discloseClaims.
    change ("~" +:+ join "~" ds) with (String "~" (join "~" ds)).
    rewrite split_app by done.
    destruct ds as [|d ds']; [by destruct claimValues|].
    rewrite split_join by done.
    cbn [length Nat.leb hd tail]. rewrite Hf. reflexivity.
  - exact Hsubject.
  - intros D HD.
    apply list_elem_of_fmap in HD as ([e D'] & -> & HD).
    apply list_elem_of_filter in HD as [_ HD].
    apply elem_of_zip_r in HD. cbn [snd] in *.
    apply list_elem_of_lookup in HD as [i Hi].
    destruct (Forall2_lookup_l _ _ _ _ _ Hdig Hi) as (dg & Hdg & HDdg).
    exists dg. split; [done|]. apply elem_of_sort.
    apply list_elem_of_lookup. by exists i.
Qed.

End IssuanceMore.

(** ** Digest names *)

Lemma remove_first_app (c : ascii) (a b : string) :
  ~ In c (list_ascii_of_string a) -> remove_first c (a +:+ String c b) = a +:+ b.
Proof.
  induction a as [|x a IH]; cbn [String.append remove_first list_ascii_of_string].
  - intros _. by rewrite Ascii.eqb_refl.
  - intros Hn. destruct (Ascii.eqb_spec c x) as [->|Hne].
    + exfalso. apply Hn. by left.
    + rewrite IH; [done|]. intros Hin. apply Hn. by right.
Qed.

Lemma toLowerCase_app (a b : string) :
  toLowerCase (a +:+ b) = toLowerCase a +:+ toLowerCase b.
Proof. induction a as [|x a IH]; [done|]. cbn. by rewrite IH. Qed.

Lemma In_app_middle (c : ascii) (a b : string) :
  In c (list_ascii_of_string (a +:+ String c b)).
Proof. induction a as [|x a IH]; [by left|]. by right. Qed.

(** For an ASCII name with a hyphen the digest name is the lower-case
    name without its first hyphen; later hyphens stay. *)
Theorem ianaToCryptoAlg_hyphen (a b : string) :
  is_ascii (a +:+ "-" +:+ b) = true ->
  ~ In "-"%char (list_ascii_of_string a) ->
  ianaToCryptoAlg (a +:+ "-" +:+ b) = toLowerCase a +:+ toLowerCase b.
Proof.
  intros _ Ha. unfold ianaToCryptoAlg.
  change ("-" +:+ b) with (String "-" b).
  pose proof (In_app_middle "-" a b) as Hin.
  destruct (String.eqb_spec (a +:+ String "-" b) "ES256K") as [E|_].
  { rewrite E in Hin. cbn in Hin. intuition discriminate. }
  destruct (String.eqb_spec (a +:+ String "-" b) "EdDSA") as [E|_].
  { rewrite E in Hin. cbn in Hin. intuition discriminate. }
  by rewrite remove_first_app, toLowerCase_app.
Qed.

Lemma ianaToCryptoAlg_hyphen_witness :
  ianaToCryptoAlg ("SHA" +:+ "-" +:+ "512-256") = "sha512-256".
Proof.
  apply (ianaToCryptoAlg_hyphen "SHA" "512-256"); [reflexivity|].
  cbn. intuition discriminate.
Defined.

Lemma createDisclosures_disclosures_witness :
  exists target' ds,
    createDisclosures example_createHash example_randomBytes "ES256K"
      example_claimValues example_target = Ok (target', ds) /\
    length ds = 2%nat /\
    exists D salt,
      ds !! 1%nat = Some D /\
      parseDisclosure D = Ok (JArray [JString salt; JString "sname"; JString "Doe"]).
Proof.
  destruct example_issuance as [[target' ds] Hout].
  destruct (createDisclosures_disclosures example_createHash
              example_randomBytes "ES256K" example_claimValues example_target
              target' ds Hout) as [Hlen Hparse].
  exists target', ds. split; [done|]. split; [done|].
  destruct (ds !! 1%nat) as [D|] eqn:HD.
  - destruct (Hparse 1%nat D HD) as (name & value & v' & Hentry & HDp & _ & Hv).
    injection Hentry as <- <-. rewrite (Hv eq_refl) in HDp. by eexists D, _.
  - apply lookup_ge_None in HD. rewrite Hlen in HD. cbn in HD. lia.
Defined.

(** A [null] value; a target whose [_sd] is frozen; an age of [42] on an
    ordinary target. *)
Lemma createDisclosures_outcome_witness :
  createDisclosures example_createHash example_randomBytes "SHA-256"
    [("fname", JString "John"); ("address", JNull)] example_target
  = Throw (Error "Not yet implemented") /\
  createDisclosures example_createHash example_randomBytes "SHA-256"
    [("fname", JString "John")]
    (mkPayload (mkVc (<["_sd" := JArray []]> ∅) ∅ {["_sd"]}) ∅)
  = Throw TypeError /\
  exists target' ds,
    createDisclosures example_createHash example_randomBytes "SHA-256"
      [("fname", JString "John");
       ("age", JNumber (Number.Finite false 5910974510923776 (-47)))]
      example_target
    = Ok (target', ds).
Proof.
  split; [|split].
  - apply (createDisclosures_outcome example_createHash example_randomBytes
             "SHA-256" [("fname", JString "John"); ("address", JNull)]
             example_target); [by eexists|].
    apply Exists_cons_tl, Exists_cons_hd. reflexivity.
  - apply (createDisclosures_outcome example_createHash example_randomBytes
             "SHA-256" [("fname", JString "John")]
             (mkPayload (mkVc (<["_sd" := JArray []]> ∅) ∅ {["_sd"]}) ∅));
      [by eexists|repeat constructor; discriminate|].
    apply Exists_cons_hd. cbn [vc frozen]. by apply elem_of_singleton.
  - apply (createDisclosures_outcome example_createHash example_randomBytes
             "SHA-256"
             [("fname", JString "John");
              ("age", JNumber (Number.Finite false 5910974510923776 (-47)))]
             example_target); [by eexists| |].
    + repeat constructor; discriminate.
    + repeat constructor; apply not_elem_of_empty.
Defined.

Lemma createDisclosures_twice_witness :
  exists target' ds,
    createDisclosures example_createHash example_randomBytes "ES256K"
      example_claimValues example_target = Ok (target', ds) /\
    createDisclosures example_createHash example_randomBytes "ES256K"
      [("nationalId", JString "ajj3i23293f290")] target'
    = Throw TypeError.
Proof.
  destruct example_issuance as [[target' ds] Hout].
  exists target', ds. split; [exact Hout|].
  apply (createDisclosures_twice example_createHash example_randomBytes
           "ES256K" "ES256K" example_claimValues
           [("nationalId", JString "ajj3i23293f290")] example_target
           target' ds Hout).
  - left. reflexivity.
  - by eexists.
  - repeat constructor; discriminate.
Defined.

Lemma createDisclosures_unsupported_digest_witness :
  createDisclosures example_createHash example_randomBytes "SHA3-256"
    [("fname", JString "John"); ("address", JNull)] example_target
  = Throw (Error "Digest method not supported").
Proof.
  apply (createDisclosures_unsupported_digest example_createHash
           example_randomBytes "SHA3-256" "fname" (JString "John")
           [("address", JNull)] example_target).
  reflexivity.
Defined.

Lemma presentation_of_issued_witness :
  exists target' ds kept sd,
    createDisclosures example_createHash example_randomBytes "ES256K"
      example_claimValues example_target = Ok (target', ds) /\
    discloseClaims ("e30.e30.c2ln" +:+ "~" +:+ join "~" ds) ["sname"]
    = Ok ("e30.e30.c2ln" +:+ "~" +:+ join "~" kept) /\
    kept = (filter (fun p => p.1.1 ∈ ["sname"]) (zip example_claimValues ds)).*2 /\
    credentialSubject (vc target') !! "_sd" = Some (JArray (JString <$> sd)) /\
    forall D, D ∈ kept ->
      exists digest,
        hashDisclosure example_createHash "ES256K" D = Ok digest /\ digest ∈ sd.
Proof.
  destruct example_issuance as [[target' ds] Hout].
  destruct (presentation_of_issued example_createHash example_randomBytes
              "ES256K" example_claimValues example_target target' ds
              "e30.e30.c2ln" ["sname"] Hout) as (kept & sd & H).
  - discriminate.
  - vm_compute. intuition discriminate.
  - by exists target', ds, kept, sd.
Defined.
